(** * oidc-jwt-fetcher: token acquisition and secret reconciliation

    A shallow embedding of the Go programs of the repository:

    - the single-namespace program ([src/main.go], first file), module [Simple];
    - the cluster-wide program with retries and error aggregation
      ([src/unnamed/part_003], first file), module [SecretManager];
    - the cron-job program with explicit target namespaces, merge patch and
      fail-fast processing ([src/unnamed/part_003], second file), module
      [Fetcher].

    Go strings are byte strings and are modelled by [string] (one [ascii] per
    byte).  Everything outside the process (environment, files, the token
    endpoint, the cluster API, the clock and the signal context) is reached
    through a record of operations on an abstract world, and every call is
    recorded in a trace of events. *)

From Stdlib Require Import ZArith Ascii String List Bool Lia.
From stdpp Require Import base option gmap strings list.

Import ListNotations.
Set Warnings "-register-all".
Set Default Proof Using "Type".
Local Open Scope string_scope.
Local Open Scope Z_scope.

(** ** Go library functions on byte strings *)

Module GoStrings.

Definition byte (a : ascii) : N := N_of_ascii a.

Definition beq (a : ascii) (n : N) : bool := N.eqb (byte a) n.

Definition between (lo : N) (a : ascii) (hi : N) : bool :=
  N.leb lo (byte a) && N.leb (byte a) hi.

(** The double quote, and a text between double quotes. *)
Definition quote : string := String (ascii_of_N 34) EmptyString.

Definition quoted (s : string) : string := quote ++ s ++ quote.

(** The test that a string is empty. *)
Definition isEmpty (s : string) : bool :=
  match s with EmptyString => true | String _ _ => false end.

Fixpoint revAppend (s acc : string) : string :=
  match s with
  | EmptyString => acc
  | String c r => revAppend r (String c acc)
  end.

Definition revString (s : string) : string := revAppend s EmptyString.

(** [strings.Split(s, sep)] for a separator of one byte: the pieces between
    the occurrences of the separator, n+1 pieces for n occurrences. *)
Fixpoint Split (s : string) (sep : ascii) : list string :=
  match s with
  | EmptyString => [EmptyString]
  | String c r =>
      if Ascii.eqb c sep then EmptyString :: Split r sep
      else match Split r sep with
           | [] => [String c EmptyString]
           | p :: ps => String c p :: ps
           end
  end.

(** [strings.Join(l, sep)] *)
Fixpoint Join (l : list string) (sep : string) : string :=
  match l with
  | [] => EmptyString
  | [p] => p
  | p :: ps => p ++ sep ++ Join ps sep
  end.

(** The six ASCII bytes of [unicode.IsSpace]: \t \n \v \f \r and space. *)
Definition asciiSpace (a : ascii) : bool :=
  between 9 a 13 || beq a 32.

(** The UTF-8 encodings of the other runes of [unicode.IsSpace]:
    U+0085, U+00A0 (two bytes) and U+1680, U+2000..U+200A, U+2028, U+2029,
    U+202F, U+205F, U+3000 (three bytes). *)
Definition space2 (a b : ascii) : bool :=
  beq a 194 && (beq b 133 || beq b 160).

Definition space3 (a b c : ascii) : bool :=
  (beq a 225 && beq b 154 && beq c 128)
  || (beq a 226 && beq b 128
      && (between 128 c 138 || beq c 168 || beq c 169 || beq c 175))
  || (beq a 226 && beq b 129 && beq c 159)
  || (beq a 227 && beq b 128 && beq c 128).

(** [strings.TrimLeftFunc(s, unicode.IsSpace)]: a byte that does not start
    the encoding of a white space rune (also an invalid one, which decodes
    to U+FFFD) stops the scan. *)
Fixpoint TrimLeftSpace (s : string) : string :=
  match s with
  | EmptyString => EmptyString
  | String a s1 =>
      if asciiSpace a then TrimLeftSpace s1
      else match s1 with
           | EmptyString => s
           | String b s2 =>
               if space2 a b then TrimLeftSpace s2
               else match s2 with
                    | EmptyString => s
                    | String c s3 =>
                        if space3 a b c then TrimLeftSpace s3 else s
                    end
           end
  end.

(** The same scan on the reversed string, the encodings read backwards:
    [utf8.DecodeLastRuneInString] steps back to the nearest byte that
    starts a rune and accepts it when its encoding reaches the end. *)
Fixpoint TrimLeftSpaceRev (s : string) : string :=
  match s with
  | EmptyString => EmptyString
  | String a s1 =>
      if asciiSpace a then TrimLeftSpaceRev s1
      else match s1 with
           | EmptyString => s
           | String b s2 =>
               if space2 b a then TrimLeftSpaceRev s2
               else match s2 with
                    | EmptyString => s
                    | String c s3 =>
                        if space3 c b a then TrimLeftSpaceRev s3 else s
                    end
           end
  end.

Definition TrimRightSpace (s : string) : string :=
  revString (TrimLeftSpaceRev (revString s)).

(** [strings.TrimSpace(s)] *)
Definition TrimSpace (s : string) : string :=
  TrimRightSpace (TrimLeftSpace s).

Fixpoint HasPrefix (s p : string) : bool :=
  match p, s with
  | EmptyString, _ => true
  | String _ _, EmptyString => false
  | String b p', String a s' => Ascii.eqb a b && HasPrefix s' p'
  end.

(** [strings.Contains(s, substr)] *)
Fixpoint Contains (s sub : string) : bool :=
  HasPrefix s sub
  || match s with
     | EmptyString => false
     | String _ r => Contains r sub
     end.

(** Decimal digits of a positive number, most significant first; the fuel
    bounds the number of digits. *)
Fixpoint digits (fuel : nat) (n : N) (acc : string) : string :=
  match fuel with
  | O => acc
  | S f =>
      let acc' := String (ascii_of_N (48 + N.modulo n 10)) acc in
      if N.ltb n 10 then acc' else digits f (N.div n 10) acc'
  end.

(** [strconv.Itoa], the [%d] verb of [fmt]. *)
Definition Itoa (z : Z) : string :=
  let n := Z.abs_N z in
  let d := digits (S (N.to_nat (N.log2 n))) n EmptyString in
  if Z.ltb z 0 then String "-" d else d.

End GoStrings.

(** ** Paths (package [path/filepath], on Unix) *)

Module GoPath.

Import GoStrings.

(** The loop of [filepath.Clean] over the elements of a path, the texts
    between its separators.  An empty element and [.] are dropped; [..]
    removes the element before it, is dropped at the root, and is kept at
    the start of a path that is not rooted.  [up] counts the [..] kept at the
    start, [out] holds the elements after them, the last one first. *)
Fixpoint cleanLoop (rooted : bool) (elems : list string) (up : nat) (out : list string)
  : nat * list string :=
  match elems with
  | [] => (up, out)
  | e :: rest =>
      if isEmpty e || String.eqb e "." then cleanLoop rooted rest up out
      else if String.eqb e ".." then
        match out with
        | _ :: out' => cleanLoop rooted rest up out'
        | [] => cleanLoop rooted rest (if rooted then up else S up) []
        end
      else cleanLoop rooted rest up (e :: out)
  end.

(** [filepath.Clean(path)] *)
Definition Clean (path : string) : string :=
  if isEmpty path then "."
  else
    let rooted := HasPrefix path "/" in
    let '(up, out) := cleanLoop rooted (Split path "/") 0 [] in
    let elems := (repeat ".." up ++ List.rev out)%list in
    if rooted then "/" ++ Join elems "/"
    else if Nat.eqb (length elems) 0 then "." else Join elems "/".

Fixpoint skipEmpty (elem : list string) : list string :=
  match elem with
  | e :: rest => if isEmpty e then skipEmpty rest else elem
  | [] => []
  end.

(** [filepath.Join(elem...)]: the elements from the first one that is not
    empty, joined by the separator and cleaned. *)
Definition Join (elem : list string) : string :=
  match skipEmpty elem with
  | [] => EmptyString
  | l => Clean (GoStrings.Join l "/")
  end.

End GoPath.


(** ** Go errors *)

Module GoError.

(** [context.Canceled] and [context.DeadlineExceeded]. *)
Inductive CtxErr := Canceled | DeadlineExceeded.

(** The [metav1.StatusReason] values that the programs or the cluster model
    distinguish. *)
Inductive StatusReason :=
| ReasonNotFound | ReasonAlreadyExists | ReasonForbidden | ReasonTimeout
| ReasonInternalError.

(** An [error] value: a message ([errors.New], [fmt.Errorf] without [%w], an
    error of a library), a wrapper ([fmt.Errorf] with [%w]: the formatted
    text and the wrapped error), an API status error, or a context error. *)
Inductive error :=
| errorString (msg : string)
| wrapError (msg : string) (err : error)
| statusError (reason : StatusReason) (msg : string)
| contextError (c : CtxErr).

(** [err.Error()] *)
Definition Error (e : error) : string :=
  match e with
  | errorString m => m
  | wrapError m _ => m
  | statusError _ m => m
  | contextError Canceled => "context canceled"
  | contextError DeadlineExceeded => "context deadline exceeded"
  end.

(** [fmt.Errorf(prefix + "%w", err)] *)
Definition Errorf_w (prefix : string) (err : error) : error :=
  wrapError (prefix ++ Error err) err.

(** [k8serrors.IsNotFound(err)] *)
Definition IsNotFound (e : error) : bool :=
  match e with
  | statusError ReasonNotFound _ => true
  | _ => false
  end.

(** The [%v] verb on a slice of errors: the messages between brackets,
    separated by one space. *)
Definition fmtErrors (l : list error) : string :=
  "[" ++ GoStrings.Join (map Error l) " " ++ "]".

End GoError.

(** ** UTF-8 (package [unicode/utf8]) *)

Module Utf8.

Import GoStrings.

Definition cont (a : ascii) : bool := between 128 a 191.

(** The number of bytes of the well-formed encoding that starts [s], or 0
    when [s] starts with no well-formed encoding ([utf8.DecodeRuneInString]
    then yields U+FFFD and width 1). *)
Definition runeLen (s : string) : nat :=
  match s with
  | EmptyString => 0%nat
  | String a s1 =>
      if N.ltb (byte a) 128 then 1%nat
      else match s1 with
      | EmptyString => 0%nat
      | String b s2 =>
          if between 194 a 223 then (if cont b then 2%nat else 0%nat)
          else match s2 with
          | EmptyString => 0%nat
          | String c s3 =>
              let second3 :=
                if beq a 224 then between 160 b 191
                else if beq a 237 then between 128 b 159
                else if between 225 a 239 then cont b
                else false in
              if second3 then (if cont c then 3%nat else 0%nat)
              else match s3 with
              | EmptyString => 0%nat
              | String d _ =>
                  let second4 :=
                    if beq a 240 then between 144 b 191
                    else if beq a 244 then between 128 b 143
                    else if between 241 a 243 then cont b
                    else false in
                  if second4 && cont c && cont d then 4%nat else 0%nat
              end
          end
      end
  end.

Definition chr (n : N) : ascii := ascii_of_N n.

(** U+FFFD, [unicode.ReplacementChar]. *)
Definition replacement : string :=
  String (chr 239) (String (chr 191) (String (chr 189) EmptyString)).

(** [utf8.EncodeRune] *)
Definition EncodeRune (r : N) : string :=
  let low6 (n : N) := N.lor 128 (N.land n 63) in
  if N.ltb r 128 then String (chr r) EmptyString
  else if N.ltb r 2048 then
    String (chr (N.lor 192 (N.shiftr r 6))) (String (chr (low6 r)) EmptyString)
  else if (N.leb 55296 r && N.leb r 57343) || N.ltb 1114111 r then replacement
  else if N.ltb r 65536 then
    String (chr (N.lor 224 (N.shiftr r 12)))
      (String (chr (low6 (N.shiftr r 6))) (String (chr (low6 r)) EmptyString))
  else
    String (chr (N.lor 240 (N.shiftr r 18)))
      (String (chr (low6 (N.shiftr r 12)))
         (String (chr (low6 (N.shiftr r 6))) (String (chr (low6 r)) EmptyString))).

(** [utf16.DecodeRune] of a surrogate pair, [None] when it is not one. *)
Definition DecodeSurrogates (r1 r2 : N) : option N :=
  if N.leb 55296 r1 && N.ltb r1 56320 && N.leb 56320 r2 && N.ltb r2 57344
  then Some (N.lor (N.shiftl (r1 - 55296) 10) (r2 - 56320) + 65536)%N
  else None.

Fixpoint take (n : nat) (s : string) : string :=
  match n, s with
  | S n', String a r => String a (take n' r)
  | _, _ => EmptyString
  end.

Fixpoint drop (n : nat) (s : string) : string :=
  match n, s with
  | S n', String _ r => drop n' r
  | _, _ => s
  end.

End Utf8.

(** ** JSON (package [encoding/json]) *)

Module Json.

Import GoStrings.

(** A JSON value; a number keeps its literal, an object its members in the
    order of the text, duplicates included. *)
Inductive JSON :=
| JNull
| JBool (b : bool)
| JNumber (lit : string)
| JString (s : string)
| JArray (l : list JSON)
| JObject (m : list (string * JSON)).

Definition isWS (a : ascii) : bool :=
  beq a 32 || beq a 9 || beq a 13 || beq a 10.

Fixpoint skipWS (s : string) : string :=
  match s with
  | String a r => if isWS a then skipWS r else s
  | EmptyString => EmptyString
  end.

Definition hexval (a : ascii) : option N :=
  if between 48 a 57 then Some (byte a - 48)%N
  else if between 97 a 102 then Some (byte a - 87)%N
  else if between 65 a 70 then Some (byte a - 55)%N
  else None.

(** [getu4]: the code unit of a leading [\uXXXX], and the rest. *)
Definition getu4 (s : string) : option (N * string) :=
  match s with
  | String "\" (String "u" (String h1 (String h2 (String h3 (String h4 r))))) =>
      match hexval h1, hexval h2, hexval h3, hexval h4 with
      | Some a, Some b, Some c, Some d =>
          Some (((a * 16 + b) * 16 + c) * 16 + d, r)%N
      | _, _, _, _ => None
      end
  | _ => None
  end.

Definition cons_str (p : string) (r : option (string * string)) : option (string * string) :=
  match r with
  | Some (t, rest) => Some (p ++ t, rest)
  | None => None
  end.

(** The text of a string literal after its opening quote: the scanner's
    checks (a closing quote, no control character, well-formed escapes) and
    [unquote] (escapes replaced, ill-formed UTF-8 and lone surrogates
    replaced by U+FFFD).  Every step consumes a byte, so the length of the
    text is enough fuel. *)
Fixpoint unquote (fuel : nat) (s : string) : option (string * string) :=
  match fuel with
  | O => None
  | S f =>
      match s with
      | EmptyString => None
      | String c r =>
          if beq c 34 then Some (EmptyString, r)
          else if beq c 92 then
            match r with
            | EmptyString => None
            | String e r' =>
                let simple (n : N) := cons_str (String (Utf8.chr n) EmptyString) (unquote f r') in
                if beq e 34 then simple 34%N
                else if beq e 92 then simple 92%N
                else if beq e 47 then simple 47%N
                else if beq e 98 then simple 8%N
                else if beq e 102 then simple 12%N
                else if beq e 110 then simple 10%N
                else if beq e 114 then simple 13%N
                else if beq e 116 then simple 9%N
                else if beq e 117 then
                  match getu4 s with
                  | None => None
                  | Some (u, r1) =>
                      if N.leb 55296 u && N.leb u 57343 then
                        match getu4 r1 with
                        | Some (u2, r2) =>
                            match Utf8.DecodeSurrogates u u2 with
                            | Some rr => cons_str (Utf8.EncodeRune rr) (unquote f r2)
                            | None => cons_str Utf8.replacement (unquote f r1)
                            end
                        | None => cons_str Utf8.replacement (unquote f r1)
                        end
                      else cons_str (Utf8.EncodeRune u) (unquote f r1)
                  end
                else None
            end
          else if N.ltb (byte c) 32 then None
          else if N.ltb (byte c) 128 then cons_str (String c EmptyString) (unquote f r)
          else
            match Utf8.runeLen s with
            | O => cons_str Utf8.replacement (unquote f r)
            | n => cons_str (Utf8.take n s) (unquote f (Utf8.drop n s))
            end
      end
  end.

Definition isDigit (a : ascii) : bool := between 48 a 57.

Fixpoint takeDigits (s : string) : string * string :=
  match s with
  | String a r =>
      if isDigit a then let '(d, rest) := takeDigits r in (String a d, rest)
      else (EmptyString, s)
  | EmptyString => (EmptyString, EmptyString)
  end.

(** A number literal: an optional minus sign, then 0 or a digit 1-9 followed
    by digits, then optionally a point and one or more digits, then
    optionally e or E, an optional sign and one or more digits. *)
Definition scanNumber (s : string) : option (string * string) :=
  let '(sign, s0) :=
    match s with
    | String "-" r => ("-", r)
    | _ => (EmptyString, s)
    end in
  let int :=
    match s0 with
    | String "0" r => Some ("0", r)
    | String a _ =>
        if between 49 a 57 then Some (takeDigits s0) else None
    | EmptyString => None
    end in
  match int with
  | None => None
  | Some (i, s1) =>
      let frac :=
        match s1 with
        | String "." r =>
            match takeDigits r with
            | (EmptyString, _) => None
            | (d, rest) => Some (String "." d, rest)
            end
        | _ => Some (EmptyString, s1)
        end in
      match frac with
      | None => None
      | Some (fr, s2) =>
          let exp :=
            match s2 with
            | String e r =>
                if beq e 101 || beq e 69 then
                  let '(sg, r1) :=
                    match r with
                    | String g r' =>
                        if beq g 43 || beq g 45 then (String g EmptyString, r') else (EmptyString, r)
                    | EmptyString => (EmptyString, r)
                    end in
                  match takeDigits r1 with
                  | (EmptyString, _) => None
                  | (d, rest) => Some (String e (sg ++ d), rest)
                  end
                else Some (EmptyString, s2)
            | EmptyString => Some (EmptyString, s2)
            end in
          match exp with
          | None => None
          | Some (ex, s3) => Some (sign ++ i ++ fr ++ ex, s3)
          end
      end
  end.

(** One JSON value at the start of the text (after white space), and the
    text that follows it. *)
Fixpoint scanValue (fuel : nat) (s : string) : option (JSON * string) :=
  match fuel with
  | O => None
  | S f =>
      match skipWS s with
      | EmptyString => None
      | String c r =>
          if beq c 123 then
            match skipWS r with
            | String "}" r' => Some (JObject [], r')
            | r' =>
                match scanMembers f r' with
                | Some (m, rest) => Some (JObject m, rest)
                | None => None
                end
            end
          else if beq c 91 then
            match skipWS r with
            | String "]" r' => Some (JArray [], r')
            | r' =>
                match scanElements f r' with
                | Some (l, rest) => Some (JArray l, rest)
                | None => None
                end
            end
          else if beq c 34 then
            match unquote (S (String.length r)) r with
            | Some (t, rest) => Some (JString t, rest)
            | None => None
            end
          else if HasPrefix (String c r) "true" then Some (JBool true, Utf8.drop 4 (String c r))
          else if HasPrefix (String c r) "false" then Some (JBool false, Utf8.drop 5 (String c r))
          else if HasPrefix (String c r) "null" then Some (JNull, Utf8.drop 4 (String c r))
          else
            match scanNumber (String c r) with
            | Some (lit, rest) => Some (JNumber lit, rest)
            | None => None
            end
      end
  end
with scanElements (fuel : nat) (s : string) : option (list JSON * string) :=
  match fuel with
  | O => None
  | S f =>
      match scanValue f s with
      | None => None
      | Some (v, r) =>
          match skipWS r with
          | String "," r' =>
              match scanElements f r' with
              | Some (vs, rest) => Some (v :: vs, rest)
              | None => None
              end
          | String "]" r' => Some ([v], r')
          | _ => None
          end
      end
  end
with scanMembers (fuel : nat) (s : string) : option (list (string * JSON) * string) :=
  match fuel with
  | O => None
  | S f =>
      match skipWS s with
      | String q r =>
          if negb (beq q 34) then None
          else
            match unquote (S (String.length r)) r with
            | None => None
            | Some (k, r1) =>
                match skipWS r1 with
                | String ":" r2 =>
                    match scanValue f r2 with
                    | None => None
                    | Some (v, r3) =>
                        match skipWS r3 with
                        | String "," r4 =>
                            match scanMembers f r4 with
                            | Some (m, rest) => Some ((k, v) :: m, rest)
                            | None => None
                            end
                        | String "}" r4 => Some ([(k, v)], r4)
                        | _ => None
                        end
                    end
                | _ => None
                end
            end
      | EmptyString => None
      end
  end.

(** What [Decoder.Decode] reads from a body: the first JSON value; the bytes
    after it are left in the stream.  [None] is a syntax error or an early
    end of the input. *)
Definition readValue (body : string) : option JSON :=
  match scanValue (2 * String.length body + 2) body with
  | Some (v, _) => Some v
  | None => None
  end.

(** [foldName]: ASCII letters in upper case, and the two other runes whose
    simple case folding reaches an ASCII letter: U+017F (long s) and U+212A
    (Kelvin sign). *)
Fixpoint foldName (s : string) : string :=
  match s with
  | EmptyString => EmptyString
  | String a s1 =>
      if between 97 a 122 then String (Utf8.chr (byte a - 32)) (foldName s1)
      else match s1 with
      | EmptyString => s
      | String b s2 =>
          if beq a 197 && beq b 191 then String "S" (foldName s2)
          else match s2 with
          | EmptyString => String a (foldName s1)
          | String c s3 =>
              if beq a 226 && beq b 132 && beq c 170 then String "K" (foldName s3)
              else String a (foldName s1)
          end
      end
  end.

(** A member name selects a struct field by its exact name or, failing
    that, by its name under case folding. *)
Definition matchesField (key field : string) : bool :=
  String.eqb key field || String.eqb (foldName key) (foldName field).

Fixpoint getMember (k : string) (m : list (string * JSON)) : option JSON :=
  match m with
  | [] => None
  | (k', v) :: r => if String.eqb k k' then Some v else getMember k r
  end.

Fixpoint removeMember (k : string) (m : list (string * JSON)) : list (string * JSON) :=
  match m with
  | [] => []
  | (k', v) :: r => if String.eqb k k' then removeMember k r else (k', v) :: removeMember k r
  end.

(** [m[k] = v]: the member is replaced where it stands, or added. *)
Fixpoint setMember (k : string) (v : JSON) (m : list (string * JSON)) : list (string * JSON) :=
  match m with
  | [] => [(k, v)]
  | (k', v') :: r => if String.eqb k k' then (k, v) :: removeMember k r else (k', v') :: setMember k v r
  end.

Definition members (j : JSON) : list (string * JSON) :=
  match j with
  | JObject m => m
  | _ => []
  end.

Definition field (k : string) (j : JSON) : option JSON := getMember k (members j).

(** JSON merge patch, RFC 7386: the algorithm that the API server applies
    for [types.MergePatchType]. *)
Fixpoint MergePatch (target patch : JSON) : JSON :=
  match patch with
  | JObject ps =>
      JObject
        ((fix each (ps : list (string * JSON)) (tm : list (string * JSON)) :=
            match ps with
            | [] => tm
            | (name, value) :: ps' =>
                each ps'
                  match value with
                  | JNull => removeMember name tm
                  | _ => setMember name (MergePatch (default JNull (getMember name tm)) value) tm
                  end
            end) ps (members target))
  | _ => patch
  end.

End Json.

(** ** Base64 (package [encoding/base64], [StdEncoding]) *)

Module Base64.

Import GoStrings.

Definition alphabet : string :=
  "ABCDEFGHIJKLMNOPQRSTUVWXYZabcdefghijklmnopqrstuvwxyz0123456789+/".

Definition enc (n : N) : ascii :=
  match String.get (N.to_nat n) alphabet with
  | Some a => a
  | None => "="%char
  end.

(** [EncodeToString] *)
Fixpoint EncodeToString (s : string) : string :=
  match s with
  | EmptyString => EmptyString
  | String a EmptyString =>
      let x := byte a in
      String (enc (N.shiftr x 2))
        (String (enc (N.land (N.shiftl x 4) 63)) "==")
  | String a (String b EmptyString) =>
      let x := byte a in
      let y := byte b in
      String (enc (N.shiftr x 2))
        (String (enc (N.lor (N.land (N.shiftl x 4) 63) (N.shiftr y 4)))
           (String (enc (N.land (N.shiftl y 2) 63)) "="))
  | String a (String b (String c r)) =>
      let x := byte a in
      let y := byte b in
      let z := byte c in
      String (enc (N.shiftr x 2))
        (String (enc (N.lor (N.land (N.shiftl x 4) 63) (N.shiftr y 4)))
           (String (enc (N.lor (N.land (N.shiftl y 2) 63) (N.shiftr z 6)))
              (String (enc (N.land z 63)) (EncodeToString r))))
  end.

Fixpoint find (a : ascii) (s : string) (i : N) : option N :=
  match s with
  | EmptyString => None
  | String b r => if Ascii.eqb a b then Some i else find a r (i + 1)%N
  end.

Definition dec (a : ascii) : option N := find a alphabet 0%N.

Definition chr (n : N) : ascii := ascii_of_N (N.land n 255).

(** [DecodeString] on a text of padded groups of four characters. *)
Fixpoint DecodeString (s : string) : option string :=
  match s with
  | EmptyString => Some EmptyString
  | String a (String b (String c (String d r))) =>
      match dec a, dec b with
      | Some x, Some y =>
          let b1 := chr (N.lor (N.shiftl x 2) (N.shiftr y 4)) in
          match dec c, dec d with
          | Some z, Some u =>
              match DecodeString r with
              | Some t =>
                  Some (String b1
                          (String (chr (N.lor (N.shiftl y 4) (N.shiftr z 2)))
                             (String (chr (N.lor (N.shiftl z 6) u)) t)))
              | None => None
              end
          | Some z, None =>
              if Ascii.eqb d "=" && isEmpty r then
                Some (String b1 (String (chr (N.lor (N.shiftl y 4) (N.shiftr z 2))) EmptyString))
              else None
          | None, _ =>
              if Ascii.eqb c "=" && Ascii.eqb d "=" && isEmpty r then Some (String b1 EmptyString)
              else None
          end
      | _, _ => None
      end
  | _ => None
  end.

End Base64.

(** ** Kubernetes objects (packages [corev1], [metav1]) *)

Module K8s.

Import Json.

(** The fields of [corev1.Secret] that the programs set or read. *)
Record Secret := mkSecret {
  Name : string;
  Namespace : string;
  Labels : gmap string string;
  SecretType : string;
  Data : gmap string string;
  StringData : gmap string string
}.

Definition SecretTypeOpaque : string := "Opaque".

(** [m[k]] on a Go map of strings: the zero value for a missing key. *)
Definition index (m : gmap string string) (k : string) : string :=
  default EmptyString (m !! k).

Definition stringMap (enc : string -> string) (m : gmap string string) : JSON :=
  JObject ((fun kv : string * string => (fst kv, JString (enc (snd kv)))) <$> map_to_list m).

Definition omitEmpty (name : string) (v : string) : list (string * JSON) :=
  if GoStrings.isEmpty v then [] else [(name, JString v)].

Definition omitEmptyMap (name : string) (enc : string -> string) (m : gmap string string)
  : list (string * JSON) :=
  if decide (m = ∅) then [] else [(name, stringMap enc m)].

(** The JSON document of a Secret: every field is [omitempty], the values of
    [data] are base64 text. *)
Definition toJSON (s : Secret) : JSON :=
  JObject
    ([("metadata",
       JObject (omitEmpty "name" (Name s) ++ omitEmpty "namespace" (Namespace s)
                ++ omitEmptyMap "labels" id (Labels s)))]
     ++ omitEmptyMap "data" Base64.EncodeToString (Data s)
     ++ omitEmptyMap "stringData" id (StringData s)
     ++ omitEmpty "type" (SecretType s)).

End K8s.

(** ** The world outside the process *)

Module Sys.

Import GoError Json K8s.

(** An HTTP response: status code and body. *)
Record Reply := mkReply {
  StatusCode : Z;
  Content : string;
  CloseErr : option error
}.

(** The operations the programs call, on an abstract world [World].  A call
    that reaches the network returns the world that follows it. *)
Record Backend := mkBackend {
  World : Type;
  (* os.LookupEnv *)
  LookupEnv : World -> string -> option string;
  (* os.ReadFile *)
  ReadFile : World -> string -> error + string;
  (* os.Stat followed by os.IsNotExist *)
  NotExist : World -> string -> bool;
  (* http.NewRequest: the error of an address that does not parse *)
  NewRequest : World -> string -> option error;
  (* client.PostForm, client.Do: a transport error (also a timeout) or the
     response *)
  Post : World -> string -> list (string * string) -> (error + Reply) * World;
  (* time.Sleep *)
  Sleep : World -> Z -> World;
  (* rest.InClusterConfig, clientcmd.BuildConfigFromFlags, kubernetes.NewForConfig *)
  InClusterConfig : World -> option error;
  BuildConfigFromFlags : World -> string -> option error;
  NewForConfig : World -> option error;
  (* Namespaces().List: the names of the items *)
  ListNamespaces : World -> (error + list string) * World;
  (* Secrets(ns).Get / Create / Update / Patch with types.MergePatchType *)
  GetSecret : World -> string -> string -> (error + Secret) * World;
  CreateSecret : World -> string -> Secret -> option error * World;
  UpdateSecret : World -> string -> Secret -> option error * World;
  PatchSecret : World -> string -> string -> JSON -> option error * World;
  (* ctx.Err() of the signal context of the process *)
  ContextErr : World -> option CtxErr;
  (* Err() of the context, with its deadline, of the last cluster operation *)
  OpContextErr : World -> option CtxErr
}.

(** The calls a run makes, in order; a request to the token endpoint is
    recorded with what came back. *)
Inductive Event :=
| EvPost (url : string) (values : list (string * string)) (result : error + Reply)
| EvSleep (d : Z)
| EvList
| EvGet (ns name : string)
| EvCreate (ns : string) (s : Secret)
| EvUpdate (ns : string) (s : Secret)
| EvPatch (ns name : string) (patch : JSON)
| EvLogCompleted (success_count error_count total_namespaces : Z).

(** A write to the cluster. *)
Definition isWrite (e : Event) : bool :=
  match e with
  | EvCreate _ _ | EvUpdate _ _ | EvPatch _ _ _ => true
  | _ => false
  end.

Definition isSleep (e : Event) : bool :=
  match e with EvSleep _ => true | _ => false end.

Definition isPost (e : Event) : bool :=
  match e with EvPost _ _ _ => true | _ => false end.

(** The namespace an event is about, for the secret operations. *)
Definition eventNamespace (e : Event) : option string :=
  match e with
  | EvGet ns _ | EvCreate ns _ | EvUpdate ns _ | EvPatch ns _ _ => Some ns
  | _ => None
  end.

(** A computation either returns or ends the process ([os.Exit],
    [log.Fatalf], a panic) with an exit code. *)
Inductive Outcome (A : Type) :=
| Return (a : A)
| Exit (code : Z).

Arguments Return {A} a.
Arguments Exit {A} code.

Section Monad.

Variable B : Backend.

(** A computation runs from a world and yields its outcome, the world it
    leaves and the events it made. *)
Definition M (A : Type) : Type := World B -> Outcome A * World B * list Event.

Definition ret {A} (a : A) : M A := fun w => (Return a, w, []).

Definition bind {A C} (m : M A) (k : A -> M C) : M C :=
  fun w =>
    match m w with
    | (Return a, w1, t1) => let '(o, w2, t2) := k a w1 in (o, w2, (t1 ++ t2)%list)
    | (Exit code, w1, t1) => (Exit code, w1, t1)
    end.

Definition exit {A} (code : Z) : M A := fun w => (Exit code, w, []).

Definition emit (e : Event) : M unit := fun w => (Return tt, w, [e]).

(** A call that only reads the world. *)
Definition ask {A} (f : World B -> A) : M A := fun w => (Return (f w), w, []).

(** A call that changes the world, recorded as [e]. *)
Definition call {A} (e : Event) (f : World B -> A * World B) : M A :=
  fun w => let '(a, w1) := f w in (Return a, w1, [e]).

(** [os.Getenv] *)
Definition Getenv (key : string) : M string :=
  ask (fun w => default EmptyString (LookupEnv B w key)).

Definition sleep (d : Z) : M unit :=
  call (EvSleep d) (fun w => (tt, Sleep B w d)).

(** [client.PostForm(url, values)], [client.Do(req)] *)
Definition httpPost (url : string) (values : list (string * string)) : M (error + Reply) :=
  fun w => let '(r, w1) := Post B w url values in (Return r, w1, [EvPost url values r]).

Definition secretsGet (ns name : string) : M (error + Secret) :=
  call (EvGet ns name) (fun w => GetSecret B w ns name).

Definition secretsCreate (ns : string) (s : Secret) : M (option error) :=
  call (EvCreate ns s) (fun w => CreateSecret B w ns s).

Definition secretsUpdate (ns : string) (s : Secret) : M (option error) :=
  call (EvUpdate ns s) (fun w => UpdateSecret B w ns s).

Definition secretsPatch (ns name : string) (patch : JSON) : M (option error) :=
  call (EvPatch ns name patch) (fun w => PatchSecret B w ns name patch).

Definition namespacesList : M (error + list string) :=
  call EvList (fun w => ListNamespaces B w).

End Monad.

Arguments ret {B A} a.
Arguments bind {B A C} m k.
Arguments exit {B A} code.
Arguments emit {B} e.
Arguments ask {B A} f.
Arguments call {B A} e f.
Arguments Getenv {B} key.
Arguments sleep {B} d.
Arguments httpPost {B} url values.
Arguments secretsGet {B} ns name.
Arguments secretsCreate {B} ns s.
Arguments secretsUpdate {B} ns s.
Arguments secretsPatch {B} ns name patch.
Arguments namespacesList {B}.

(** The three components of a run. *)
Definition outcome {A W : Type} (r : Outcome A * W * list Event) : Outcome A := fst (fst r).
Definition final {A W : Type} (r : Outcome A * W * list Event) : W := snd (fst r).
Definition events {A W : Type} (r : Outcome A * W * list Event) : list Event := snd r.

End Sys.

Declare Scope go_scope.
Delimit Scope go_scope with go.
Notation "x <- m ;; k" := (Sys.bind m (fun x => k))
  (at level 100, m at next level, right associativity) : go_scope.
Notation "m ;;; k" := (Sys.bind m (fun _ => k))
  (at level 100, right associativity) : go_scope.

Local Open Scope go_scope.

(** ** Decoding a token response *)

Module TokenJson.

Import GoStrings GoError Json.

(** The error of [Decoder.Decode] on a text that is not JSON (or that ends
    early), and of a JSON value that does not fit its Go type.  The texts of
    these library errors are not modelled. *)
Definition SyntaxError : error := errorString "json: invalid input".
Definition UnmarshalTypeError : error := errorString "json: cannot unmarshal value into Go type".

(** A JSON value stored into a [string] field: a string is stored, [null]
    leaves the field as it is, any other value is an error and leaves the
    field as it is. *)
Definition storeString (v : JSON) (old : string) : string * bool :=
  match v with
  | JString s => (s, false)
  | JNull => (old, false)
  | _ => (old, true)
  end.

Fixpoint decimal (s : string) (acc : Z) : option Z :=
  match s with
  | EmptyString => Some acc
  | String a r =>
      if isDigit a then decimal r (acc * 10 + Z.of_N (byte a - 48)) else None
  end.

(** [strconv.ParseInt(lit, 10, 64)] on a JSON number literal. *)
Definition parseInt64 (lit : string) : option Z :=
  let r :=
    match lit with
    | String "-" d => if isEmpty d then None else option_map Z.opp (decimal d 0)
    | EmptyString => None
    | _ => decimal lit 0
    end in
  match r with
  | Some z => if Z.leb (- 2 ^ 63) z && Z.ltb z (2 ^ 63) then Some z else None
  | None => None
  end.

(** A JSON value stored into an [int] field. *)
Definition storeInt (v : JSON) (old : Z) : Z * bool :=
  match v with
  | JNumber lit =>
      match parseInt64 lit with
      | Some z => (z, false)
      | None => (old, true)
      end
  | JNull => (old, false)
  | _ => (old, true)
  end.

End TokenJson.

(** ** The single-namespace program ([src/main.go], first file) *)

Module Simple.

Import GoStrings GoError Json K8s Sys TokenJson.

Record TokenResponse := mkTokenResponse { AccessToken : string }.

(** The members of an object stored into a [TokenResponse], in the order of
    the text; the flag tells that some value did not fit its field. *)
Fixpoint fill (m : list (string * JSON)) (t : TokenResponse) : TokenResponse * bool :=
  match m with
  | [] => (t, false)
  | (k, v) :: r =>
      if matchesField k "access_token" then
        let '(s, bad) := storeString v (AccessToken t) in
        let '(t', bad') := fill r (mkTokenResponse s) in
        (t', bad || bad')
      else fill r t
  end.

(** [json.NewDecoder(body).Decode(&tokenResp)] *)
Definition Decode (body : string) (t : TokenResponse) : TokenResponse * option error :=
  match readValue body with
  | None => (t, Some SyntaxError)
  | Some JNull => (t, None)
  | Some (JObject m) =>
      let '(t', bad) := fill m t in
      (t', if bad then Some UnmarshalTypeError else None)
  | Some _ => (t, Some UnmarshalTypeError)
  end.

Section Program.

Variable B : Backend.

Definition readFile (path : string) : M B string :=
  r <- ask (fun w => ReadFile B w path) ;;
  match r with
  | inl _ => ret EmptyString
  | inr data => ret (TrimSpace data)
  end.

Definition getOIDCToken : M B (string * option error) :=
  client_id <- Getenv "CLIENT_ID" ;;
  secret_file <- Getenv "CLIENT_SECRET_FILE" ;;
  client_secret <- readFile secret_file ;;
  let values :=
    [("client_id", client_id); ("client_secret", client_secret);
     ("grant_type", "client_credentials")] in
  scope <- Getenv "SCOPE" ;;
  let values := if isEmpty scope then values else (values ++ [("scope", scope)])%list in
  url <- Getenv "TOKEN_ENDPOINT_URL" ;;
  r <- httpPost url values ;;
  match r with
  | inl err => ret (EmptyString, Some (Errorf_w "token request failed: " err))
  | inr resp =>
      if negb (Z.eqb (StatusCode resp) 200) then
        ret (EmptyString,
             Some (errorString ("token endpoint returned " ++ Itoa (StatusCode resp)
                                ++ ": " ++ Content resp)))
      else
        let '(tokenResp, derr) := Decode (Content resp) (mkTokenResponse EmptyString) in
        match derr with
        | Some err => ret (EmptyString, Some (Errorf_w "failed to decode token response: " err))
        | None =>
            if isEmpty (AccessToken tokenResp) then
              ret (EmptyString, Some (errorString "empty access token in response"))
            else ret (AccessToken tokenResp, None)
        end
  end.

(** [getCurrentNamespace]: the namespace file of the service account as it
    is, then [POD_NAMESPACE], then the namespace default. *)
Definition getCurrentNamespace : M B (string * option error) :=
  r <- ask (fun w => ReadFile B w "/var/run/secrets/kubernetes.io/serviceaccount/namespace") ;;
  match r with
  | inr ns => ret (ns, None)
  | inl _ =>
      ns <- Getenv "POD_NAMESPACE" ;;
      if negb (isEmpty ns) then ret (ns, None) else ret ("default", None)
  end.

Definition validateEnv : M B (option error) :=
  url <- Getenv "TOKEN_ENDPOINT_URL" ;;
  let missing := if isEmpty url then ["TOKEN_ENDPOINT_URL"] else [] in
  id <- Getenv "CLIENT_ID" ;;
  let missing := if isEmpty id then (missing ++ ["CLIENT_ID"])%list else missing in
  secretFile <- Getenv "CLIENT_SECRET_FILE" ;;
  let finish (missing : list string) : M B (option error) :=
    if Nat.ltb 0 (length missing) then
      ret (Some (errorString ("missing required environment variables: " ++ Join missing ", ")))
    else ret None in
  if isEmpty secretFile then finish (missing ++ ["CLIENT_SECRET_FILE"])%list
  else
    gone <- ask (fun w => NotExist B w secretFile) ;;
    if gone then
      ret (Some (errorString ("CLIENT_SECRET_FILE does not exist at " ++ secretFile)))
    else finish missing.

Definition getK8sConfig : M B (option error) :=
  c <- ask (InClusterConfig B) ;;
  match c with
  | None => ret None
  | Some _ =>
      home <- Getenv "HOME" ;;
      ask (fun w => BuildConfigFromFlags B w (GoPath.Join [home; ".kube"; "config"]))
  end.

(** The Secret that [createOrUpdateSecret] writes. *)
Definition tokenSecret (token : string) : Secret :=
  {| Name := "oidc-jwt";
     Namespace := EmptyString;
     Labels := ∅;
     SecretType := SecretTypeOpaque;
     Data := ∅;
     StringData := {[ "token" := token ]} |}.

Definition createOrUpdateSecret (token namespace : string) : M B (option error) :=
  c <- getK8sConfig ;;
  match c with
  | Some err => ret (Some (Errorf_w "failed to get Kubernetes config: " err))
  | None =>
      k <- ask (NewForConfig B) ;;
      match k with
      | Some err => ret (Some (Errorf_w "failed to create Kubernetes client: " err))
      | None =>
          let secret := tokenSecret token in
          r <- secretsGet namespace "oidc-jwt" ;;
          match r with
          | inr _ =>
              u <- secretsUpdate namespace secret ;;
              match u with
              | Some err => ret (Some (Errorf_w "failed to update secret: " err))
              | None => ret None
              end
          | inl err =>
              if IsNotFound err then
                c <- secretsCreate namespace secret ;;
                match c with
                | Some err => ret (Some (Errorf_w "failed to create secret: " err))
                | None => ret None
                end
              else ret (Some (Errorf_w "failed to check secret existence: " err))
          end
      end
  end.

(** [main]: every failure is printed and ends the process with code 1. *)
Definition main : M B unit :=
  v <- validateEnv ;;
  match v with
  | Some _ => exit 1
  | None =>
      t <- getOIDCToken ;;
      match t with
      | (_, Some _) => exit 1
      | (token, None) =>
          n <- getCurrentNamespace ;;
          match n with
          | (_, Some _) => exit 1
          | (namespace, None) =>
              e <- createOrUpdateSecret token namespace ;;
              match e with
              | Some _ => exit 1
              | None => ret tt
              end
          end
      end
  end.

End Program.

End Simple.

(** ** The cluster-wide program with retries ([src/unnamed/part_003], first file) *)

Module SecretManager.

Import GoStrings GoError Json K8s Sys TokenJson.

(** [time.Second], in nanoseconds ([time.Duration] is an int64 count of
    nanoseconds). *)
Definition Second : Z := 1000000000.

Definition httpTimeout : Z := 15 * Second.
Definition k8sOperationTimeout : Z := 10 * Second.
Definition maxRetries : Z := 3.
Definition baseRetryDelay : Z := 2 * Second.
Definition secretName : string := "oidc-jwt".
Definition appName : string := "oidc-secret-manager".

Record TokenResponse := mkTokenResponse { AccessToken : string }.

Fixpoint fill (m : list (string * JSON)) (t : TokenResponse) : TokenResponse * bool :=
  match m with
  | [] => (t, false)
  | (k, v) :: r =>
      if matchesField k "access_token" then
        let '(s, bad) := storeString v (AccessToken t) in
        let '(t', bad') := fill r (mkTokenResponse s) in
        (t', bad || bad')
      else fill r t
  end.

(** [json.NewDecoder(resp.Body).Decode(&tokenResp)] *)
Definition Decode (body : string) (t : TokenResponse) : TokenResponse * option error :=
  match readValue body with
  | None => (t, Some SyntaxError)
  | Some JNull => (t, None)
  | Some (JObject m) =>
      let '(t', bad) := fill m t in
      (t', if bad then Some UnmarshalTypeError else None)
  | Some _ => (t, Some UnmarshalTypeError)
  end.

(** A response as the program holds it: the reply of the endpoint and
    whether its body has been closed. *)
Record Response := mkResponse {
  reply : Reply;
  closed : bool
}.

(** [readResponseBody(resp.Body)]: the whole body, which is then closed; a
    body that is already closed gives an error and no text. *)
Definition readResponseBody (resp : Response) : (string * option error) * Response :=
  if closed resp then
    ((EmptyString,
      Some (Errorf_w "failed to read response body: "
              (errorString "http: read on closed response body"))),
     resp)
  else ((Content (reply resp), None), mkResponse (reply resp) true).

(** [fmt.Errorf(prefix + "%w", err)] when [err] may be nil. *)
Definition Errorf_w_nil (prefix : string) (err : option error) : error :=
  match err with
  | Some e => Errorf_w prefix e
  | None => errorString (prefix ++ "%!w(<nil>)")
  end.

Section Program.

Variable B : Backend.

Definition readFile (path : string) : M B (string * option error) :=
  r <- ask (fun w => ReadFile B w path) ;;
  match r with
  | inl err => ret (EmptyString, Some (Errorf_w "failed to read file: " err))
  | inr data => ret (TrimSpace data, None)
  end.

(** The loop of [getOIDCToken]: [n] iterations are left, [i] is the loop
    variable, [resp] and [lastError] the variables of the same names.  The
    loop ends by [break] on a response with status 200. *)
Fixpoint tokenLoop (n : nat) (i : Z) (values : list (string * string))
    (resp : option Response) (lastError : option error)
  : M B (option Response * option error) :=
  match n with
  | O => ret (resp, lastError)
  | S n' =>
      url <- Getenv "TOKEN_ENDPOINT_URL" ;;
      r <- httpPost url values ;;
      match r with
      | inr rep =>
          if Z.eqb (StatusCode rep) 200 then ret (Some (mkResponse rep false), None)
          else
            (* the body is read for the log, then closed *)
            let '(_, resp') := readResponseBody (mkResponse rep false) in
            (if Z.ltb i (maxRetries - 1) then sleep ((i + 1) * baseRetryDelay) else ret tt) ;;;
            tokenLoop n' (i + 1) values (Some resp') None
      | inl err =>
          (if Z.ltb i (maxRetries - 1) then sleep ((i + 1) * baseRetryDelay) else ret tt) ;;;
          tokenLoop n' (i + 1) values None (Some err)
      end
  end.

Definition getOIDCToken : M B (string * option error) :=
  secret_file <- Getenv "CLIENT_SECRET_FILE" ;;
  rf <- readFile secret_file ;;
  match rf with
  | (_, Some err) => ret (EmptyString, Some (Errorf_w "failed to read client secret: " err))
  | (clientSecret, None) =>
      client_id <- Getenv "CLIENT_ID" ;;
      let values :=
        [("client_id", client_id); ("client_secret", clientSecret);
         ("grant_type", "client_credentials")] in
      scope <- Getenv "SCOPE" ;;
      let values := if isEmpty scope then values else (values ++ [("scope", scope)])%list in
      rl <- tokenLoop (Z.to_nat maxRetries) 0 values None None ;;
      match rl with
      | (_, Some lastError) =>
          ret (EmptyString,
               Some (Errorf_w ("token request failed after " ++ Itoa maxRetries ++ " attempts: ")
                       lastError))
      | (None, None) =>
          (* no iteration ran: resp is nil and resp.Body panics *)
          exit 2
      | (Some resp, None) =>
          if negb (Z.eqb (StatusCode (reply resp)) 200) then
            let '((body, _), _) := readResponseBody resp in
            ret (EmptyString,
                 Some (errorString ("token endpoint returned " ++ Itoa (StatusCode (reply resp))
                                    ++ ": " ++ body)))
          else
            let '(tokenResp, derr) := Decode (Content (reply resp)) (mkTokenResponse EmptyString) in
            match derr with
            | Some err =>
                ret (EmptyString, Some (Errorf_w "failed to decode token response: " err))
            | None =>
                if isEmpty (AccessToken tokenResp) then
                  ret (EmptyString, Some (errorString "empty access token in response"))
                else ret (AccessToken tokenResp, None)
            end
      end
  end.

(** The loop of [withRetries]: [n] iterations are left, [i] is the loop
    variable.  The loop ends by [return nil] when [fn] succeeds; after the
    last iteration the last error is wrapped. *)
Fixpoint retryLoop (n : nat) (i : Z) (fn : M B (option error)) (lastError : option error)
  : M B (option error) :=
  match n with
  | O =>
      ret (Some (Errorf_w_nil ("failed after " ++ Itoa maxRetries ++ " attempts: ") lastError))
  | S n' =>
      e <- fn ;;
      match e with
      | None => ret None
      | Some err =>
          (if Z.ltb i (maxRetries - 1) then sleep ((i + 1) * baseRetryDelay) else ret tt) ;;;
          retryLoop n' (i + 1) fn (Some err)
      end
  end.

Definition withRetries (fn : M B (option error)) : M B (option error) :=
  retryLoop (Z.to_nat maxRetries) 0 fn None.

(** The Secret that [manageNamespaceSecret] builds. *)
Definition desiredSecret (token : string) : Secret :=
  {| Name := secretName;
     Namespace := EmptyString;
     Labels := {[ "app.kubernetes.io/managed-by" := appName;
                  "app.kubernetes.io/created-by" := appName ]};
     SecretType := SecretTypeOpaque;
     Data := ∅;
     StringData := {[ "token" := token ]} |}.

Definition manageNamespaceSecret (token namespace : string) : M B (option error) :=
  let secret := desiredSecret token in
  r <- secretsGet namespace secretName ;;
  match r with
  | inl err =>
      if IsNotFound err then secretsCreate namespace secret
      else ret (Some err)
  | inr existing =>
      if String.eqb (index (StringData existing) "token") token then ret None
      else secretsUpdate namespace secret
  end.

Definition getK8sConfig : M B (option error) :=
  c <- ask (InClusterConfig B) ;;
  match c with
  | None => ret None
  | Some _ =>
      home <- Getenv "HOME" ;;
      ask (fun w => BuildConfigFromFlags B w (GoPath.Join [home; ".kube"; "config"]))
  end.

Definition listNamespaces : M B (error + list string) :=
  r <- namespacesList ;;
  match r with
  | inl err => ret (inl (Errorf_w "failed to list namespaces: " err))
  | inr names => ret (inr names)
  end.

(** The loop of [manageSecretsClusterWide] over the namespaces, with its
    variables [errorList] and [successCount]. *)
Fixpoint namespaceLoop (token : string) (namespaces : list string)
    (errorList : list error) (successCount : Z) : M B (list error * Z) :=
  match namespaces with
  | [] => ret (errorList, successCount)
  | ns :: rest =>
      e <- withRetries (manageNamespaceSecret token ns) ;;
      match e with
      | Some err =>
          namespaceLoop token rest
            (errorList ++ [Errorf_w ("namespace " ++ ns ++ ": ") err]) successCount
      | None => namespaceLoop token rest errorList (successCount + 1)
      end
  end.

Definition manageSecretsClusterWide (token : string) : M B (option error) :=
  c <- getK8sConfig ;;
  match c with
  | Some err => ret (Some (Errorf_w "failed to get Kubernetes config: " err))
  | None =>
      k <- ask (NewForConfig B) ;;
      match k with
      | Some err => ret (Some (Errorf_w "failed to create Kubernetes client: " err))
      | None =>
          l <- listNamespaces ;;
          match l with
          | inl err => ret (Some (Errorf_w "failed to list namespaces: " err))
          | inr namespaces =>
              r <- namespaceLoop token namespaces [] 0 ;;
              let '(errorList, successCount) := r in
              emit (EvLogCompleted successCount (Z.of_nat (length errorList))
                      (Z.of_nat (length namespaces))) ;;;
              if Z.ltb 0 (Z.of_nat (length errorList)) then
                ret (Some (errorString
                             ("completed with " ++ Itoa (Z.of_nat (length errorList))
                              ++ " errors: " ++ fmtErrors errorList)))
              else ret None
          end
      end
  end.

(** The loop of [validateEnv] over the required variables. *)
Fixpoint missingLoop (required : list string) (missing : list string) : M B (list string) :=
  match required with
  | [] => ret missing
  | env :: rest =>
      v <- Getenv env ;;
      missingLoop rest (if isEmpty v then (missing ++ [env])%list else missing)
  end.

Definition validateEnv : M B (option error) :=
  missing <- missingLoop ["TOKEN_ENDPOINT_URL"; "CLIENT_ID"; "CLIENT_SECRET_FILE"] [] ;;
  secretFile <- Getenv "CLIENT_SECRET_FILE" ;;
  gone <- ask (fun w => negb (isEmpty secretFile) && NotExist B w secretFile) ;;
  if gone then
    ret (Some (errorString ("CLIENT_SECRET_FILE does not exist at " ++ secretFile)))
  else if Nat.ltb 0 (length missing) then
    ret (Some (errorString ("missing required environment variables: " ++ Join missing ", ")))
  else ret None.

Definition run : M B (option error) :=
  v <- validateEnv ;;
  match v with
  | Some err => ret (Some (Errorf_w "environment validation failed: " err))
  | None =>
      t <- getOIDCToken ;;
      match t with
      | (_, Some err) => ret (Some (Errorf_w "failed to retrieve OIDC token: " err))
      | (token, None) =>
          m <- manageSecretsClusterWide token ;;
          match m with
          | Some err => ret (Some (Errorf_w "secret management failed: " err))
          | None => ret None
          end
      end
  end.

Definition main : M B unit :=
  r <- run ;;
  match r with
  | Some _ => exit 1
  | None => ret tt
  end.

End Program.

End SecretManager.

(** ** The cron-job program with target namespaces ([src/unnamed/part_003], second file) *)

Module Fetcher.

Import GoStrings GoError Json K8s Sys TokenJson.

Definition Second : Z := 1000000000.

Definition defaultScopes : string := "openid".
Definition defaultSecretName : string := "oidc-token-secret".
Definition defaultSecretKey : string := "token".
Definition defaultTokenTimeout : Z := 30 * Second.
Definition k8sListNamespaceTimeout : Z := 60 * Second.
Definition k8sSecretOpTimeout : Z := 30 * Second.
Definition TargetNamespacesEnvVar : string := "TARGET_NAMESPACES".

Record OIDCTokenResponse := mkOIDCTokenResponse {
  AccessToken : string;
  ExpiresIn : Z;
  TokenType : string
}.

Fixpoint fill (m : list (string * JSON)) (t : OIDCTokenResponse) : OIDCTokenResponse * bool :=
  match m with
  | [] => (t, false)
  | (k, v) :: r =>
      let '(t1, bad) :=
        if matchesField k "access_token" then
          let '(s, bad) := storeString v (AccessToken t) in
          (mkOIDCTokenResponse s (ExpiresIn t) (TokenType t), bad)
        else if matchesField k "expires_in" then
          let '(z, bad) := storeInt v (ExpiresIn t) in
          (mkOIDCTokenResponse (AccessToken t) z (TokenType t), bad)
        else if matchesField k "token_type" then
          let '(s, bad) := storeString v (TokenType t) in
          (mkOIDCTokenResponse (AccessToken t) (ExpiresIn t) s, bad)
        else (t, false) in
      let '(t', bad') := fill r t1 in
      (t', bad || bad')
  end.

(** [json.NewDecoder(resp.Body).Decode(&tokenResponse)] *)
Definition Decode (body : string) (t : OIDCTokenResponse) : OIDCTokenResponse * option error :=
  match readValue body with
  | None => (t, Some SyntaxError)
  | Some JNull => (t, None)
  | Some (JObject m) =>
      let '(t', bad) := fill m t in
      (t', if bad then Some UnmarshalTypeError else None)
  | Some _ => (t, Some UnmarshalTypeError)
  end.

(** The first loop of [main] over the pieces of [TARGET_NAMESPACES]:
    [namespacesToProcess[i] = strings.TrimSpace(ns)] for the indices from [i]
    on, [n] of them. *)
Fixpoint trimLoop (n : nat) (i : nat) (namespacesToProcess : list string) : list string :=
  match n with
  | O => namespacesToProcess
  | S n' =>
      match namespacesToProcess !! i with
      | Some ns => trimLoop n' (S i) (<[i := TrimSpace ns]> namespacesToProcess)
      | None => namespacesToProcess
      end
  end.

(** The second loop: the entries that are not empty are appended to
    [nonEmptyNamespaces]. *)
Fixpoint nonEmptyLoop (namespacesToProcess : list string) (nonEmptyNamespaces : list string)
  : list string :=
  match namespacesToProcess with
  | [] => nonEmptyNamespaces
  | ns :: rest =>
      nonEmptyLoop rest
        (if isEmpty ns then nonEmptyNamespaces else (nonEmptyNamespaces ++ [ns])%list)
  end.

(** The namespaces of a [TARGET_NAMESPACES] that is set and not empty. *)
Definition explicitNamespaces (targetNamespacesStr : string) : list string :=
  let namespacesToProcess := Split targetNamespacesStr "," in
  let namespacesToProcess :=
    trimLoop (length namespacesToProcess) 0 namespacesToProcess in
  nonEmptyLoop namespacesToProcess [].

(** The body of the merge patch of [createOrUpdateSecret], as the JSON value
    that [json.Marshal] writes and the server reads: an object with the one
    member [data], itself an object with the one member [secretKey], the
    token in base64. *)
Definition patchPayload (secretKey token : string) : JSON :=
  JObject [("data", JObject [(secretKey, JString (Base64.EncodeToString token))])].

(** The Secret that [createOrUpdateSecret] creates. *)
Definition newSecret (namespace secretName secretKey token : string) : Secret :=
  {| Name := secretName;
     Namespace := namespace;
     Labels := ∅;
     SecretType := SecretTypeOpaque;
     Data := {[ secretKey := token ]};
     StringData := ∅ |}.

Section Program.

Variable B : Backend.

(** [log.Fatalf]: the message is logged and the process exits with code 1. *)
Definition Fatalf {A} : M B A := exit 1.

Definition getEnvOrDie (key : string) : M B string :=
  value <- Getenv key ;;
  if isEmpty value then Fatalf else ret value.

Definition getEnv (key defaultValue : string) : M B string :=
  v <- ask (fun w => LookupEnv B w key) ;;
  match v with
  | None => ret defaultValue
  | Some value => ret value
  end.

Definition fetchOIDCToken (tokenURL clientID clientSecret scopes : string)
  : M B (string * option error) :=
  let data :=
    [("grant_type", "client_credentials"); ("client_id", clientID);
     ("client_secret", clientSecret); ("scope", scopes)] in
  rq <- ask (fun w => NewRequest B w tokenURL) ;;
  match rq with
  | Some err => ret (EmptyString, Some (Errorf_w "failed to create request: " err))
  | None =>
      r <- httpPost tokenURL data ;;
      match r with
      | inl err => ret (EmptyString, Some (Errorf_w "failed to send request: " err))
      | inr resp =>
          (* the deferred function: an error of Close replaces a nil error *)
          let deferred (res : string * option error) : string * option error :=
            match CloseErr resp, res with
            | Some closeErr, (accessToken, None) =>
                (accessToken, Some (Errorf_w "failed to close response body: " closeErr))
            | _, _ => res
            end in
          if negb (Z.eqb (StatusCode resp) 200) then
            ret (deferred
                   (EmptyString,
                    Some (errorString ("failed to fetch token, status code: "
                                       ++ Itoa (StatusCode resp)))))
          else
            let '(tokenResponse, derr) :=
              Decode (Content resp) (mkOIDCTokenResponse EmptyString 0 EmptyString) in
            match derr with
            | Some err =>
                ret (deferred
                       (EmptyString, Some (Errorf_w "failed to decode token response: " err)))
            | None =>
                if isEmpty (AccessToken tokenResponse) then
                  ret (deferred
                         (EmptyString, Some (errorString "access token not found in response")))
                else ret (deferred (AccessToken tokenResponse, None))
            end
      end
  end.

Definition getKubeClient : M B (option error) :=
  c <- ask (InClusterConfig B) ;;
  match c with
  | Some err =>
      ret (Some (wrapError
                   ("failed to get in-cluster config: " ++ Error err
                    ++ ". For local dev, ensure KUBECONFIG is set or run within a cluster")
                   err))
  | None =>
      k <- ask (NewForConfig B) ;;
      match k with
      | Some err => ret (Some (Errorf_w "failed to create kubernetes clientset: " err))
      | None => ret None
      end
  end.

Definition listNamespaces : M B (error + list string) :=
  r <- namespacesList ;;
  match r with
  | inl err => ret (inl (Errorf_w "failed to list namespaces: " err))
  | inr names => ret (inr names)
  end.

Definition createOrUpdateSecret (namespace secretName secretKey token : string)
  : M B (option error) :=
  r <- secretsGet namespace secretName ;;
  match r with
  | inl err =>
      if Contains (Error err) "not found" then
        c <- secretsCreate namespace (newSecret namespace secretName secretKey token) ;;
        match c with
        | Some createErr =>
            ret (Some (Errorf_w ("failed to create secret '" ++ secretName ++ "' in namespace '"
                                 ++ namespace ++ "': ") createErr))
        | None => ret None
        end
      else
        ret (Some (Errorf_w ("failed to get secret '" ++ secretName ++ "' in namespace '"
                             ++ namespace ++ "': ") err))
  | inr _ =>
      p <- secretsPatch namespace secretName (patchPayload secretKey token) ;;
      match p with
      | Some patchErr =>
          ret (Some (Errorf_w ("failed to patch secret '" ++ secretName ++ "' in namespace '"
                               ++ namespace ++ "': ") patchErr))
      | None => ret None
      end
  end.

(** [ctx.Err()] as an error value. *)
Definition ctxErrValue (c : option CtxErr) : option error :=
  option_map contextError c.

Fixpoint processSecretsInNamespaces (namespaces : list string)
    (secretName secretKey accessToken : string) : M B (option error) :=
  match namespaces with
  | [] => ret None
  | ns :: rest =>
      done <- ask (ContextErr B) ;;
      match done with
      | Some c => ret (Some (contextError c))
      | None =>
          err <- createOrUpdateSecret ns secretName secretKey accessToken ;;
          match err with
          | Some _ =>
              opErr <- ask (OpContextErr B) ;;
              match opErr with
              | Some DeadlineExceeded => Fatalf
              | _ =>
                  c <- ask (ContextErr B) ;;
                  match c with
                  | Some Canceled => ret (Some (contextError Canceled))
                  | _ => Fatalf
                  end
              end
          | None => processSecretsInNamespaces rest secretName secretKey accessToken
          end
      end
  end.

(** The part of [main] that fills [namespacesToProcess]; [None] when [main]
    returns there (the listing was interrupted by the shutdown signal). *)
Definition resolveNamespaces : M B (option (list string)) :=
  targetNamespacesStr <- Getenv TargetNamespacesEnvVar ;;
  if negb (isEmpty targetNamespacesStr) then
    ret (Some (explicitNamespaces targetNamespacesStr))
  else
    l <- listNamespaces ;;
    match l with
    | inl listErr =>
        opErr <- ask (OpContextErr B) ;;
        match opErr with
        | Some DeadlineExceeded => Fatalf
        | _ =>
            c <- ask (ContextErr B) ;;
            match c with
            | Some Canceled => ret None
            | _ => Fatalf
            end
        end
    | inr namespacesFromCluster => ret (Some namespacesFromCluster)
    end.

Definition main : M B unit :=
  tokenURL <- getEnvOrDie "OIDC_TOKEN_URL" ;;
  clientID <- getEnvOrDie "OIDC_CLIENT_ID" ;;
  clientSecret <- getEnvOrDie "OIDC_CLIENT_SECRET" ;;
  scopes <- getEnv "OIDC_SCOPES" defaultScopes ;;
  k8sSecretName <- getEnv "K8S_SECRET_NAME" defaultSecretName ;;
  k8sSecretKey <- getEnv "K8S_SECRET_KEY" defaultSecretKey ;;
  t <- fetchOIDCToken tokenURL clientID clientSecret scopes ;;
  match t with
  | (_, Some _) => Fatalf
  | (accessToken, None) =>
      k <- getKubeClient ;;
      match k with
      | Some _ => Fatalf
      | None =>
          r <- resolveNamespaces ;;
          match r with
          | None => ret tt
          | Some namespacesToProcess =>
              if Nat.eqb (length namespacesToProcess) 0 then ret tt
              else
                processSecretsInNamespaces namespacesToProcess
                  k8sSecretName k8sSecretKey accessToken ;;;
                ret tt
          end
      end
  end.

End Program.

End Fetcher.

(** ** An in-memory world *)

Module Mem.

Import GoStrings GoError Json K8s Sys.

(** Why the secret operations of a namespace fail: the service account is
    not allowed there, or the operation exceeds its deadline. *)
Inductive Fault := Forbidden | TimesOut.

Record World := mkWorld {
  env : gmap string string;
  files : gmap string string;
  (* the replies of the token endpoint to the next requests, and its reply
     once these are used up *)
  script : list (error + Reply);
  fallback : error + Reply;
  inCluster : bool;
  namespaces : list string;
  listFault : option Fault;
  faults : gmap string Fault;
  (* an API server folds stringData into data and never returns it; the
     object tracker of client-go's fake clientset keeps objects as written *)
  writeOnlyStringData : bool;
  secrets : gmap (string * string) JSON;
  cancelled : bool;
  lastOp : option CtxErr
}.

Definition setCluster (w : World) (s : gmap (string * string) JSON) (op : option CtxErr) : World :=
  mkWorld (env w) (files w) (script w) (fallback w) (inCluster w) (namespaces w)
    (listFault w) (faults w) (writeOnlyStringData w) s (cancelled w) op.

Definition setScript (w : World) (l : list (error + Reply)) : World :=
  mkWorld (env w) (files w) l (fallback w) (inCluster w) (namespaces w)
    (listFault w) (faults w) (writeOnlyStringData w) (secrets w) (cancelled w) (lastOp w).

Definition post (w : World) : (error + Reply) * World :=
  match script w with
  | [] => (fallback w, w)
  | r :: rest => (r, setScript w rest)
  end.

Definition faultError (f : Fault) (what : string) : error :=
  match f with
  | Forbidden => statusError ReasonForbidden (what ++ " is forbidden")
  | TimesOut => wrapError (what ++ ": context deadline exceeded") (contextError DeadlineExceeded)
  end.

Definition faultCtx (f : Fault) : option CtxErr :=
  match f with
  | Forbidden => None
  | TimesOut => Some DeadlineExceeded
  end.

Definition notFound (what name : string) : error :=
  statusError ReasonNotFound (what ++ " " ++ quoted name ++ " not found").

Definition strings (j : option JSON) : list (string * string) :=
  omap (fun kv : string * JSON =>
          match snd kv with
          | JString s => Some (fst kv, s)
          | _ => None
          end) (members (default JNull j)).

Definition str (j : option JSON) : string :=
  match j with
  | Some (JString s) => s
  | _ => EmptyString
  end.

(** The Secret that the client decodes from a stored document. *)
Definition ofJSON (doc : JSON) : option Secret :=
  let meta := default JNull (field "metadata" doc) in
  let data := strings (field "data" doc) in
  match mapM (fun kv : string * string =>
                option_map (pair (fst kv)) (Base64.DecodeString (snd kv))) data with
  | None => None
  | Some decoded =>
      Some {| Name := str (field "name" meta);
              Namespace := str (field "namespace" meta);
              Labels := list_to_map (reverse (strings (field "labels" meta)));
              SecretType := str (field "type" doc);
              Data := list_to_map (reverse decoded);
              StringData := list_to_map (reverse (strings (field "stringData" doc))) |}
  end.

(** The document stored for a written Secret. *)
Definition stored (w : World) (ns : string) (s : Secret) : JSON :=
  if writeOnlyStringData w then
    toJSON (mkSecret (Name s) ns (Labels s) (SecretType s) (StringData s ∪ Data s) ∅)
  else toJSON (mkSecret (Name s) ns (Labels s) (SecretType s) (Data s) (StringData s)).

Definition getSecret (w : World) (ns name : string) : (error + Secret) * World :=
  match faults w !! ns with
  | Some f => (inl (faultError f ("secrets " ++ quoted name)), setCluster w (secrets w) (faultCtx f))
  | None =>
      match secrets w !! (ns, name) with
      | None => (inl (notFound "secrets" name), setCluster w (secrets w) None)
      | Some doc =>
          match ofJSON doc with
          | Some s => (inr s, setCluster w (secrets w) None)
          | None => (inl (errorString "illegal base64 data"), setCluster w (secrets w) None)
          end
      end
  end.

Definition createSecret (w : World) (ns : string) (s : Secret) : option error * World :=
  match faults w !! ns with
  | Some f => (Some (faultError f "secrets"), setCluster w (secrets w) (faultCtx f))
  | None =>
      if negb (bool_decide (ns ∈ namespaces w)) then
        (Some (notFound "namespaces" ns), setCluster w (secrets w) None)
      else if negb (isEmpty (Namespace s)) && negb (String.eqb (Namespace s) ns) then
        (Some (errorString "the namespace of the provided object does not match the namespace sent on the request"),
         setCluster w (secrets w) None)
      else
        match secrets w !! (ns, Name s) with
        | Some _ =>
            (Some (statusError ReasonAlreadyExists ("secrets " ++ quoted (Name s) ++ " already exists")),
             setCluster w (secrets w) None)
        | None => (None, setCluster w (<[(ns, Name s) := stored w ns s]> (secrets w)) None)
        end
  end.

Definition updateSecret (w : World) (ns : string) (s : Secret) : option error * World :=
  match faults w !! ns with
  | Some f =>
      (Some (faultError f ("secrets " ++ quoted (Name s))), setCluster w (secrets w) (faultCtx f))
  | None =>
      match secrets w !! (ns, Name s) with
      | None => (Some (notFound "secrets" (Name s)), setCluster w (secrets w) None)
      | Some _ => (None, setCluster w (<[(ns, Name s) := stored w ns s]> (secrets w)) None)
      end
  end.

Definition patchSecret (w : World) (ns name : string) (patch : JSON) : option error * World :=
  match faults w !! ns with
  | Some f =>
      (Some (faultError f ("secrets " ++ quoted name)), setCluster w (secrets w) (faultCtx f))
  | None =>
      match secrets w !! (ns, name) with
      | None => (Some (notFound "secrets" name), setCluster w (secrets w) None)
      | Some doc => (None, setCluster w (<[(ns, name) := MergePatch doc patch]> (secrets w)) None)
      end
  end.

Definition listNamespaces (w : World) : (error + list string) * World :=
  match listFault w with
  | Some f => (inl (faultError f "namespaces"), setCluster w (secrets w) (faultCtx f))
  | None => (inr (namespaces w), setCluster w (secrets w) None)
  end.

Definition backend : Backend :=
  {| Sys.World := World;
     LookupEnv := fun w key => env w !! key;
     ReadFile := fun w path =>
       match files w !! path with
       | Some data => inr data
       | None => inl (errorString ("open " ++ path ++ ": no such file or directory"))
       end;
     NotExist := fun w path => bool_decide (files w !! path = None);
     NewRequest := fun _ _ => None;
     Post := fun w _ _ => post w;
     Sleep := fun w _ => w;
     InClusterConfig := fun w =>
       if inCluster w then None
       else Some (errorString "unable to load in-cluster configuration");
     BuildConfigFromFlags := fun w path =>
       if bool_decide (is_Some (files w !! path)) then None
       else Some (errorString ("stat " ++ path ++ ": no such file or directory"));
     NewForConfig := fun _ => None;
     ListNamespaces := listNamespaces;
     GetSecret := getSecret;
     CreateSecret := createSecret;
     UpdateSecret := updateSecret;
     PatchSecret := patchSecret;
     ContextErr := fun w => if cancelled w then Some Canceled else None;
     OpContextErr := lastOp |}.

End Mem.

(** ** Notions used to state the properties *)

Module Spec.

Import GoStrings GoError Json K8s Sys.

Fixpoint hasByte (c : ascii) (s : string) : bool :=
  match s with
  | EmptyString => false
  | String a r => Ascii.eqb a c || hasByte c r
  end.

(** The events of successive attempts numbered from [i], each attempt given
    by its own events: after every attempt but the last comes a delay of
    its number times the base delay. *)
Fixpoint schedule (i : Z) (attempts : list (list Event)) : list Event :=
  match attempts with
  | [] => []
  | [a] => a
  | a :: rest => a ++ EvSleep (i * SecretManager.baseRetryDelay) :: schedule (i + 1) rest
  end.

(** An attempt on the token endpoint that the loop of [getOIDCToken] counts
    as failed: a transport error, or a status other than 200. *)
Definition failedPost (e : Event) : bool :=
  match e with
  | EvPost _ _ (inl _) => true
  | EvPost _ _ (inr rep) => negb (Z.eqb (StatusCode rep) 200)
  | _ => false
  end.

(** No request of the run was answered with status 200. *)
Definition attemptFailed (e : Event) : bool := negb (isPost e) || failedPost e.

(** The variables [resp] and [lastError] of [getOIDCToken] after an
    attempt; the body of a response with another status than 200 has been
    read and closed. *)
Definition afterPost (e : Event) : option SecretManager.Response * option error :=
  match e with
  | EvPost _ _ (inl err) => (None, Some err)
  | EvPost _ _ (inr rep) =>
      (Some (SecretManager.mkResponse rep (negb (Z.eqb (StatusCode rep) 200))), None)
  | _ => (None, None)
  end.

(** What [getOIDCToken] returns after the loop, from its last attempt. *)
Definition tokenResult (p : Event) : string * option error :=
  match p with
  | EvPost _ _ (inl err) =>
      (EmptyString,
       Some (Errorf_w ("token request failed after " ++ Itoa SecretManager.maxRetries
                       ++ " attempts: ") err))
  | EvPost _ _ (inr rep) =>
      if negb (Z.eqb (StatusCode rep) 200) then
        (EmptyString,
         Some (errorString ("token endpoint returned " ++ Itoa (StatusCode rep) ++ ": ")))
      else
        match SecretManager.Decode (Content rep) (SecretManager.mkTokenResponse EmptyString) with
        | (_, Some err) => (EmptyString, Some (Errorf_w "failed to decode token response: " err))
        | (tokenResp, None) =>
            if isEmpty (SecretManager.AccessToken tokenResp) then
              (EmptyString, Some (errorString "empty access token in response"))
            else (SecretManager.AccessToken tokenResp, None)
        end
  | _ => (EmptyString, None)
  end.

(** An answer of the token endpoint that ends the loop of [getOIDCToken]: a
    response with status 200. *)
Definition accepted (r : error + Reply) : bool :=
  match r with
  | inr rep => Z.eqb (StatusCode rep) 200
  | inl _ => false
  end.

(** A result of a retried function after which [withRetries] goes on: the
    function returned an error. *)
Definition erred (o : Outcome (option error)) : bool :=
  match o with
  | Return (Some _) => true
  | _ => false
  end.

(** What [withRetries] returns after the last attempt it makes. *)
Definition retryResult (o : Outcome (option error)) : Outcome (option error) :=
  match o with
  | Return None => Return None
  | Return (Some err) =>
      Return (Some (Errorf_w ("failed after " ++ Itoa SecretManager.maxRetries ++ " attempts: ") err))
  | Exit code => Exit code
  end.

Section Attempts.

Variable B : Backend.

(** A run of the retried function returned an error. *)
Definition failedRun (r : Outcome (option error) * World B * list Event) : Prop :=
  exists err, outcome r = Return (Some err).

(** The successive runs of [fn] that [withRetries] makes, the first one
    numbered [i] and run from world [w]: a run follows a run that returned an
    error, from the world left by that run and the delay after it. *)
Inductive Attempts (fn : M B (option error))
  : Z -> World B -> list (Outcome (option error) * World B * list Event) -> Prop :=
| attempts_last (i : Z) (w : World B) : Attempts fn i w [fn w]
| attempts_retry (i : Z) (w : World B) rest :
    failedRun (fn w) ->
    Attempts fn (i + 1) (Sleep B (final (fn w)) (i * SecretManager.baseRetryDelay)) rest ->
    Attempts fn i w (fn w :: rest).

End Attempts.

Arguments failedRun {B} r.
Arguments Attempts {B} fn i w l.

(** The [data] member of a stored document. *)
Definition dataOf (doc : JSON) : JSON := default JNull (field "data" doc).

(** The [labels] of the [metadata] of a stored document. *)
Definition labelsOf (doc : JSON) : option JSON :=
  field "labels" (default JNull (field "metadata" doc)).

Section Reconciliation.

Variable B : Backend.

(** The retried reconciliation of each namespace in turn, each from the
    world that the one before it leaves. *)
Fixpoint reconcileEach (token : string) (namespaces : list string) (w : World B)
  : list (string * (Outcome (option error) * World B * list Event)) :=
  match namespaces with
  | [] => []
  | ns :: rest =>
      let r := SecretManager.withRetries B (SecretManager.manageNamespaceSecret B token ns) w in
      (ns, r) :: reconcileEach token rest (final r)
  end.

(** The error that [manageSecretsClusterWide] records for a namespace whose
    reconciliation failed. *)
Definition namespaceError (nr : string * (Outcome (option error) * World B * list Event))
  : option error :=
  match outcome (snd nr) with
  | Return (Some err) => Some (Errorf_w ("namespace " ++ fst nr ++ ": ") err)
  | _ => None
  end.

Definition succeeded (nr : string * (Outcome (option error) * World B * list Event)) : bool :=
  match outcome (snd nr) with
  | Return None => true
  | _ => false
  end.

End Reconciliation.

Arguments reconcileEach {B} token namespaces w.
Arguments namespaceError {B} nr.
Arguments succeeded {B} nr.

(** The value of an environment variable as [os.Getenv] gives it. *)
Definition getenv {B : Backend} (w : World B) (key : string) : string :=
  default EmptyString (LookupEnv B w key).

(** The variables that [validateEnv] requires, in the order it checks
    them. *)
Definition required : list string := ["TOKEN_ENDPOINT_URL"; "CLIENT_ID"; "CLIENT_SECRET_FILE"].

(** The form that [getOIDCToken] posts: the scope is added only when it is
    not empty. *)
Definition credentials (client_id clientSecret scope : string) : list (string * string) :=
  ([("client_id", client_id); ("client_secret", clientSecret);
    ("grant_type", "client_credentials")]
   ++ if isEmpty scope then [] else [("scope", scope)])%list.

(** The form that [fetchOIDCToken] sends. *)
Definition tokenForm (clientID clientSecret scopes : string) : list (string * string) :=
  [("grant_type", "client_credentials"); ("client_id", clientID);
   ("client_secret", clientSecret); ("scope", scopes)].

(** A text of ASCII white space only. *)
Fixpoint allSpace (s : string) : bool :=
  match s with
  | EmptyString => true
  | String a r => asciiSpace a && allSpace r
  end.

(** An ASCII byte that is not white space. *)
Definition graphic (a : ascii) : bool := negb (asciiSpace a) && N.ltb (byte a) 128.

Fixpoint endsGraphic (s : string) : bool :=
  match s with
  | EmptyString => true
  | String a EmptyString => graphic a
  | String _ r => endsGraphic r
  end.

(** A text that is empty, or whose first and last bytes are ASCII bytes
    other than white space. *)
Definition solid (s : string) : bool :=
  match s with
  | EmptyString => true
  | String a _ => graphic a && endsGraphic s
  end.

(** An event of the reconciliation of namespace [ns] with [token]. *)
Definition reconcileEvent (token ns : string) (e : Event) : Prop :=
  e = EvGet ns SecretManager.secretName
  \/ e = EvCreate ns (SecretManager.desiredSecret token)
  \/ e = EvUpdate ns (SecretManager.desiredSecret token)
  \/ isSleep e = true.

(** An event of [createOrUpdateSecret] of the cron-job program on namespace
    [ns]. *)
Definition patchEvent (name key token ns : string) (e : Event) : Prop :=
  e = EvGet ns name
  \/ e = EvCreate ns (Fetcher.newSecret ns name key token)
  \/ e = EvPatch ns name (Fetcher.patchPayload key token).

(** A JSON value that does not fit an [int] field. *)
Definition notAnInteger (v : JSON) : bool :=
  match v with
  | JNull => false
  | JNumber lit => match TokenJson.parseInt64 lit with Some _ => false | None => true end
  | _ => true
  end.

(** The file that holds the namespace of the service account. *)
Definition namespaceFile : string := "/var/run/secrets/kubernetes.io/serviceaccount/namespace".

(** A path element that [filepath.Clean] keeps as it is. *)
Definition plain (e : string) : bool :=
  negb (isEmpty e) && negb (hasByte "/" e) && negb (String.eqb e ".")
  && negb (String.eqb e "..").

(** The absolute path made of the given elements. *)
Fixpoint absolute (elems : list string) : string :=
  match elems with
  | [] => EmptyString
  | e :: rest => "/" ++ e ++ absolute rest
  end.

End Spec.

(** ** Checks on the bytes of a base64 group *)

Module Sextets.

(** The numbers below 256 and below 64. *)
Definition bytes256 : list N := map N.of_nat (seq 0 256).
Definition sextets : list N := map N.of_nat (seq 0 64).

(** The four sextets that [EncodeToString] makes of three bytes. *)
Definition s1 (x : N) : N := N.shiftr x 2.
Definition s2 (x y : N) : N := N.lor (N.land (N.shiftl x 4) 63) (N.shiftr y 4).
Definition s3 (y z : N) : N := N.lor (N.land (N.shiftl y 2) 63) (N.shiftr z 6).
Definition s4 (z : N) : N := N.land z 63.

(** A sextet is decoded from the character that encodes it. *)
Definition okDec (n : N) : bool :=
  match Base64.dec (Base64.enc n) with
  | Some m => N.eqb m n
  | None => false
  end.

(** The first byte comes back from the first two sextets. *)
Definition ok1 (x y : N) : bool :=
  N.ltb (s1 x) 64 && N.ltb (s2 x y) 64
  && N.eqb (N.land (N.lor (N.shiftl (s1 x) 2) (N.shiftr (s2 x y) 4)) 255) x.

(** The second byte comes back from the second and third sextets; the
    second sextet holds the two low bits [p] of the first byte. *)
Definition ok2 (p y z : N) : bool :=
  let e2 := N.lor (N.shiftl p 4) (N.shiftr y 4) in
  N.ltb (s3 y z) 64
  && N.eqb (N.land (N.lor (N.shiftl e2 4) (N.shiftr (s3 y z) 2)) 255) y.

(** The third byte comes back from the third and fourth sextets. *)
Definition ok3 (y z : N) : bool :=
  N.ltb (s4 z) 64
  && N.eqb (N.land (N.lor (N.shiftl (s3 y z) 6) (s4 z)) 255) z.

Definition okLow (x : N) : bool :=
  N.ltb (N.land x 3) 4 && N.eqb (N.land (N.shiftl x 4) 63) (N.shiftl (N.land x 3) 4).

End Sextets.

(** ** Example worlds *)

Module Example.

Import GoStrings GoError Json K8s Sys.

Definition status500 : error + Reply := inr (mkReply 500 "internal error" None).

Definition status200 (body : string) : error + Reply := inr (mkReply 200 body None).

(** A JSON object with one member, a string. *)
Definition object1 (name value : string) : string :=
  "{" ++ quoted name ++ ":" ++ quoted value ++ "}".

(** A cluster with the namespaces a, b and c and no Secret; the service
    account may not touch the Secrets of b.  The token endpoint answers
    every request with status 500. *)
Definition abc : Mem.World :=
  {| Mem.env :=
       list_to_map
         [("TOKEN_ENDPOINT_URL", "https://idp.example/token"); ("CLIENT_ID", "fetcher");
          ("CLIENT_SECRET_FILE", "/etc/oidc/secret");
          ("OIDC_TOKEN_URL", "https://idp.example/token"); ("OIDC_CLIENT_ID", "fetcher");
          ("OIDC_CLIENT_SECRET", "hunter2")];
     Mem.files := {[ "/etc/oidc/secret" := "hunter2" ]};
     Mem.script := [];
     Mem.fallback := status500;
     Mem.inCluster := true;
     Mem.namespaces := ["a"; "b"; "c"];
     Mem.listFault := None;
     Mem.faults := {[ "b" := Mem.Forbidden ]};
     Mem.writeOnlyStringData := true;
     Mem.secrets := ∅;
     Mem.cancelled := false;
     Mem.lastOp := None |}.

(** The same world with the next replies of the token endpoint given. *)
Definition replying (l : list (error + Reply)) : Mem.World := Mem.setScript abc l.

Definition setEnv (w : Mem.World) (key value : string) : Mem.World :=
  Mem.mkWorld (<[key := value]> (Mem.env w)) (Mem.files w) (Mem.script w) (Mem.fallback w)
    (Mem.inCluster w) (Mem.namespaces w) (Mem.listFault w) (Mem.faults w)
    (Mem.writeOnlyStringData w) (Mem.secrets w) (Mem.cancelled w) (Mem.lastOp w).

(** The same world served by the object tracker of a fake clientset, which
    returns Secrets as they were written. *)
Definition tracked (w : Mem.World) : Mem.World :=
  Mem.mkWorld (Mem.env w) (Mem.files w) (Mem.script w) (Mem.fallback w)
    (Mem.inCluster w) (Mem.namespaces w) (Mem.listFault w) (Mem.faults w)
    false (Mem.secrets w) (Mem.cancelled w) (Mem.lastOp w).

(** The same world with a Secret stored in a namespace. *)
Definition withSecret (w : Mem.World) (ns name : string) (doc : JSON) : Mem.World :=
  Mem.setCluster w (<[(ns, name) := doc]> (Mem.secrets w)) (Mem.lastOp w).

(** A Secret that holds an old token next to a certificate, and carries a
    label. *)
Definition labelledDoc : JSON :=
  JObject
    [("metadata",
      JObject [("name", JString "oidc-token-secret"); ("namespace", JString "a");
               ("labels", JObject [("team", JString "payments")])]);
     ("data", JObject [("ca.crt", JString "Y2E="); ("token", JString "b2xk")]);
     ("type", JString "Opaque")].

Definition labelled : Mem.World := withSecret abc "a" "oidc-token-secret" labelledDoc.

(** The same world with [TARGET_NAMESPACES] set. *)
Definition targets (s : string) : Mem.World := setEnv abc "TARGET_NAMESPACES" s.

(** A world whose explicit list holds no namespace, and whose token endpoint
    issues a token. *)
Definition noTargets : Mem.World :=
  Mem.setScript (targets " , ")
    [status200 ("{" ++ quoted "access_token" ++ ":" ++ quoted "abc" ++ ","
                ++ quoted "expires_in" ++ ":300}")].

(** A world whose token endpoint answers 500, then 200 with a body that is
    not JSON. *)
Definition malformed : Mem.World := replying [status500; status200 "<html>"].

(** The form that [getOIDCToken] posts in these worlds. *)
Definition form : list (string * string) :=
  [("client_id", "fetcher"); ("client_secret", "hunter2");
   ("grant_type", "client_credentials")].

(** Two successive runs of [createOrUpdateSecret] of the cron-job program
    in namespace a, with the same token. *)
Definition firstRun : Outcome (option error) * Mem.World * list Event :=
  Fetcher.createOrUpdateSecret Mem.backend "a" Fetcher.defaultSecretName
    Fetcher.defaultSecretKey "t" abc.


(** The cron-job program on namespace a alone, and then on namespace b. *)
Definition onlyA : Outcome (option error) * Mem.World * list Event :=
  Fetcher.processSecretsInNamespaces Mem.backend ["a"] Fetcher.defaultSecretName
    Fetcher.defaultSecretKey "t" abc.

Definition thenB : Outcome (option error) * Mem.World * list Event :=
  Fetcher.createOrUpdateSecret Mem.backend "b" Fetcher.defaultSecretName
    Fetcher.defaultSecretKey "t" (final onlyA).

(** One run of [manageNamespaceSecret] on namespace a, against an object
    tracker and against an API server. *)
Definition trackedOnce : Outcome (option error) * Mem.World * list Event :=
  SecretManager.manageNamespaceSecret Mem.backend "t" "a" (tracked abc).

Definition servedOnce : Outcome (option error) * Mem.World * list Event :=
  SecretManager.manageNamespaceSecret Mem.backend "t" "a" abc.

(** A line feed. *)
Definition newline : string := String (ascii_of_N 10) EmptyString.

(** The same world with a file written. *)
Definition setFile (w : Mem.World) (path data : string) : Mem.World :=
  Mem.mkWorld (Mem.env w) (<[path := data]> (Mem.files w)) (Mem.script w) (Mem.fallback w)
    (Mem.inCluster w) (Mem.namespaces w) (Mem.listFault w) (Mem.faults w)
    (Mem.writeOnlyStringData w) (Mem.secrets w) (Mem.cancelled w) (Mem.lastOp w).

(** A world whose client secret file holds the secret between blanks and a
    line feed, and whose [SCOPE] is set. *)
Definition mounted : Mem.World :=
  setEnv (setFile abc "/etc/oidc/secret" ("  hunter2" ++ newline)) "SCOPE" "openid".

(** A world whose token endpoint issues the token abc. *)
Definition issuing : Mem.World := replying [status200 (object1 "access_token" "abc")].

(** The same world after the shutdown signal. *)
Definition interrupted : Mem.World :=
  Mem.mkWorld (Mem.env abc) (Mem.files abc) (Mem.script abc) (Mem.fallback abc)
    (Mem.inCluster abc) (Mem.namespaces abc) (Mem.listFault abc) (Mem.faults abc)
    (Mem.writeOnlyStringData abc) (Mem.secrets abc) true (Mem.lastOp abc).

(** The cron-job program on the namespaces a and c. *)
Definition bothAC : Outcome (option error) * Mem.World * list Event :=
  Fetcher.processSecretsInNamespaces Mem.backend ["a"; "c"] Fetcher.defaultSecretName
    Fetcher.defaultSecretKey "t" abc.

(** The token request of the cron-job program in the world [issuing]. *)
Definition fetched : Outcome (string * option error) * Mem.World * list Event :=
  Fetcher.fetchOIDCToken Mem.backend "https://idp.example/token" "fetcher" "hunter2" "openid"
    issuing.

End Example.

(** * Properties *)

Import GoStrings GoError Json K8s Sys Spec.
Local Open Scope go_scope.

(** ** Splitting and trimming *)

Lemma Split_nonempty s sep : Split s sep <> [].
Proof.
  destruct s as [|c r]; simpl; [discriminate|].
  destruct (Ascii.eqb c sep); [discriminate|].
  destruct (Split r sep); discriminate.
Qed.

(** Joining the pieces with the separator gives the text back. *)
Lemma Join_Split s sep : Join (Split s sep) (String sep EmptyString) = s.
Proof.
  induction s as [|c r IH]; simpl; [reflexivity|].
  destruct (Ascii.eqb_spec c sep) as [->|Hne].
  - pose proof (Split_nonempty r sep) as Hn.
    destruct (Split r sep) as [|p ps]; [contradiction|].
    simpl in *. rewrite IH. reflexivity.
  - pose proof (Split_nonempty r sep) as Hn.
    destruct (Split r sep) as [|p ps]; [contradiction|].
    destruct ps as [|q qs]; simpl in *; rewrite <- IH; reflexivity.
Qed.

(** No piece holds the separator. *)
Lemma Split_no_sep s sep : Forall (fun p => hasByte sep p = false) (Split s sep).
Proof.
  induction s as [|c r IH]; simpl.
  - repeat constructor.
  - destruct (Ascii.eqb c sep) eqn:E.
    + constructor; [reflexivity | exact IH].
    + destruct (Split r sep) as [|p ps]; [repeat constructor; simpl; rewrite E; reflexivity|].
      inversion IH; subst. constructor; [simpl; rewrite E; assumption | assumption].
Qed.

Lemma trimLoop_app (done rest : list string) :
  Fetcher.trimLoop (length rest) (length done) (done ++ rest)%list
  = (done ++ map TrimSpace rest)%list.
Proof.
  revert done. induction rest as [|ns rest IH]; intros done; simpl.
  - reflexivity.
  - rewrite list_lookup_middle by reflexivity.
    replace (<[length done:=TrimSpace ns]> (done ++ ns :: rest)%list)
      with ((done ++ [TrimSpace ns]) ++ rest)%list.
    + replace (S (length done)) with (length (done ++ [TrimSpace ns])%list)
        by (rewrite length_app; simpl; lia).
      rewrite IH, <- app_assoc. reflexivity.
    + rewrite <- app_assoc. simpl.
      rewrite insert_app_r_alt by lia. rewrite Nat.sub_diag. reflexivity.
Qed.

Lemma trimLoop_map (l : list string) :
  Fetcher.trimLoop (length l) 0 l = map TrimSpace l.
Proof. exact (trimLoop_app [] l). Qed.

Lemma nonEmptyLoop_filter (l acc : list string) :
  Fetcher.nonEmptyLoop l acc = (acc ++ List.filter (fun ns => negb (isEmpty ns)) l)%list.
Proof.
  revert acc. induction l as [|ns l IH]; intros acc; simpl.
  - rewrite app_nil_r. reflexivity.
  - rewrite IH. destruct (isEmpty ns); simpl; [reflexivity|].
    rewrite <- app_assoc. reflexivity.
Qed.

Lemma explicitNamespaces_spec s :
  Fetcher.explicitNamespaces s
  = List.filter (fun ns => negb (isEmpty ns)) (map TrimSpace (Split s ",")).
Proof.
  unfold Fetcher.explicitNamespaces.
  rewrite trimLoop_map, nonEmptyLoop_filter. reflexivity.
Qed.

Lemma isEmpty_false s : s <> EmptyString -> isEmpty s = false.
Proof. destruct s; [contradiction | reflexivity]. Qed.

(** C6.  When [TARGET_NAMESPACES] is set and not empty, the namespaces to
    process are the pieces of its value between commas, each trimmed of white
    space, the empty ones dropped, in their order and with their duplicates;
    the world is left as it was and no event is made, so the cluster lister
    is not called.  The value ns1, ,ns2, gives ns1 and ns2. *)
Theorem explicit_targets_verbatim :
  (forall (B : Backend) (w : World B) (s : string),
      LookupEnv B w Fetcher.TargetNamespacesEnvVar = Some s ->
      s <> EmptyString ->
      Fetcher.resolveNamespaces B w
      = (Return (Some (List.filter (fun ns => negb (isEmpty ns))
                         (map TrimSpace (Split s ",")))), w, []))
  /\ Fetcher.explicitNamespaces "ns1, ,ns2," = ["ns1"; "ns2"].
Proof.
  split; [|reflexivity].
  intros B w s Henv Hs.
  unfold Fetcher.resolveNamespaces, bind, Getenv, ask, ret.
  rewrite Henv. simpl. rewrite (isEmpty_false s Hs). simpl.
  rewrite explicitNamespaces_spec. reflexivity.
Qed.

(** ** Retry schedules *)

Lemma schedule_cons i a rest :
  rest <> [] ->
  schedule i (a :: rest)
  = (a ++ EvSleep (i * SecretManager.baseRetryDelay) :: schedule (i + 1) rest)%list.
Proof. destruct rest; [contradiction | reflexivity]. Qed.

Section TokenLoop.

Variable B : Backend.

Lemma tokenLoop_S (n : nat) (i : Z) values resp lastError :
  SecretManager.tokenLoop B (S n) i values resp lastError
  = (url <- Getenv "TOKEN_ENDPOINT_URL" ;;
     r <- httpPost url values ;;
     match r with
     | inr rep =>
         if Z.eqb (StatusCode rep) 200
         then ret (Some (SecretManager.mkResponse rep false), None)
         else
           let '(_, resp') := SecretManager.readResponseBody (SecretManager.mkResponse rep false) in
           (if Z.ltb i (SecretManager.maxRetries - 1)
            then sleep ((i + 1) * SecretManager.baseRetryDelay) else ret tt) ;;;
           SecretManager.tokenLoop B n (i + 1) values (Some resp') None
     | inl err =>
         (if Z.ltb i (SecretManager.maxRetries - 1)
          then sleep ((i + 1) * SecretManager.baseRetryDelay) else ret tt) ;;;
         SecretManager.tokenLoop B n (i + 1) values None (Some err)
     end)%go.
Proof. reflexivity. Qed.

(** The loop of [getOIDCToken], from any iteration on: the attempts are
    [init], all failed, then [p]; the loop variables end as [p] leaves
    them, and an attempt that failed is the last only when no iteration is
    left. *)
Lemma tokenLoop_spec (n : nat) :
  forall (i : Z) values resp lastError (w : World B),
    i = SecretManager.maxRetries - Z.of_nat (S n) ->
    exists (init : list Event) (p : Event),
      events (SecretManager.tokenLoop B (S n) i values resp lastError w)
      = schedule (i + 1) (map (fun e => [e]) (init ++ [p]))
      /\ Forall (fun e => failedPost e = true) init
      /\ isPost p = true
      /\ (length init <= n)%nat
      /\ outcome (SecretManager.tokenLoop B (S n) i values resp lastError w)
         = Return (afterPost p)
      /\ (failedPost p = true -> length init = n).
Proof.
  induction n as [|n IH]; intros i values resp lastError w Hi;
    destruct (SecretManager.tokenLoop B _ i values resp lastError w) as [[o w'] t] eqn:HR;
    unfold events, outcome; simpl fst; simpl snd;
    rewrite tokenLoop_S in HR;
    unfold bind at 1 in HR; unfold Getenv at 1 in HR; unfold ask at 1 in HR;
    set (url := default EmptyString (LookupEnv B w "TOKEN_ENDPOINT_URL")) in HR;
    unfold bind at 1 in HR; unfold httpPost at 1 in HR;
    destruct (Post B w url values) as [r w1] eqn:HP.
  - (* the last iteration: no delay follows *)
    assert (Hsleep : Z.ltb i (SecretManager.maxRetries - 1) = false)
      by (apply Z.ltb_ge; unfold SecretManager.maxRetries in *; lia).
    exists [], (EvPost url values r).
    destruct r as [err | rep]; [|destruct (Z.eqb (StatusCode rep) 200) eqn:E200];
      unfold bind, ret in HR; rewrite ?Hsleep in HR; simpl in HR;
      injection HR as <- <- <-; simpl; rewrite ?E200; simpl;
      repeat split; auto; discriminate.
  - assert (Hsleep : Z.ltb i (SecretManager.maxRetries - 1) = true)
      by (apply Z.ltb_lt; unfold SecretManager.maxRetries in *; lia).
    assert (Hcons : forall init q,
               schedule (i + 1) (map (fun e => [e]) ((EvPost url values r :: init) ++ [q]))
               = EvPost url values r :: EvSleep ((i + 1) * SecretManager.baseRetryDelay)
                   :: schedule (i + 1 + 1) (map (fun e => [e]) (init ++ [q]))).
    { intros init q. simpl map. rewrite schedule_cons; [reflexivity|].
      destruct init; discriminate. }
    destruct r as [err | rep]; [|destruct (Z.eqb (StatusCode rep) 200) eqn:E200].
    + unfold bind at 1 in HR. rewrite Hsleep in HR. unfold sleep, call in HR.
      destruct (IH (i + 1) values None (Some err)
                  (Sleep B w1 ((i + 1) * SecretManager.baseRetryDelay)))
        as (init & q & Hev & Hinit & Hq & Hlen & Hout & Hlast); [lia|].
      destruct (SecretManager.tokenLoop B (S n) (i + 1) values None (Some err)
                  (Sleep B w1 ((i + 1) * SecretManager.baseRetryDelay))) as [[o2 w2] t2].
      unfold events, outcome in *. simpl in Hev, Hout, HR.
      injection HR as <- <- <-. subst t2 o2.
      exists (EvPost url values (inl err) :: init), q. rewrite Hcons.
      split; [reflexivity|]. split; [constructor; auto|]. split; [assumption|].
      split; [simpl; lia|]. split; [reflexivity|].
      intros H; simpl; rewrite (Hlast H); reflexivity.
    + unfold ret in HR. simpl in HR. injection HR as <- <- <-.
      exists [], (EvPost url values (inr rep)). simpl. rewrite E200. simpl.
      split; [reflexivity|]. split; [constructor|]. split; [reflexivity|].
      split; [lia|]. split; [reflexivity|]. discriminate.
    + unfold SecretManager.readResponseBody at 1 in HR. cbn [SecretManager.closed] in HR.
      cbv iota in HR. cbn beta iota in HR.
      unfold bind at 1 in HR. rewrite Hsleep in HR. unfold sleep, call in HR.
      cbn [SecretManager.reply] in HR.
      destruct (IH (i + 1) values (Some (SecretManager.mkResponse rep true)) None
                  (Sleep B w1 ((i + 1) * SecretManager.baseRetryDelay)))
        as (init & q & Hev & Hinit & Hq & Hlen & Hout & Hlast); [lia|].
      destruct (SecretManager.tokenLoop B (S n) (i + 1) values
                  (Some (SecretManager.mkResponse rep true)) None
                  (Sleep B w1 ((i + 1) * SecretManager.baseRetryDelay))) as [[o2 w2] t2].
      unfold events, outcome in *. simpl in Hev, Hout, HR.
      injection HR as <- <- <-. subst t2 o2.
      exists (EvPost url values (inr rep) :: init), q. rewrite Hcons.
      split; [reflexivity|].
      split; [constructor; auto; simpl; rewrite E200; reflexivity|].
      split; [assumption|]. split; [simpl; lia|]. split; [reflexivity|].
      intros H; simpl; rewrite (Hlast H); reflexivity.
Qed.

End TokenLoop.

Section GetToken.

Variable B : Backend.

(** [getOIDCToken] either stops at a client secret file that cannot be
    read, before any request, or makes at most three attempts on the
    schedule; all attempts but the last failed, an attempt that failed is the
    last only when it is the third, and the result is that of the last
    attempt. *)
Lemma getOIDCToken_spec (w : World B) :
  (exists err,
      ReadFile B w (default EmptyString (LookupEnv B w "CLIENT_SECRET_FILE")) = inl err
      /\ SecretManager.getOIDCToken B w
         = (Return (EmptyString,
                    Some (Errorf_w "failed to read client secret: "
                            (Errorf_w "failed to read file: " err))), w, []))
  \/ (exists data (init : list Event) (p : Event),
         ReadFile B w (default EmptyString (LookupEnv B w "CLIENT_SECRET_FILE")) = inr data
         /\ events (SecretManager.getOIDCToken B w)
            = schedule 1 (map (fun e => [e]) (init ++ [p]))
         /\ Forall (fun e => failedPost e = true) init
         /\ isPost p = true
         /\ (length init <= 2)%nat
         /\ (failedPost p = true -> length init = 2%nat)
         /\ outcome (SecretManager.getOIDCToken B w) = Return (tokenResult p)).
Proof.
  destruct (SecretManager.getOIDCToken B w) as [[o w'] t] eqn:HR.
  unfold SecretManager.getOIDCToken in HR.
  unfold bind at 1 in HR. unfold Getenv at 1, ask at 1 in HR.
  unfold bind at 1 in HR. unfold SecretManager.readFile at 1 in HR.
  unfold bind at 1, ask at 1 in HR.
  destruct (ReadFile B w (default EmptyString (LookupEnv B w "CLIENT_SECRET_FILE")))
    as [err | data] eqn:HF.
  - left. exists err. split; [reflexivity|].
    unfold ret in HR. simpl in HR. injection HR as <- <- <-. reflexivity.
  - right. exists data.
    unfold ret at 1 in HR. cbn beta iota in HR.
    unfold bind at 1, Getenv at 1, ask at 1 in HR.
    unfold bind at 1, Getenv at 1, ask at 1 in HR.
    unfold bind at 1 in HR.
    match type of HR with
    | context [SecretManager.tokenLoop B ?n ?i ?v ?r ?l w] =>
        destruct (tokenLoop_spec B 2 i v r l w eq_refl)
          as (init & p & Hev & Hinit & Hp & Hlen & Hout & Hlast);
        change (S 2) with (Z.to_nat SecretManager.maxRetries) in Hev, Hout;
        destruct (SecretManager.tokenLoop B n i v r l w) as [[o1 w1] t1]
    end.
    exists init, p. unfold events, outcome in *. simpl in Hev, Hout. subst o1 t1.
    assert (Ho : o = Return (tokenResult p) /\ t = schedule 1 (map (fun e => [e]) (init ++ [p]))).
    { destruct p as [u v [err | rep] | | | | | | |]; try discriminate Hp.
      - simpl in HR. unfold ret in HR. injection HR as <- <- <-.
        rewrite app_nil_r. split; reflexivity.
      - cbn [afterPost SecretManager.reply] in HR. cbn [tokenResult].
        destruct (Z.eqb (StatusCode rep) 200) eqn:E200; simpl negb in HR |- *; cbv iota in HR |- *.
        + destruct (SecretManager.Decode (Content rep) (SecretManager.mkTokenResponse EmptyString))
            as [tokenResp [derr|]];
            [|destruct (isEmpty (SecretManager.AccessToken tokenResp))];
            cbv beta iota in HR; unfold ret in HR; injection HR as <- <- <-;
            rewrite app_nil_r; split; reflexivity.
        + unfold SecretManager.readResponseBody in HR. simpl in HR.
          unfold ret in HR. injection HR as <- <- <-. rewrite app_nil_r. split; reflexivity. }
    destruct Ho as [-> ->]. repeat split; auto.
Qed.

End GetToken.

(** ** Facts on schedules *)

Lemma schedule_singletons_last i (init : list Event) p :
  exists pre, schedule i (map (fun e => [e]) (init ++ [p])) = (pre ++ [p])%list.
Proof.
  revert i. induction init as [|e init IH]; intros i.
  - exists []. reflexivity.
  - destruct (IH (i + 1)) as [pre Hpre].
    exists (e :: EvSleep (i * SecretManager.baseRetryDelay) :: pre).
    simpl map. rewrite schedule_cons by (destruct init; discriminate).
    simpl. simpl in Hpre. rewrite Hpre. reflexivity.
Qed.

(** In a schedule of single requests whose attempts before the last all
    failed, a request answered with status 200 is the last event. *)
Lemma schedule_success_last i (init : list Event) p pre post u v rep :
  Forall (fun e => failedPost e = true) init ->
  schedule i (map (fun e => [e]) (init ++ [p])) = (pre ++ EvPost u v (inr rep) :: post)%list ->
  StatusCode rep = 200 ->
  post = [] /\ p = EvPost u v (inr rep).
Proof.
  intros Hinit. revert i pre. induction Hinit as [|e init He Hinit IH]; intros i pre Heq H200.
  - simpl in Heq. destruct pre as [|x pre].
    + injection Heq as -> <-. split; reflexivity.
    + destruct pre; discriminate.
  - simpl map in Heq. rewrite schedule_cons in Heq by (destruct init; discriminate).
    simpl in Heq.
    destruct pre as [|x pre].
    + injection Heq as -> _. simpl in He. rewrite H200 in He. discriminate.
    + injection Heq as _ Heq. destruct pre as [|y pre]; [discriminate|].
      injection Heq as _ Heq. exact (IH _ _ Heq H200).
Qed.

Lemma schedule_In i (attempts : list (list Event)) a e :
  In a attempts -> In e a -> In e (schedule i attempts).
Proof.
  revert i. induction attempts as [|b rest IH]; intros i Ha He; [contradiction|].
  destruct rest as [|c rest'].
  - destruct Ha as [->|[]]. exact He.
  - rewrite schedule_cons by discriminate. apply in_or_app.
    destruct Ha as [->|Ha]; [left; exact He|].
    right. right. apply IH; assumption.
Qed.

Section TokenClaims.

Variable B : Backend.

(** C2.  When the client secret file can be read and no request of the run
    is answered with status 200 (every attempt is a transport error or
    another status), [getOIDCToken] makes exactly three requests, a delay of
    2s and of 4s between them and none after the third, and returns an
    error: the transport error of the third attempt, wrapped, or a message
    that carries the status code of the third response. *)
Theorem token_fetch_fails_after_three_attempts (w : World B) (data : string) :
  ReadFile B w (default EmptyString (LookupEnv B w "CLIENT_SECRET_FILE")) = inr data ->
  forallb attemptFailed (events (SecretManager.getOIDCToken B w)) = true ->
  exists u1 v1 r1 u2 v2 r2 u3 v3 r3,
    events (SecretManager.getOIDCToken B w)
    = [EvPost u1 v1 r1; EvSleep (2 * SecretManager.Second);
       EvPost u2 v2 r2; EvSleep (4 * SecretManager.Second);
       EvPost u3 v3 r3]
    /\ length (List.filter isPost (events (SecretManager.getOIDCToken B w))) = 3%nat
    /\ outcome (SecretManager.getOIDCToken B w)
       = Return (EmptyString,
                 Some match r3 with
                      | inl err => Errorf_w "token request failed after 3 attempts: " err
                      | inr rep =>
                          errorString ("token endpoint returned " ++ Itoa (StatusCode rep) ++ ": ")
                      end).
Proof.
  intros Hfile Hfail.
  destruct (getOIDCToken_spec B w) as [(err & Herr & _) | (d & init & p & _ & Hev & Hinit & Hp & Hlen & Hlast & Hout)].
  { rewrite Hfile in Herr. discriminate. }
  rewrite Hev in Hfail |- *. rewrite Hout.
  assert (Hpf : failedPost p = true).
  { rewrite forallb_forall in Hfail.
    assert (Hin : In p (schedule 1 (map (fun e => [e]) (init ++ [p])))).
    { apply (schedule_In _ _ [p]); [|left; reflexivity].
      apply (List.in_map (fun e => [e]) _ p). apply in_or_app. right. left. reflexivity. }
    specialize (Hfail p Hin). unfold attemptFailed in Hfail. rewrite Hp in Hfail. exact Hfail. }
  specialize (Hlast Hpf).
  destruct init as [|p1 [|p2 [|p3 init]]]; try discriminate Hlast.
  inversion Hinit as [|? ? Hp1 Hinit']; subst. inversion Hinit' as [|? ? Hp2 _]; subst.
  destruct p1 as [u1 v1 r1| | | | | | |]; try discriminate Hp1.
  destruct p2 as [u2 v2 r2| | | | | | |]; try discriminate Hp2.
  destruct p as [u3 v3 r3| | | | | | |]; try discriminate Hp.
  exists u1, v1, r1, u2, v2, r2, u3, v3, r3.
  split; [reflexivity|]. split; [reflexivity|].
  destruct r3 as [err | rep]; [reflexivity|].
  simpl in Hpf. simpl. rewrite Hpf. reflexivity.
Qed.

(** C10.  A request that [getOIDCToken] sees answered with status 200 is
    the last event of its run: the retry loop ends at that attempt.  When
    the body of that response does not decode, or decodes to an empty access
    token, the run returns an error at once, with no further attempt and no
    delay. *)
Theorem success_status_ends_the_retry_loop (w : World B)
    (pre post : list Event) (u : string) (v : list (string * string)) (rep : Reply) :
  events (SecretManager.getOIDCToken B w) = (pre ++ EvPost u v (inr rep) :: post)%list ->
  StatusCode rep = 200 ->
  post = []
  /\ forall tokenResp derr,
      SecretManager.Decode (Content rep) (SecretManager.mkTokenResponse EmptyString)
      = (tokenResp, derr) ->
      derr <> None \/ SecretManager.AccessToken tokenResp = EmptyString ->
      exists err, outcome (SecretManager.getOIDCToken B w) = Return (EmptyString, Some err).
Proof.
  intros Hev H200.
  destruct (getOIDCToken_spec B w) as [(err & _ & Heq) | (d & init & p & _ & Hev' & Hinit & Hp & Hlen & Hlast & Hout)].
  { rewrite Heq in Hev. destruct pre; discriminate. }
  rewrite Hev' in Hev.
  destruct (schedule_success_last _ _ _ _ _ _ _ _ Hinit Hev H200) as [-> ->].
  split; [reflexivity|].
  intros tokenResp derr HD Hbad. rewrite Hout. simpl. rewrite H200. simpl. rewrite HD.
  destruct derr as [e|]; [eexists; reflexivity|].
  destruct Hbad as [Hbad | Hbad]; [contradiction|]. rewrite Hbad. simpl. eexists; reflexivity.
Qed.

End TokenClaims.


(** ** The shape of a token response *)

Lemma isEmpty_true s : isEmpty s = true <-> s = EmptyString.
Proof. destruct s; simpl; split; intros H; try reflexivity; discriminate. Qed.

(** [tokenResult] yields a token exactly for a response with status 200
    whose body decodes to a non-empty access token. *)
Lemma tokenResult_token (p : Event) (tok : string) :
  isPost p = true ->
  (tokenResult p = (tok, None)
   <-> exists u v rep,
        p = EvPost u v (inr rep)
        /\ StatusCode rep = 200
        /\ SecretManager.Decode (Content rep) (SecretManager.mkTokenResponse EmptyString)
           = (SecretManager.mkTokenResponse tok, None)
        /\ tok <> EmptyString).
Proof.
  intros Hp. destruct p as [u v [err | rep] | | | | | | |]; try discriminate Hp.
  - split; [discriminate|]. intros (? & ? & ? & H & _). discriminate.
  - simpl. split.
    + destruct (Z.eqb_spec (StatusCode rep) 200) as [H200|]; simpl; [|discriminate].
      destruct (SecretManager.Decode (Content rep) (SecretManager.mkTokenResponse EmptyString))
        as [[t] [derr|]] eqn:HD; [discriminate|].
      simpl. destruct (isEmpty t) eqn:Et; [discriminate|].
      intros H. injection H as <-.
      exists u, v, rep. repeat split; auto.
      intros ->. discriminate.
    + intros (u' & v' & rep' & H & H200 & HD & Hne). injection H as <- <- <-.
      rewrite H200. simpl. rewrite HD. simpl.
      destruct (isEmpty tok) eqn:Et; [apply isEmpty_true in Et; contradiction | reflexivity].
Qed.

Section SimpleToken.

Variable B : Backend.

(** The single request of the program of [src/main.go]. *)
Lemma Simple_getOIDCToken_spec (w : World B) :
  exists u v r,
    events (Simple.getOIDCToken B w) = [EvPost u v r]
    /\ outcome (Simple.getOIDCToken B w)
       = Return match r with
                | inl err => (EmptyString, Some (Errorf_w "token request failed: " err))
                | inr resp =>
                    if negb (Z.eqb (StatusCode resp) 200) then
                      (EmptyString,
                       Some (errorString ("token endpoint returned " ++ Itoa (StatusCode resp)
                                          ++ ": " ++ Content resp)))
                    else
                      match Simple.Decode (Content resp) (Simple.mkTokenResponse EmptyString) with
                      | (_, Some err) =>
                          (EmptyString, Some (Errorf_w "failed to decode token response: " err))
                      | (tokenResp, None) =>
                          if isEmpty (Simple.AccessToken tokenResp) then
                            (EmptyString, Some (errorString "empty access token in response"))
                          else (Simple.AccessToken tokenResp, None)
                      end
                end.
Proof.
  destruct (Simple.getOIDCToken B w) as [[o w'] t] eqn:HR.
  unfold Simple.getOIDCToken in HR.
  unfold bind at 1, Getenv at 1, ask at 1 in HR.
  unfold bind at 1, Getenv at 1, ask at 1 in HR.
  unfold bind at 1 in HR. unfold Simple.readFile at 1, bind at 1, ask at 1 in HR.
  set (client_secret :=
         match ReadFile B w (default EmptyString (LookupEnv B w "CLIENT_SECRET_FILE")) with
         | inr data => TrimSpace data
         | inl _ => EmptyString
         end).
  assert (Hrf : (match ReadFile B w (default EmptyString (LookupEnv B w "CLIENT_SECRET_FILE")) with
                 | inr data => ret (TrimSpace data)
                 | inl _ => ret EmptyString
                 end) w = (Return client_secret, w, [])).
  { subst client_secret. destruct (ReadFile B w _); reflexivity. }
  rewrite Hrf in HR. clear Hrf.
  unfold bind at 1, Getenv at 1, ask at 1 in HR.
  unfold bind at 1, Getenv at 1, ask at 1 in HR.
  unfold bind at 1, httpPost at 1 in HR.
  match type of HR with
  | context [Post B w ?u ?v] =>
      exists u, v; destruct (Post B w u v) as [r w1]; exists r
  end.
  unfold events, outcome. simpl fst. simpl snd.
  destruct r as [err | resp];
    [|destruct (Z.eqb (StatusCode resp) 200); simpl negb in HR |- *; cbv iota in HR |- *;
      [destruct (Simple.Decode (Content resp) (Simple.mkTokenResponse EmptyString))
         as [tokenResp [derr|]];
       [|destruct (isEmpty (Simple.AccessToken tokenResp))]|]];
    unfold ret in HR; injection HR as <- <- <-; split; reflexivity.
Qed.

End SimpleToken.

Section TokenShape.

Variable B : Backend.

Lemma getOIDCToken_token_iff (w : World B) (tok : string) :
  outcome (SecretManager.getOIDCToken B w) = Return (tok, None)
  <-> exists pre u v rep,
       events (SecretManager.getOIDCToken B w) = (pre ++ [EvPost u v (inr rep)])%list
       /\ StatusCode rep = 200
       /\ SecretManager.Decode (Content rep) (SecretManager.mkTokenResponse EmptyString)
          = (SecretManager.mkTokenResponse tok, None)
       /\ tok <> EmptyString.
Proof.
  destruct (getOIDCToken_spec B w)
    as [(err & _ & Heq) | (d & init & p & _ & Hev & Hinit & Hp & Hlen & Hlast & Hout)].
  - rewrite Heq. unfold outcome, events. simpl. split; [discriminate|].
    intros (pre & ? & ? & ? & H & _). destruct pre; discriminate.
  - rewrite Hout, Hev.
    destruct (schedule_singletons_last 1 init p) as [pre Hpre]. rewrite Hpre.
    split.
    + intros H. injection H as H. apply (tokenResult_token p tok Hp) in H.
      destruct H as (u & v & rep & -> & H). exists pre, u, v, rep. split; [reflexivity | exact H].
    + intros (pre' & u & v & rep & Heq & H). apply app_inj_tail in Heq as [_ ->].
      f_equal. apply (tokenResult_token (EvPost u v (inr rep)) tok eq_refl).
      exists u, v, rep. split; [reflexivity | exact H].
Qed.

Lemma Simple_getOIDCToken_token_iff (w : World B) (tok : string) :
  outcome (Simple.getOIDCToken B w) = Return (tok, None)
  <-> exists u v rep,
       events (Simple.getOIDCToken B w) = [EvPost u v (inr rep)]
       /\ StatusCode rep = 200
       /\ Simple.Decode (Content rep) (Simple.mkTokenResponse EmptyString)
          = (Simple.mkTokenResponse tok, None)
       /\ tok <> EmptyString.
Proof.
  destruct (Simple_getOIDCToken_spec B w) as (u & v & r & Hev & Hout).
  rewrite Hev, Hout. split.
  - intros H. injection H as H.
    destruct r as [err | rep]; [discriminate|].
    destruct (Z.eqb_spec (StatusCode rep) 200) as [H200|]; simpl in H; [|discriminate].
    destruct (Simple.Decode (Content rep) (Simple.mkTokenResponse EmptyString))
      as [[t] [derr|]] eqn:HD; [discriminate|].
    simpl in H. destruct (isEmpty t) eqn:Et; [discriminate|].
    injection H as <-. exists u, v, rep. repeat split; auto.
    intros ->. discriminate.
  - intros (u' & v' & rep & Heq & H200 & HD & Hne). injection Heq as <- <- ->.
    rewrite H200. simpl. rewrite HD. simpl.
    destruct (isEmpty tok) eqn:Et; [apply isEmpty_true in Et; contradiction | reflexivity].
Qed.

End TokenShape.

(** ** Retried operations *)

Section Retries.

Variable B : Backend.

Lemma retryLoop_S (n : nat) (i : Z) (fn : M B (option error)) lastError :
  SecretManager.retryLoop B (S n) i fn lastError
  = (e <- fn ;;
     match e with
     | None => ret None
     | Some err =>
         (if Z.ltb i (SecretManager.maxRetries - 1)
          then sleep ((i + 1) * SecretManager.baseRetryDelay) else ret tt) ;;;
         SecretManager.retryLoop B n (i + 1) fn (Some err)
     end)%go.
Proof. reflexivity. Qed.

Lemma Attempts_nonempty (fn : M B (option error)) i w runs :
  Attempts fn i w runs -> runs <> [].
Proof. intros H. destruct H; discriminate. Qed.

(** The loop of [withRetries], from any iteration on. *)
Lemma retryLoop_spec (n : nat) :
  forall (i : Z) (fn : M B (option error)) lastError (w : World B),
    i = SecretManager.maxRetries - Z.of_nat (S n) ->
    exists runs r,
      Attempts fn (i + 1) w runs
      /\ last runs = Some r
      /\ (length runs <= S n)%nat
      /\ events (SecretManager.retryLoop B (S n) i fn lastError w)
         = schedule (i + 1) (map events runs)
      /\ final (SecretManager.retryLoop B (S n) i fn lastError w) = final r
      /\ outcome (SecretManager.retryLoop B (S n) i fn lastError w) = retryResult (outcome r)
      /\ (failedRun r -> length runs = S n).
Proof.
  induction n as [|n IH]; intros i fn lastError w Hi;
    destruct (SecretManager.retryLoop B _ i fn lastError w) as [[o w'] t] eqn:HR;
    unfold events at 1, final at 1, outcome at 1; simpl fst; simpl snd;
    rewrite retryLoop_S in HR; unfold bind at 1 in HR;
    destruct (fn w) as [[o1 w1] t1] eqn:Hfn.
  - assert (Hsleep : Z.ltb i (SecretManager.maxRetries - 1) = false)
      by (apply Z.ltb_ge; unfold SecretManager.maxRetries in *; lia).
    exists [fn w], (fn w).
    split; [constructor|]. rewrite Hfn. split; [reflexivity|]. split; [simpl; lia|].
    destruct o1 as [[err|]|code];
      unfold bind, ret in HR; rewrite ?Hsleep in HR; simpl in HR;
      injection HR as <- <- <-; unfold events, final, outcome; simpl;
      rewrite ?app_nil_r; repeat split; auto.
  - assert (Hsleep : Z.ltb i (SecretManager.maxRetries - 1) = true)
      by (apply Z.ltb_lt; unfold SecretManager.maxRetries in *; lia).
    destruct o1 as [[err|]|code].
    + unfold bind at 1 in HR. rewrite Hsleep in HR. unfold sleep, call in HR.
      destruct (IH (i + 1) fn (Some err) (Sleep B w1 ((i + 1) * SecretManager.baseRetryDelay)))
        as (runs & r & Hatt & Hlastr & Hlen & Hev & Hfin & Hout & Hlast); [lia|].
      destruct (SecretManager.retryLoop B (S n) (i + 1) fn (Some err)
                  (Sleep B w1 ((i + 1) * SecretManager.baseRetryDelay))) as [[o2 w2] t2].
      unfold events at 1 in Hev. unfold final at 1 in Hfin. unfold outcome at 1 in Hout.
      simpl in Hev, Hfin, Hout, HR. injection HR as <- <- <-. subst t2 o2 w2.
      exists (fn w :: runs), r.
      pose proof (Attempts_nonempty _ _ _ _ Hatt) as Hne.
      split.
      { constructor; [exists err; rewrite Hfn; reflexivity|].
        rewrite Hfn. exact Hatt. }
      split; [destruct runs; [contradiction | exact Hlastr]|].
      split; [simpl; lia|].
      split.
      { simpl map. rewrite schedule_cons by (destruct runs; [contradiction | discriminate]).
        rewrite Hfn. reflexivity. }
      split; [reflexivity|]. split; [reflexivity|].
      intros H. simpl. rewrite (Hlast H). reflexivity.
    + unfold ret in HR. simpl in HR. injection HR as <- <- <-.
      exists [fn w], (fn w).
      split; [constructor|]. rewrite Hfn. split; [reflexivity|]. split; [simpl; lia|].
      unfold events, final, outcome. simpl. rewrite app_nil_r.
      repeat split; auto. intros [e He]. discriminate.
    + injection HR as <- <- <-.
      exists [fn w], (fn w).
      split; [constructor|]. rewrite Hfn. split; [reflexivity|]. split; [simpl; lia|].
      unfold events, final, outcome. simpl.
      repeat split; auto. intros [e He]. discriminate.
Qed.

Lemma withRetries_spec (fn : M B (option error)) (w : World B) :
  exists runs r,
    Attempts fn 1 w runs
    /\ last runs = Some r
    /\ (length runs <= 3)%nat
    /\ events (SecretManager.withRetries B fn w) = schedule 1 (map events runs)
    /\ final (SecretManager.withRetries B fn w) = final r
    /\ outcome (SecretManager.withRetries B fn w) = retryResult (outcome r)
    /\ (failedRun r -> length runs = 3%nat).
Proof. exact (retryLoop_spec 2 0 fn None w eq_refl). Qed.

End Retries.

Section Aggregate.

Variable B : Backend.

Lemma Attempts_runs (fn : M B (option error)) i w runs :
  Attempts fn i w runs -> Forall (fun r => exists w', r = fn w') runs.
Proof.
  induction 1 as [i w | i w rest Hf Hrest IH].
  - constructor; [exists w; reflexivity | constructor].
  - constructor; [exists w; reflexivity | exact IH].
Qed.

Lemma Attempts_head (fn : M B (option error)) i w runs :
  Attempts fn i w runs -> exists rest, runs = fn w :: rest.
Proof. intros H. destruct H; eexists; reflexivity. Qed.

(** One reconciliation: a Get, then nothing, a Create or an Update, all on
    the namespace; it always returns. *)
Lemma manageNamespaceSecret_spec (token ns : string) (w : World B) :
  exists res w' rest,
    SecretManager.manageNamespaceSecret B token ns w
    = (Return res, w', EvGet ns SecretManager.secretName :: rest)
    /\ (rest = []
        \/ rest = [EvCreate ns (SecretManager.desiredSecret token)]
        \/ rest = [EvUpdate ns (SecretManager.desiredSecret token)]).
Proof.
  unfold SecretManager.manageNamespaceSecret, bind, secretsGet, call.
  destruct (GetSecret B w ns SecretManager.secretName) as [[err | existing] w1].
  - destruct (IsNotFound err).
    + unfold secretsCreate, call.
      destruct (CreateSecret B w1 ns (SecretManager.desiredSecret token)) as [e w2].
      do 3 eexists. split; [reflexivity | auto].
    + do 3 eexists. split; [reflexivity | auto].
  - destruct (String.eqb _ token).
    + do 3 eexists. split; [reflexivity | auto].
    + unfold secretsUpdate, call.
      destruct (UpdateSecret B w1 ns (SecretManager.desiredSecret token)) as [e w2].
      do 3 eexists. split; [reflexivity | auto].
Qed.

(** The retried reconciliation of a namespace always returns, and its
    first event is the Get of the Secret in that namespace. *)
Lemma withRetries_manage (token ns : string) (w : World B) :
  exists res rest,
    outcome (SecretManager.withRetries B (SecretManager.manageNamespaceSecret B token ns) w)
    = Return res
    /\ events (SecretManager.withRetries B (SecretManager.manageNamespaceSecret B token ns) w)
       = EvGet ns SecretManager.secretName :: rest.
Proof.
  destruct (withRetries_spec B (SecretManager.manageNamespaceSecret B token ns) w)
    as (runs & r & Hatt & Hlast & _ & Hev & _ & Hout & _).
  rewrite Hout, Hev.
  pose proof (Attempts_runs _ _ _ _ Hatt) as Hall.
  assert (Hr : exists w', r = SecretManager.manageNamespaceSecret B token ns w').
  { rewrite List.Forall_forall in Hall. apply Hall.
    apply last_Some in Hlast as [l' ->]. apply in_or_app. right. left. reflexivity. }
  destruct Hr as [w' ->].
  destruct (manageNamespaceSecret_spec token ns w') as (res & w2 & rest & Heq & _).
  rewrite Heq. unfold outcome. simpl.
  destruct (Attempts_head _ _ _ _ Hatt) as [tl ->].
  destruct (manageNamespaceSecret_spec token ns w) as (res0 & w3 & rest0 & Heq0 & _).
  rewrite Heq0.
  destruct res as [err|].
  - eexists. exists (rest0 ++ match tl with [] => [] | _ => EvSleep (1 * SecretManager.baseRetryDelay) :: schedule (1 + 1) (map events tl) end)%list.
    split; [reflexivity|]. destruct tl; simpl; unfold events; simpl; [rewrite app_nil_r|]; reflexivity.
  - eexists. exists (rest0 ++ match tl with [] => [] | _ => EvSleep (1 * SecretManager.baseRetryDelay) :: schedule (1 + 1) (map events tl) end)%list.
    split; [reflexivity|]. destruct tl; simpl; unfold events; simpl; [rewrite app_nil_r|]; reflexivity.
Qed.

Lemma namespaceLoop_spec (token : string) (namespaces : list string) :
  forall (errorList : list error) (successCount : Z) (w : World B),
    SecretManager.namespaceLoop B token namespaces errorList successCount w
    = (Return ((errorList ++ omap namespaceError (reconcileEach token namespaces w))%list,
               successCount
               + Z.of_nat (length (List.filter succeeded (reconcileEach token namespaces w)))),
       fold_left (fun _ nr => final (snd nr)) (reconcileEach token namespaces w) w,
       concat (map (fun nr => events (snd nr)) (reconcileEach token namespaces w))).
Proof.
  induction namespaces as [|ns rest IH]; intros errorList successCount w.
  - simpl. unfold ret. rewrite app_nil_r, Z.add_0_r. reflexivity.
  - cbn [SecretManager.namespaceLoop reconcileEach].
    unfold bind at 1.
    destruct (withRetries_manage token ns w) as (res & evs & Hout & Hev).
    set (r := SecretManager.withRetries B (SecretManager.manageNamespaceSecret B token ns) w) in *.
    destruct r as [[o w1] t] eqn:Hr. unfold outcome in Hout. simpl in Hout. subst o.
    destruct res as [err|]; rewrite IH; cbn [map omap concat List.filter fold_left].
    + change (succeeded (ns, (Return (Some err), w1, t))) with false. cbv iota.
      change (namespaceError (ns, (Return (Some err), w1, t)))
        with (Some (Errorf_w ("namespace " ++ ns ++ ": ") err)).
      cbv iota. rewrite <- app_assoc. reflexivity.
    + change (succeeded (ns, (Return None, w1, t))) with true. cbv iota.
      change (namespaceError (ns, (Return None, w1, t))) with (@None error).
      cbv iota. cbn [length]. rewrite Nat2Z.inj_succ.
      replace (successCount + 1
               + Z.of_nat (length (List.filter succeeded (reconcileEach token rest w1))))
        with (successCount
              + Z.succ (Z.of_nat (length (List.filter succeeded
                                            (reconcileEach token rest
                                               (final (Return (@None error), w1, t)))))))
        by (unfold final; simpl; lia).
      reflexivity.
Qed.

End Aggregate.

Section AggregateClaim.

Variable B : Backend.

Lemma getK8sConfig_pure (w : World B) :
  exists o, SecretManager.getK8sConfig B w = (Return o, w, []).
Proof.
  unfold SecretManager.getK8sConfig, bind, ask, Getenv.
  destruct (InClusterConfig B w); eexists; reflexivity.
Qed.

Lemma reconcileEach_namespaces (token : string) (namespaces : list string) (w : World B) :
  map fst (reconcileEach token namespaces w) = namespaces.
Proof.
  revert w. induction namespaces as [|ns rest IH]; intros w; simpl; [reflexivity|].
  rewrite IH. reflexivity.
Qed.

Lemma reconcileEach_runs (token : string) (namespaces : list string) (w : World B) :
  Forall (fun nr => exists res rest,
              outcome (snd nr) = Return res
              /\ events (snd nr) = EvGet (fst nr) SecretManager.secretName :: rest)
    (reconcileEach token namespaces w).
Proof.
  revert w. induction namespaces as [|ns rest IH]; intros w; simpl; constructor.
  - destruct (withRetries_manage B token ns w) as (res & evs & Hout & Hev).
    exists res, evs. split; assumption.
  - apply IH.
Qed.

(** C3.  Once the namespaces are listed, [manageSecretsClusterWide] runs
    the retried reconciliation of every namespace of the list, in order, each
    starting with the Get of the Secret in that namespace, whatever the
    results of the others; it records one error per namespace whose
    reconciliation failed (and none for the others), logs the counts, and
    returns an error, which lists those errors, exactly when that list is not
    empty. *)
Theorem aggregate_and_continue (w : World B) (token : string)
    (namespaces : list string) (w1 : World B) :
  outcome (SecretManager.getK8sConfig B w) = Return None ->
  NewForConfig B w = None ->
  ListNamespaces B w = (inr namespaces, w1) ->
  let runs := reconcileEach token namespaces w1 in
  let errorList := omap namespaceError runs in
  let result := SecretManager.manageSecretsClusterWide B token w in
  map fst runs = namespaces
  /\ Forall (fun nr => exists res rest,
                outcome (snd nr) = Return res
                /\ events (snd nr) = EvGet (fst nr) SecretManager.secretName :: rest) runs
  /\ events result
     = (EvList :: concat (map (fun nr => events (snd nr)) runs)
          ++ [EvLogCompleted (Z.of_nat (length (List.filter succeeded runs)))
                (Z.of_nat (length errorList)) (Z.of_nat (length namespaces))])%list
  /\ Forall (fun ns => In (EvGet ns SecretManager.secretName) (events result)) namespaces
  /\ length errorList = length (List.filter (fun nr => negb (succeeded nr)) runs)
  /\ outcome result
     = Return match errorList with
              | [] => None
              | _ => Some (errorString ("completed with " ++ Itoa (Z.of_nat (length errorList))
                                        ++ " errors: " ++ fmtErrors errorList))
              end
  /\ (outcome result = Return None <-> errorList = []).
Proof.
  intros Hcfg Hnew Hlist runs errorList result.
  pose proof (reconcileEach_namespaces token namespaces w1) as Hns.
  pose proof (reconcileEach_runs token namespaces w1) as Hruns.
  fold runs in Hns, Hruns.
  assert (Hres : result
                 = (Return match errorList with
                           | [] => None
                           | _ => Some (errorString
                                          ("completed with " ++ Itoa (Z.of_nat (length errorList))
                                           ++ " errors: " ++ fmtErrors errorList))
                           end,
                    fold_left (fun _ nr => final (snd nr)) runs w1,
                    (EvList :: concat (map (fun nr => events (snd nr)) runs)
                       ++ [EvLogCompleted (Z.of_nat (length (List.filter succeeded runs)))
                             (Z.of_nat (length errorList)) (Z.of_nat (length namespaces))])%list)).
  { subst result. unfold SecretManager.manageSecretsClusterWide.
    unfold bind at 1.
    destruct (getK8sConfig_pure w) as [o Ho]. rewrite Ho in Hcfg |- *.
    unfold outcome in Hcfg. simpl in Hcfg. injection Hcfg as ->.
    unfold bind at 1, ask at 1. rewrite Hnew.
    unfold bind at 1, SecretManager.listNamespaces at 1, bind at 1, namespacesList at 1, call at 1.
    rewrite Hlist. unfold ret at 1. cbn beta iota.
    unfold bind at 1. rewrite namespaceLoop_spec. fold runs. fold errorList.
    cbn beta iota. unfold bind at 1, emit at 1.
    destruct errorList as [|e l] eqn:He.
    - simpl. unfold ret. reflexivity.
    - replace (Z.ltb 0 (Z.of_nat (length ([] ++ e :: l)%list))) with true
        by (symmetry; apply Z.ltb_lt; simpl; lia).
      unfold ret. simpl app. reflexivity. }
  split; [exact Hns|]. split; [exact Hruns|].
  rewrite Hres. unfold events at 1 2, outcome at 1 2. cbn [fst snd].
  split; [reflexivity|].
  split.
  { rewrite <- Hns. clear -Hruns. apply List.Forall_forall. intros ns Hin.
    apply in_map_iff in Hin as [[ns' r] [<- Hin]].
    rewrite List.Forall_forall in Hruns. destruct (Hruns _ Hin) as (res & rest & _ & Hev).
    right. apply in_or_app. left. apply in_concat.
    exists (events r). split; [apply (in_map (fun nr => events (snd nr)) _ _ Hin)|].
    simpl in Hev. rewrite Hev. left. reflexivity. }
  split.
  { subst errorList. clear -Hruns. induction Hruns as [|[ns r] l (res & rest & Hout & _) _ IH];
      [reflexivity|].
    cbn [omap list_omap List.filter]. unfold namespaceError at 1, succeeded at 1.
    cbn [fst snd] in Hout |- *. rewrite Hout.
    destruct res; cbn [negb length]; [f_equal|]; exact IH. }
  split; [reflexivity|].
  destruct errorList; split; intros H; try reflexivity; discriminate.
Qed.

End AggregateClaim.

Lemma aggregate_and_continue_witness :
  outcome (SecretManager.getK8sConfig Mem.backend Example.abc) = Return None
  /\ NewForConfig Mem.backend Example.abc = None
  /\ ListNamespaces Mem.backend Example.abc = (inr ["a"; "b"; "c"], Example.abc)
  /\ map eventNamespace (events (SecretManager.manageSecretsClusterWide Mem.backend "t" Example.abc))
     = [None; Some "a"; Some "a"; Some "b"; None; Some "b"; None; Some "b";
        Some "c"; Some "c"; None]
  /\ outcome (SecretManager.manageSecretsClusterWide Mem.backend "t" Example.abc)
     = Return (Some (errorString
         ("completed with 1 errors: [namespace b: failed after 3 attempts: secrets "
          ++ quoted "oidc-jwt" ++ " is forbidden]"))).
Proof.
  split; [reflexivity|]. split; [reflexivity|]. split; [reflexivity|].
  destruct (aggregate_and_continue Mem.backend Example.abc "t" ["a"; "b"; "c"] Example.abc
              eq_refl eq_refl eq_refl) as (_ & _ & Hev & _ & _ & Hout & _).
  rewrite Hev, Hout. split; vm_compute; reflexivity.
Defined.

(** ** Merge patches *)

Lemma getMember_setMember_eq k v m : getMember k (setMember k v m) = Some v.
Proof.
  induction m as [|[k' v'] m IH]; simpl.
  - rewrite String.eqb_refl. reflexivity.
  - destruct (String.eqb k k') eqn:E; simpl.
    + rewrite String.eqb_refl. reflexivity.
    + rewrite E. exact IH.
Qed.

Lemma getMember_removeMember_ne k k' m :
  k' <> k -> getMember k' (removeMember k m) = getMember k' m.
Proof.
  intros Hne. induction m as [|[k0 v0] m IH]; simpl; [reflexivity|].
  destruct (String.eqb k k0) eqn:E; simpl.
  - apply String.eqb_eq in E. subst k0.
    destruct (String.eqb k' k) eqn:E'; [apply String.eqb_eq in E'; contradiction | exact IH].
  - destruct (String.eqb k' k0); [reflexivity | exact IH].
Qed.

Lemma getMember_setMember_ne k k' v m :
  k' <> k -> getMember k' (setMember k v m) = getMember k' m.
Proof.
  intros Hne. induction m as [|[k0 v0] m IH]; simpl.
  - destruct (String.eqb k' k) eqn:E; [apply String.eqb_eq in E; contradiction | reflexivity].
  - destruct (String.eqb k k0) eqn:E; simpl.
    + apply String.eqb_eq in E. subst k0.
      destruct (String.eqb k' k) eqn:E'; [apply String.eqb_eq in E'; contradiction|].
      apply getMember_removeMember_ne. exact Hne.
    + destruct (String.eqb k' k0); [reflexivity | exact IH].
Qed.

(** The document that the merge patch of [createOrUpdateSecret] leaves. *)
Lemma MergePatch_patchPayload (doc : JSON) (key token : string) :
  MergePatch doc (Fetcher.patchPayload key token)
  = JObject (setMember "data"
               (JObject (setMember key (JString (Base64.EncodeToString token))
                           (members (default JNull (getMember "data" (members doc))))))
               (members doc)).
Proof. reflexivity. Qed.

Lemma dataOf_setMember (x : JSON) (m : list (string * JSON)) :
  dataOf (JObject (setMember "data" x m)) = x.
Proof. unfold dataOf, field. cbn [members]. rewrite getMember_setMember_eq. reflexivity. Qed.

Lemma patch_frame (doc : JSON) (key token : string) :
  let doc' := MergePatch doc (Fetcher.patchPayload key token) in
  (forall name, name <> "data" -> field name doc' = field name doc)
  /\ (forall k, k <> key -> field k (dataOf doc') = field k (dataOf doc))
  /\ field key (dataOf doc') = Some (JString (Base64.EncodeToString token))
  /\ labelsOf doc' = labelsOf doc.
Proof.
  intros doc'. subst doc'. rewrite MergePatch_patchPayload.
  assert (Hother : forall name, name <> "data" ->
            field name (JObject (setMember "data"
               (JObject (setMember key (JString (Base64.EncodeToString token))
                           (members (default JNull (getMember "data" (members doc))))))
               (members doc))) = field name doc).
  { intros name Hne. unfold field. cbn [members].
    apply getMember_setMember_ne. exact Hne. }
  split; [exact Hother|].
  rewrite dataOf_setMember.
  split; [|split].
  - intros k Hne. unfold field at 1. cbn [members].
    rewrite getMember_setMember_ne by exact Hne. reflexivity.
  - unfold field. cbn [members]. apply getMember_setMember_eq.
  - unfold labelsOf. rewrite Hother by discriminate. reflexivity.
Qed.

Section PatchClaim.

(** The patch on the in-memory cluster: the Secret is found, one merge
    patch is sent, and it replaces the stored document by the patched one. *)
Lemma createOrUpdateSecret_patches (w : Mem.World) (ns name key token : string)
    (doc : JSON) (existing : Secret) (w1 : Mem.World) :
  Mem.getSecret w ns name = (inr existing, w1) ->
  Mem.secrets w !! (ns, name) = Some doc ->
  Fetcher.createOrUpdateSecret Mem.backend ns name key token w
  = (Return None,
     Mem.setCluster w
       (<[(ns, name) := MergePatch doc (Fetcher.patchPayload key token)]> (Mem.secrets w)) None,
     [EvGet ns name; EvPatch ns name (Fetcher.patchPayload key token)]).
Proof.
  intros Hget Hdoc.
  unfold Fetcher.createOrUpdateSecret, bind, secretsGet, call. cbn [GetSecret Mem.backend].
  rewrite Hget. unfold secretsPatch, call. cbn [PatchSecret Mem.backend].
  unfold Mem.getSecret in Hget. unfold Mem.patchSecret.
  destruct (Mem.faults w !! ns) as [f|] eqn:Hf; [discriminate|].
  rewrite Hdoc in Hget. destruct (Mem.ofJSON doc); [|discriminate].
  injection Hget as <- <-.
  cbn [Mem.faults Mem.setCluster Mem.secrets]. rewrite Hf, Hdoc. unfold ret. reflexivity.
Qed.

(** C9.  On the in-memory cluster, when [createOrUpdateSecret] finds the
    Secret it sends one merge patch, after which the stored document holds
    the token, in base64, at the secret key of its data; every other key of
    its data, its labels, every member other than data, and every other
    stored Secret are as before. *)
Theorem patch_leaves_other_keys_and_labels (w : Mem.World) (ns name key token : string)
    (doc : JSON) (existing : Secret) (w1 : Mem.World) :
  Mem.getSecret w ns name = (inr existing, w1) ->
  Mem.secrets w !! (ns, name) = Some doc ->
  let r := Fetcher.createOrUpdateSecret Mem.backend ns name key token w in
  outcome r = Return None
  /\ List.filter isWrite (events r) = [EvPatch ns name (Fetcher.patchPayload key token)]
  /\ exists doc',
      Mem.secrets (final r) !! (ns, name) = Some doc'
      /\ field key (dataOf doc') = Some (JString (Base64.EncodeToString token))
      /\ (forall k, k <> key -> field k (dataOf doc') = field k (dataOf doc))
      /\ labelsOf doc' = labelsOf doc
      /\ (forall member, member <> "data" -> field member doc' = field member doc)
      /\ (forall other, other <> (ns, name) ->
            Mem.secrets (final r) !! other = Mem.secrets w !! other).
Proof.
  intros Hget Hdoc r. subst r.
  rewrite (createOrUpdateSecret_patches w ns name key token doc existing w1 Hget Hdoc).
  unfold outcome, events, final. cbn [fst snd Mem.setCluster Mem.secrets].
  split; [reflexivity|]. split; [reflexivity|].
  exists (MergePatch doc (Fetcher.patchPayload key token)).
  destruct (patch_frame doc key token) as (Hmem & Hkeys & Hkey & Hlabels).
  split; [apply lookup_insert_eq|].
  split; [exact Hkey|]. split; [exact Hkeys|]. split; [exact Hlabels|]. split; [exact Hmem|].
  intros other Hne. apply lookup_insert_ne. congruence.
Qed.

End PatchClaim.

(** ** Fail-fast processing *)

Section FailFast.

Variable B : Backend.

(** One reconciliation of the cron-job program: a Get, then nothing, a
    Create or a merge patch, all on the namespace; it always returns. *)
Lemma createOrUpdateSecret_spec (ns name key token : string) (w : World B) :
  exists res w' rest,
    Fetcher.createOrUpdateSecret B ns name key token w
    = (Return res, w', EvGet ns name :: rest)
    /\ (rest = []
        \/ rest = [EvCreate ns (Fetcher.newSecret ns name key token)]
        \/ rest = [EvPatch ns name (Fetcher.patchPayload key token)]).
Proof.
  unfold Fetcher.createOrUpdateSecret, bind, secretsGet, call.
  destruct (GetSecret B w ns name) as [[err | existing] w1].
  - destruct (Contains (Error err) "not found").
    + unfold secretsCreate, call.
      destruct (CreateSecret B w1 ns (Fetcher.newSecret ns name key token)) as [[e|] w2];
        do 3 eexists; (split; [reflexivity | auto]).
    + do 3 eexists. split; [reflexivity | auto].
  - unfold secretsPatch, call.
    destruct (PatchSecret B w1 ns name (Fetcher.patchPayload key token)) as [[e|] w2];
      do 3 eexists; (split; [reflexivity | auto]).
Qed.

Lemma process_cons (ns : string) (rest : list string) (name key token : string) :
  Fetcher.processSecretsInNamespaces B (ns :: rest) name key token
  = (done <- ask (ContextErr B) ;;
     match done with
     | Some c => ret (Some (contextError c))
     | None =>
         err <- Fetcher.createOrUpdateSecret B ns name key token ;;
         match err with
         | Some _ =>
             opErr <- ask (OpContextErr B) ;;
             match opErr with
             | Some DeadlineExceeded => Fetcher.Fatalf B
             | _ =>
                 c <- ask (ContextErr B) ;;
                 match c with
                 | Some Canceled => ret (Some (contextError Canceled))
                 | _ => Fetcher.Fatalf B
                 end
             end
         | None => Fetcher.processSecretsInNamespaces B rest name key token
         end
     end)%go.
Proof. reflexivity. Qed.

(** Namespaces that were processed without error are followed by the
    processing of the rest. *)
Lemma process_app (pre rest : list string) (name key token : string) :
  forall (w w1 : World B) (t1 : list Event),
    Fetcher.processSecretsInNamespaces B pre name key token w = (Return None, w1, t1) ->
    Fetcher.processSecretsInNamespaces B (pre ++ rest) name key token w
    = (outcome (Fetcher.processSecretsInNamespaces B rest name key token w1),
       final (Fetcher.processSecretsInNamespaces B rest name key token w1),
       (t1 ++ events (Fetcher.processSecretsInNamespaces B rest name key token w1))%list).
Proof.
  induction pre as [|ns pre IH]; intros w w1 t1 Hpre.
  - simpl in Hpre. unfold ret in Hpre. injection Hpre as <- <-.
    simpl. destruct (Fetcher.processSecretsInNamespaces B rest name key token w) as [[o w2] t2].
    reflexivity.
  - change ((ns :: pre) ++ rest)%list with (ns :: (pre ++ rest))%list.
    rewrite process_cons in Hpre |- *.
    unfold bind at 1, ask at 1 in Hpre. unfold bind at 1, ask at 1.
    destruct (ContextErr B w) as [c|]; [discriminate Hpre|].
    unfold bind at 1 in Hpre. unfold bind at 1.
    destruct (createOrUpdateSecret_spec ns name key token w) as (res & w' & evs & Heq & _).
    rewrite Heq in Hpre |- *.
    destruct res as [err|].
    + exfalso. unfold bind, ask, Fetcher.Fatalf, exit, ret in Hpre.
      destruct (OpContextErr B w') as [[|]|]; try discriminate Hpre;
        destruct (ContextErr B w') as [[|]|]; discriminate Hpre.
    + destruct (Fetcher.processSecretsInNamespaces B pre name key token w') as [[o2 w2] t2] eqn:Hp.
      injection Hpre as -> -> <-.
      rewrite (IH w' w1 t2 Hp).
      cbn [app]. rewrite app_assoc. reflexivity.
Qed.

(** Every event of the processing is a secret operation on one of the
    namespaces of the list. *)
Lemma process_events (l : list string) (name key token : string) :
  forall w : World B,
    Forall (fun e => exists ns, eventNamespace e = Some ns /\ In ns l)
      (events (Fetcher.processSecretsInNamespaces B l name key token w)).
Proof.
  induction l as [|ns l IH]; intros w.
  - constructor.
  - rewrite process_cons. unfold bind at 1, ask at 1.
    destruct (ContextErr B w) as [c|]; [constructor|].
    unfold bind at 1.
    destruct (createOrUpdateSecret_spec ns name key token w) as (res & w' & evs & Heq & Hevs).
    rewrite Heq.
    assert (Hns : Forall (fun e => exists n, eventNamespace e = Some n /\ In n (ns :: l))
                    (EvGet ns name :: evs)).
    { constructor; [exists ns; split; [reflexivity | left; reflexivity]|].
      destruct Hevs as [-> | [-> | ->]]; repeat constructor;
        exists ns; (split; [reflexivity | left; reflexivity]). }
    destruct res as [err|].
    + unfold bind, ask, Fetcher.Fatalf, exit, ret.
      destruct (OpContextErr B w') as [[|]|]; unfold events; simpl; rewrite ?app_nil_r;
        try exact Hns; destruct (ContextErr B w') as [[|]|]; simpl; rewrite ?app_nil_r; exact Hns.
    + specialize (IH w').
      destruct (Fetcher.processSecretsInNamespaces B l name key token w') as [[o2 w2] t2].
      unfold events in *. simpl in *.
      constructor; [inversion Hns; assumption|].
      apply Forall_app. split; [inversion Hns; assumption|].
      eapply Forall_impl; [exact IH|]. intros e (n & He & Hin). exists n. split; [exact He | right; exact Hin].
Qed.

(** C4.  When the namespaces before [ns] were processed without error and
    [createOrUpdateSecret] fails on [ns], [processSecretsInNamespaces] ends
    there: the process exits with code 1 (always so when the deadline of the
    operation was exceeded) or, when the shutdown signal came, the function
    returns the cancellation.  The run ends in the world that the failed
    operation left, its events are those of the namespaces up to [ns], and
    none is about a namespace that comes after. *)
Theorem fail_fast_stops_at_first_failure (pre : list string) (ns : string) (post : list string)
    (name key token : string) (w w1 w2 : World B) (t1 t2 : list Event) (err : error) :
  Fetcher.processSecretsInNamespaces B pre name key token w = (Return None, w1, t1) ->
  ContextErr B w1 = None ->
  Fetcher.createOrUpdateSecret B ns name key token w1 = (Return (Some err), w2, t2) ->
  let r := Fetcher.processSecretsInNamespaces B (pre ++ ns :: post) name key token w in
  (outcome r = Exit 1 \/ outcome r = Return (Some (contextError Canceled)))
  /\ (OpContextErr B w2 = Some DeadlineExceeded -> outcome r = Exit 1)
  /\ final r = w2
  /\ events r = (t1 ++ t2)%list
  /\ Forall (fun e => exists n, eventNamespace e = Some n /\ In n (pre ++ [ns])) (events r).
Proof.
  intros Hpre Hctx Hfail r.
  assert (Hone : Fetcher.processSecretsInNamespaces B (ns :: post) name key token w1
                 = (match OpContextErr B w2 with
                    | Some DeadlineExceeded => Exit 1
                    | _ => match ContextErr B w2 with
                           | Some Canceled => Return (Some (contextError Canceled))
                           | _ => Exit 1
                           end
                    end, w2, t2)).
  { rewrite process_cons. unfold bind at 1, ask at 1. rewrite Hctx.
    unfold bind at 1. rewrite Hfail.
    unfold bind, ask, Fetcher.Fatalf, exit, ret.
    destruct (OpContextErr B w2) as [[|]|]; simpl; rewrite ?app_nil_r; try reflexivity;
      destruct (ContextErr B w2) as [[|]|]; simpl; rewrite ?app_nil_r; reflexivity. }
  assert (Hr : r = (outcome (Fetcher.processSecretsInNamespaces B (ns :: post) name key token w1),
                    w2, (t1 ++ t2)%list)).
  { subst r. rewrite (process_app pre (ns :: post) name key token w w1 t1 Hpre).
    rewrite Hone. reflexivity. }
  rewrite Hr, Hone. unfold outcome, final, events. cbn [fst snd].
  split; [|split; [|split; [|split]]]; try reflexivity.
  - destruct (OpContextErr B w2) as [[|]|]; auto; destruct (ContextErr B w2) as [[|]|]; auto.
  - intros ->. reflexivity.
  - apply Forall_app. split.
    + pose proof (process_events pre name key token w) as H. rewrite Hpre in H.
      eapply Forall_impl; [exact H|]. intros e (n & He & Hin).
      exists n. split; [exact He | apply in_or_app; left; exact Hin].
    + destruct (createOrUpdateSecret_spec ns name key token w1) as (res & w' & evs & Heq & Hevs).
      rewrite Hfail in Heq. injection Heq as _ _ ->.
      assert (Hin : In ns (pre ++ [ns])) by (apply in_or_app; right; left; reflexivity).
      constructor; [exists ns; split; [reflexivity | exact Hin]|].
      destruct Hevs as [-> | [-> | ->]]; repeat constructor;
        exists ns; (split; [reflexivity | exact Hin]).
Qed.

End FailFast.


(** ** Unchanged tokens *)

Section Unchanged.

Variable B : Backend.


End Unchanged.

(** The document stored for the Secret that [createOrUpdateSecret]
    creates. *)
Lemma stored_newSecret (w : Mem.World) (ns name key token : string) :
  Mem.stored w ns (Fetcher.newSecret ns name key token)
  = JObject [("metadata", JObject (omitEmpty "name" name ++ omitEmpty "namespace" ns));
             ("data", JObject [(key, JString (Base64.EncodeToString token))]);
             ("type", JString "Opaque")].
Proof.
  assert (Hdata : omitEmptyMap "data" Base64.EncodeToString ({[key := token]} : gmap string string)
                  = [("data", JObject [(key, JString (Base64.EncodeToString token))])]).
  { unfold omitEmptyMap, stringMap.
    destruct (decide (({[key := token]} : gmap string string) = ∅)) as [He|_].
    - exfalso. apply (f_equal (fun m : gmap string string => m !! key)) in He.
      rewrite lookup_singleton_eq, lookup_empty in He. discriminate.
    - rewrite map_to_list_singleton. reflexivity. }
  assert (Hempty : forall enc, omitEmptyMap "stringData" enc (∅ : gmap string string) = []).
  { intros enc. unfold omitEmptyMap. destruct (decide ((∅ : gmap string string) = ∅)); [reflexivity | contradiction]. }
  assert (Hlabels : omitEmptyMap "labels" id (∅ : gmap string string) = []).
  { unfold omitEmptyMap. destruct (decide ((∅ : gmap string string) = ∅)); [reflexivity | contradiction]. }
  unfold Mem.stored, Fetcher.newSecret, toJSON.
  destruct (Mem.writeOnlyStringData w); cbn [Name Namespace Labels SecretType Data StringData].
  - rewrite (left_id_L ∅ (∪)). rewrite Hdata, Hempty, Hlabels. rewrite app_nil_r. reflexivity.
  - rewrite Hdata, Hempty, Hlabels. rewrite app_nil_r. reflexivity.
Qed.



(** ** An explicit list without targets *)

Section NoTargets.

Variable B : Backend.

Lemma getEnvOrDie_set (w : World B) (key value : string) :
  LookupEnv B w key = Some value -> value <> EmptyString ->
  Fetcher.getEnvOrDie B key w = (Return value, w, []).
Proof.
  intros Henv Hne. unfold Fetcher.getEnvOrDie, bind, Getenv, ask. rewrite Henv. simpl.
  rewrite (isEmpty_false value Hne). reflexivity.
Qed.

Lemma getEnv_pure (w : World B) (key defaultValue : string) :
  Fetcher.getEnv B key defaultValue w = (Return (default defaultValue (LookupEnv B w key)), w, []).
Proof. unfold Fetcher.getEnv, bind, ask. destruct (LookupEnv B w key); reflexivity. Qed.

(** A token request that succeeds made exactly one request. *)
Lemma fetchOIDCToken_events (tokenURL clientID clientSecret scopes : string)
    (w w1 : World B) (accessToken : string) (t1 : list Event) :
  Fetcher.fetchOIDCToken B tokenURL clientID clientSecret scopes w
  = (Return (accessToken, None), w1, t1) ->
  exists v r, t1 = [EvPost tokenURL v r].
Proof.
  unfold Fetcher.fetchOIDCToken, bind, ask, httpPost.
  destruct (NewRequest B w tokenURL); [discriminate|].
  match goal with |- context [Post B w ?u ?v] => destruct (Post B w u v) as [r w2]; set (values := v) end.
  intros H. exists values, r.
  destruct r as [err | resp]; [discriminate H|].
  destruct (negb (Z.eqb (StatusCode resp) 200));
    [|destruct (Fetcher.Decode (Content resp) _) as [tr [derr|]];
      [|destruct (isEmpty (Fetcher.AccessToken tr))]];
    destruct (CloseErr resp); unfold ret in H; simpl in H; try discriminate H;
    injection H as _ _ <-; reflexivity.
Qed.

(** C7.  When the token was fetched, the cluster client was built, and
    [TARGET_NAMESPACES] is set to a value that is not empty but holds no
    namespace after trimming, [main] of the cron-job program returns
    normally (exit code 0) in the world that the token request left; its only
    event is that request: the namespaces are not listed and no Secret is
    touched. *)
Theorem empty_explicit_list_is_successful_noop (w w1 : World B)
    (tokenURL clientID clientSecret accessToken s : string) (t1 : list Event) :
  LookupEnv B w "OIDC_TOKEN_URL" = Some tokenURL -> tokenURL <> EmptyString ->
  LookupEnv B w "OIDC_CLIENT_ID" = Some clientID -> clientID <> EmptyString ->
  LookupEnv B w "OIDC_CLIENT_SECRET" = Some clientSecret -> clientSecret <> EmptyString ->
  Fetcher.fetchOIDCToken B tokenURL clientID clientSecret
    (default Fetcher.defaultScopes (LookupEnv B w "OIDC_SCOPES")) w
  = (Return (accessToken, None), w1, t1) ->
  InClusterConfig B w1 = None ->
  NewForConfig B w1 = None ->
  LookupEnv B w1 Fetcher.TargetNamespacesEnvVar = Some s -> s <> EmptyString ->
  Fetcher.explicitNamespaces s = [] ->
  Fetcher.main B w = (Return tt, w1, t1)
  /\ Forall (fun e => isPost e = true) (events (Fetcher.main B w)).
Proof.
  intros Hurl Hurl' Hid Hid' Hsec Hsec' Hfetch Hcfg Hnew Htarget Hs Hempty.
  assert (Hmain : Fetcher.main B w = (Return tt, w1, t1)).
  { unfold Fetcher.main.
    unfold bind at 1. rewrite (getEnvOrDie_set w _ _ Hurl Hurl').
    unfold bind at 1. rewrite (getEnvOrDie_set w _ _ Hid Hid').
    unfold bind at 1. rewrite (getEnvOrDie_set w _ _ Hsec Hsec').
    unfold bind at 1. rewrite getEnv_pure.
    unfold bind at 1. rewrite getEnv_pure.
    unfold bind at 1. rewrite getEnv_pure.
    unfold bind at 1. rewrite Hfetch.
    unfold bind at 1.
    assert (Hk : Fetcher.getKubeClient B w1 = (Return None, w1, [])).
    { unfold Fetcher.getKubeClient, bind, ask. rewrite Hcfg, Hnew. reflexivity. }
    rewrite Hk.
    unfold bind at 1.
    assert (Hr : Fetcher.resolveNamespaces B w1 = (Return (Some []), w1, [])).
    { unfold Fetcher.resolveNamespaces, bind, Getenv, ask. rewrite Htarget. simpl.
      rewrite (isEmpty_false s Hs). simpl. rewrite Hempty. reflexivity. }
    rewrite Hr. simpl. rewrite !app_nil_r. reflexivity. }
  split; [exact Hmain|].
  rewrite Hmain. unfold events. simpl.
  destruct (fetchOIDCToken_events _ _ _ _ _ _ _ _ Hfetch) as (v & r & ->).
  repeat constructor.
Qed.

End NoTargets.


(** ** The properties on the example worlds *)

Lemma token_fetch_fails_after_three_attempts_witness :
  ReadFile Mem.backend Example.abc
    (default EmptyString (LookupEnv Mem.backend Example.abc "CLIENT_SECRET_FILE"))
  = inr "hunter2"
  /\ forallb attemptFailed (events (SecretManager.getOIDCToken Mem.backend Example.abc)) = true
  /\ exists u1 v1 r1 u2 v2 r2 u3 v3 r3,
      events (SecretManager.getOIDCToken Mem.backend Example.abc)
      = [EvPost u1 v1 r1; EvSleep (2 * SecretManager.Second);
         EvPost u2 v2 r2; EvSleep (4 * SecretManager.Second);
         EvPost u3 v3 r3]
      /\ length (List.filter isPost (events (SecretManager.getOIDCToken Mem.backend Example.abc)))
         = 3%nat
      /\ outcome (SecretManager.getOIDCToken Mem.backend Example.abc)
         = Return (EmptyString,
                   Some match r3 with
                        | inl err => Errorf_w "token request failed after 3 attempts: " err
                        | inr rep =>
                            errorString ("token endpoint returned " ++ Itoa (StatusCode rep) ++ ": ")
                        end).
Proof.
  split; [reflexivity|]. split; [reflexivity|].
  apply (token_fetch_fails_after_three_attempts Mem.backend Example.abc "hunter2");
    reflexivity.
Defined.

(** The run on [Example.abc], spelled out: three requests, each answered
    with status 500, and the error names that status. *)
Example token_fetch_always_500 :
  events (SecretManager.getOIDCToken Mem.backend Example.abc)
  = [EvPost "https://idp.example/token" Example.form Example.status500;
     EvSleep 2000000000;
     EvPost "https://idp.example/token" Example.form Example.status500;
     EvSleep 4000000000;
     EvPost "https://idp.example/token" Example.form Example.status500]
  /\ outcome (SecretManager.getOIDCToken Mem.backend Example.abc)
     = Return (EmptyString, Some (errorString "token endpoint returned 500: ")).
Proof. split; reflexivity. Qed.

(** Two failures, then a token: three requests with the two delays. *)
Example token_fetch_third_attempt_succeeds :
  events (SecretManager.getOIDCToken Mem.backend
            (Example.replying [Example.status500; Example.status500;
                               Example.status200 (Example.object1 "access_token" "abc")]))
  = [EvPost "https://idp.example/token" Example.form Example.status500;
     EvSleep 2000000000;
     EvPost "https://idp.example/token" Example.form Example.status500;
     EvSleep 4000000000;
     EvPost "https://idp.example/token" Example.form
       (Example.status200 (Example.object1 "access_token" "abc"))]
  /\ outcome (SecretManager.getOIDCToken Mem.backend
                (Example.replying [Example.status500; Example.status500;
                                   Example.status200 (Example.object1 "access_token" "abc")]))
     = Return ("abc", None).
Proof. split; reflexivity. Qed.

Lemma success_status_ends_the_retry_loop_witness :
  events (SecretManager.getOIDCToken Mem.backend Example.malformed)
  = ([EvPost "https://idp.example/token" Example.form Example.status500; EvSleep 2000000000]
       ++ EvPost "https://idp.example/token" Example.form (inr (mkReply 200 "<html>" None))
       :: [])%list
  /\ StatusCode (mkReply 200 "<html>" None) = 200
  /\ exists err,
      outcome (SecretManager.getOIDCToken Mem.backend Example.malformed)
      = Return (EmptyString, Some err).
Proof.
  split; [reflexivity|]. split; [reflexivity|].
  destruct (success_status_ends_the_retry_loop Mem.backend Example.malformed
              [EvPost "https://idp.example/token" Example.form Example.status500;
               EvSleep 2000000000]
              [] "https://idp.example/token" Example.form (mkReply 200 "<html>" None)
              eq_refl eq_refl)
    as [_ H].
  apply (H (SecretManager.mkTokenResponse EmptyString) (Some TokenJson.SyntaxError));
    [reflexivity | left; discriminate].
Defined.

Lemma explicit_targets_verbatim_witness :
  LookupEnv Mem.backend (Example.targets "ns1, ,ns2,") Fetcher.TargetNamespacesEnvVar
  = Some "ns1, ,ns2,"
  /\ Fetcher.resolveNamespaces Mem.backend (Example.targets "ns1, ,ns2,")
     = (Return (Some ["ns1"; "ns2"]), Example.targets "ns1, ,ns2,", []).
Proof.
  split; [reflexivity|].
  rewrite (proj1 explicit_targets_verbatim Mem.backend (Example.targets "ns1, ,ns2,")
             "ns1, ,ns2," eq_refl);
    [reflexivity | discriminate].
Defined.

Lemma patch_leaves_other_keys_and_labels_witness :
  (exists existing w1,
      Mem.getSecret Example.labelled "a" "oidc-token-secret" = (inr existing, w1))
  /\ Mem.secrets Example.labelled !! ("a", "oidc-token-secret") = Some Example.labelledDoc
  /\ outcome (Fetcher.createOrUpdateSecret Mem.backend "a" "oidc-token-secret" "token" "new"
                Example.labelled) = Return None
  /\ exists doc',
      Mem.secrets (final (Fetcher.createOrUpdateSecret Mem.backend "a" "oidc-token-secret"
                            "token" "new" Example.labelled))
        !! ("a", "oidc-token-secret") = Some doc'
      /\ field "token" (dataOf doc') = Some (JString "bmV3")
      /\ field "ca.crt" (dataOf doc') = Some (JString "Y2E=")
      /\ labelsOf doc' = Some (JObject [("team", JString "payments")]).
Proof.
  destruct (Mem.getSecret Example.labelled "a" "oidc-token-secret")
    as [[err | existing] w1] eqn:Hget;
    [vm_compute in Hget; discriminate Hget|].
  split; [exists existing, w1; reflexivity|].
  split; [reflexivity|].
  destruct (patch_leaves_other_keys_and_labels Example.labelled "a" "oidc-token-secret"
              "token" "new" Example.labelledDoc existing w1 Hget eq_refl)
    as (Hout & _ & doc' & Hdoc & Hkey & Hkeys & Hlabels & _).
  split; [exact Hout|].
  exists doc'. split; [exact Hdoc|]. split; [exact Hkey|].
  split; [rewrite Hkeys; [reflexivity | discriminate] | rewrite Hlabels; reflexivity].
Defined.

Lemma fail_fast_stops_at_first_failure_witness :
  Example.onlyA = (Return None, final Example.onlyA, events Example.onlyA)
  /\ ContextErr Mem.backend (final Example.onlyA) = None
  /\ outcome Example.thenB
     = Return (Some (Errorf_w "failed to get secret 'oidc-token-secret' in namespace 'b': "
                       (Mem.faultError Mem.Forbidden ("secrets " ++ quoted "oidc-token-secret"))))
  /\ outcome (Fetcher.processSecretsInNamespaces Mem.backend (["a"] ++ "b" :: ["c"])
                Fetcher.defaultSecretName Fetcher.defaultSecretKey "t" Example.abc) = Exit 1
  /\ map eventNamespace
       (events (Fetcher.processSecretsInNamespaces Mem.backend (["a"] ++ "b" :: ["c"])
                  Fetcher.defaultSecretName Fetcher.defaultSecretKey "t" Example.abc))
     = [Some "a"; Some "a"; Some "b"]
  /\ Forall (fun e => exists n, eventNamespace e = Some n /\ In n (["a"] ++ ["b"]))
       (events (Fetcher.processSecretsInNamespaces Mem.backend (["a"] ++ "b" :: ["c"])
                  Fetcher.defaultSecretName Fetcher.defaultSecretKey "t" Example.abc)).
Proof.
  split; [reflexivity|]. split; [reflexivity|]. split; [reflexivity|].
  destruct (fail_fast_stops_at_first_failure Mem.backend ["a"] "b" ["c"]
              Fetcher.defaultSecretName Fetcher.defaultSecretKey "t"
              Example.abc (final Example.onlyA) (final Example.thenB)
              (events Example.onlyA) (events Example.thenB)
              (Errorf_w "failed to get secret 'oidc-token-secret' in namespace 'b': "
                 (Mem.faultError Mem.Forbidden ("secrets " ++ quoted "oidc-token-secret")))
              eq_refl eq_refl eq_refl)
    as (_ & _ & _ & Hev & Hall).
  split; [reflexivity|]. split; [reflexivity | exact Hall].
Defined.

(** A namespace whose operation exceeds its deadline ends the process as
    well. *)
Example fail_fast_on_timeout :
  outcome (Fetcher.processSecretsInNamespaces Mem.backend ["a"; "b"; "c"]
             Fetcher.defaultSecretName Fetcher.defaultSecretKey "t"
             (Mem.mkWorld (Mem.env Example.abc) (Mem.files Example.abc) [] Example.status500
                true ["a"; "b"; "c"] None {[ "b" := Mem.TimesOut ]} true ∅ false None))
  = Exit 1
  /\ map eventNamespace
       (events (Fetcher.processSecretsInNamespaces Mem.backend ["a"; "b"; "c"]
                  Fetcher.defaultSecretName Fetcher.defaultSecretKey "t"
                  (Mem.mkWorld (Mem.env Example.abc) (Mem.files Example.abc) [] Example.status500
                     true ["a"; "b"; "c"] None {[ "b" := Mem.TimesOut ]} true ∅ false None)))
     = [Some "a"; Some "a"; Some "b"].
Proof. split; vm_compute; reflexivity. Qed.

Lemma empty_explicit_list_is_successful_noop_witness :
  LookupEnv Mem.backend Example.noTargets Fetcher.TargetNamespacesEnvVar = Some " , "
  /\ Fetcher.explicitNamespaces " , " = []
  /\ outcome (Fetcher.main Mem.backend Example.noTargets) = Return tt
  /\ Forall (fun e => isPost e = true) (events (Fetcher.main Mem.backend Example.noTargets)).
Proof.
  split; [reflexivity|]. split; [reflexivity|].
  destruct (empty_explicit_list_is_successful_noop Mem.backend Example.noTargets
              (final (Fetcher.fetchOIDCToken Mem.backend "https://idp.example/token" "fetcher"
                        "hunter2" "openid" Example.noTargets))
              "https://idp.example/token" "fetcher" "hunter2" "abc" " , "
              (events (Fetcher.fetchOIDCToken Mem.backend "https://idp.example/token" "fetcher"
                         "hunter2" "openid" Example.noTargets)))
    as [Hmain Hev]; try reflexivity; try discriminate.
  split; [rewrite Hmain; reflexivity | exact Hev].
Defined.


(** [manageNamespaceSecret] compares the token with the [StringData] that
    the Get returns.  Against a store that returns Secrets as written, a
    second run with the same token writes nothing; against one that keeps
    [stringData] write-only, the Get returns none and the second run
    updates. *)
Example compare_depends_on_returned_stringData :
  List.filter isWrite
    (events (SecretManager.manageNamespaceSecret Mem.backend "t" "a" (final Example.trackedOnce)))
  = []
  /\ List.filter isWrite
       (events (SecretManager.manageNamespaceSecret Mem.backend "t" "a" (final Example.servedOnce)))
     = [EvUpdate "a" (SecretManager.desiredSecret "t")].
Proof. split; vm_compute; reflexivity. Qed.

(** * Further properties of the programs *)

Import Sextets.

(** ** Texts *)
Lemma append_cons (a : ascii) (s t : string) : String a s ++ t = String a (s ++ t).
Proof. reflexivity. Qed.

Lemma append_assoc (s t u : string) : (s ++ t) ++ u = s ++ t ++ u.
Proof. induction s as [|a s IH]; [reflexivity|]. rewrite !append_cons, IH. reflexivity. Qed.

Lemma append_empty_r s : s ++ EmptyString = s.
Proof. induction s as [|a s IH]; [reflexivity|]. rewrite append_cons, IH. reflexivity. Qed.

Lemma revAppend_app s acc : revAppend s acc = revString s ++ acc.
Proof.
  unfold revString. revert acc. induction s as [|a s IH]; intros acc; [reflexivity|].
  cbn [revAppend]. rewrite IH, (IH (String a EmptyString)).
  rewrite append_assoc. reflexivity.
Qed.

Lemma revString_cons a s : revString (String a s) = revString s ++ String a EmptyString.
Proof. unfold revString at 1. cbn [revAppend]. apply revAppend_app. Qed.

Lemma revString_app s t : revString (s ++ t) = revString t ++ revString s.
Proof.
  induction s as [|a s IH].
  - change (revString EmptyString) with EmptyString. rewrite append_empty_r. reflexivity.
  - rewrite append_cons, !revString_cons, IH, append_assoc. reflexivity.
Qed.

Lemma revString_involutive s : revString (revString s) = s.
Proof.
  induction s as [|a s IH]; [reflexivity|].
  rewrite revString_cons, revString_app, IH. reflexivity.
Qed.

Lemma allSpace_app s t : allSpace (s ++ t) = allSpace s && allSpace t.
Proof.
  induction s as [|a s IH]; [reflexivity|].
  rewrite append_cons. cbn [allSpace]. rewrite IH, andb_assoc. reflexivity.
Qed.

Lemma allSpace_revString s : allSpace (revString s) = allSpace s.
Proof.
  induction s as [|a s IH]; [reflexivity|].
  rewrite revString_cons, allSpace_app, IH. cbn [allSpace]. rewrite andb_true_r. apply andb_comm.
Qed.

Lemma TrimLeftSpace_blank pre t : allSpace pre = true -> TrimLeftSpace (pre ++ t) = TrimLeftSpace t.
Proof.
  induction pre as [|a pre IH]; cbn [allSpace]; [reflexivity|].
  intros [Ha Hp]%andb_prop. rewrite append_cons. cbn [TrimLeftSpace]. rewrite Ha. auto.
Qed.

Lemma TrimLeftSpaceRev_blank pre t :
  allSpace pre = true -> TrimLeftSpaceRev (pre ++ t) = TrimLeftSpaceRev t.
Proof.
  induction pre as [|a pre IH]; cbn [allSpace]; [reflexivity|].
  intros [Ha Hp]%andb_prop. rewrite append_cons. cbn [TrimLeftSpaceRev]. rewrite Ha. auto.
Qed.

Lemma graphic_beq a n : graphic a = true -> (128 <= n)%N -> beq a n = false.
Proof.
  unfold graphic, beq. intros [_ H]%andb_prop Hn. apply N.ltb_lt in H.
  apply N.eqb_neq. lia.
Qed.

Lemma graphic_between a lo hi : graphic a = true -> (128 <= lo)%N -> between lo a hi = false.
Proof.
  unfold graphic, between. intros [_ H]%andb_prop Hn. apply N.ltb_lt in H.
  apply andb_false_intro1. apply N.leb_gt. lia.
Qed.

Lemma graphic_not_space a : graphic a = true -> asciiSpace a = false.
Proof. unfold graphic. intros [H _]%andb_prop. apply negb_true_iff in H. exact H. Qed.

Lemma TrimLeftSpace_graphic a r : graphic a = true -> TrimLeftSpace (String a r) = String a r.
Proof.
  intros Ha. cbn [TrimLeftSpace]. rewrite (graphic_not_space a Ha).
  destruct r as [|b [|c r]]; try reflexivity; unfold space2, space3;
    rewrite ?(graphic_beq a 194 Ha), ?(graphic_beq a 225 Ha), ?(graphic_beq a 226 Ha),
      ?(graphic_beq a 227 Ha) by lia; reflexivity.
Qed.

Lemma TrimLeftSpaceRev_graphic a r : graphic a = true -> TrimLeftSpaceRev (String a r) = String a r.
Proof.
  intros Ha. cbn [TrimLeftSpaceRev]. rewrite (graphic_not_space a Ha).
  destruct r as [|b [|c r]]; try reflexivity; unfold space2, space3;
    rewrite ?(graphic_beq a 133 Ha), ?(graphic_beq a 160 Ha), ?(graphic_beq a 128 Ha),
      ?(graphic_beq a 168 Ha), ?(graphic_beq a 169 Ha), ?(graphic_beq a 175 Ha),
      ?(graphic_beq a 159 Ha), ?(graphic_between a 128 138 Ha) by lia;
    rewrite ?andb_false_r; reflexivity.
Qed.

Lemma endsGraphic_revString s :
  s <> EmptyString -> endsGraphic s = true ->
  exists z r, revString s = String z r /\ graphic z = true.
Proof.
  induction s as [|a s IH]; [contradiction|]. intros _ H.
  destruct s as [|b s].
  - exists a, EmptyString. split; [reflexivity | exact H].
  - destruct IH as (z & r & Hr & Hz); [discriminate | exact H |].
    exists z, (r ++ String a EmptyString). rewrite revString_cons, Hr. split; [reflexivity | exact Hz].
Qed.

Lemma TrimLeftSpace_all_blank s : allSpace s = true -> TrimLeftSpace s = EmptyString.
Proof.
  intros H. rewrite <- (append_empty_r s). rewrite TrimLeftSpace_blank by exact H. reflexivity.
Qed.

(** [strings.TrimSpace] removes the ASCII white space around a text whose
    ends are ASCII bytes other than white space. *)
Lemma TrimSpace_strips pre s post :
  allSpace pre = true -> allSpace post = true -> solid s = true ->
  TrimSpace (pre ++ s ++ post) = s.
Proof.
  intros Hpre Hpost Hs. unfold TrimSpace. rewrite TrimLeftSpace_blank by exact Hpre.
  destruct s as [|a s].
  - change (EmptyString ++ post) with post.
    rewrite TrimLeftSpace_all_blank by exact Hpost. reflexivity.
  - cbn [solid] in Hs. apply andb_prop in Hs as [Ha He].
    change (String a s ++ post) with (String a (s ++ post)).
    rewrite TrimLeftSpace_graphic by exact Ha.
    change (String a (s ++ post)) with (String a s ++ post).
    unfold TrimRightSpace. rewrite revString_app.
    rewrite TrimLeftSpaceRev_blank by (rewrite allSpace_revString; exact Hpost).
    destruct (endsGraphic_revString (String a s)) as (z & r & Hr & Hz); [discriminate | exact He |].
    rewrite Hr, TrimLeftSpaceRev_graphic by exact Hz. rewrite <- Hr. apply revString_involutive.
Qed.

Lemma isEmpty_ne s : isEmpty s = false <-> s <> EmptyString.
Proof. destruct s; simpl; split; intros H; try reflexivity; try discriminate; contradiction. Qed.

Lemma HasPrefix_app (sub b : string) : HasPrefix (sub ++ b) sub = true.
Proof.
  induction sub as [|c sub IH]; [destruct b; reflexivity|].
  rewrite append_cons. cbn [HasPrefix]. rewrite Ascii.eqb_refl. exact IH.
Qed.

Lemma Contains_app (a sub b : string) : Contains (a ++ sub ++ b) sub = true.
Proof.
  induction a as [|c a IH].
  - change (EmptyString ++ sub ++ b) with (sub ++ b).
    destruct (sub ++ b) eqn:E; cbn [Contains]; rewrite <- E, HasPrefix_app; reflexivity.
  - rewrite append_cons. cbn [Contains]. rewrite IH. apply orb_true_r.
Qed.

Lemma schedule_Forall (P : Event -> Prop) (attempts : list (list Event)) :
  (forall d, P (EvSleep d)) ->
  Forall (Forall P) attempts ->
  forall i, Forall P (schedule i attempts).
Proof.
  intros Hs H. induction H as [|a rest Ha Hrest IH]; intros i; [constructor|].
  destruct rest as [|b rest]; [exact Ha|].
  rewrite schedule_cons by discriminate.
  apply Forall_app. split; [exact Ha|]. constructor; [apply Hs | apply IH].
Qed.

(** ** The program with retries *)

Section RetryingProgram.

Variable B : Backend.
Lemma bind_events {A C : Type} (m : M B A) (k : A -> M B C) (w : World B) :
  events (bind m k w)
  = (events (m w)
       ++ match outcome (m w) with
          | Return a => events (k a (final (m w)))
          | Exit _ => []
          end)%list.
Proof.
  unfold bind, events, outcome, final. destruct (m w) as [[[a|code] w1] t1]; cbn.
  - destruct (k a w1) as [[o2 w2] t2]. reflexivity.
  - rewrite app_nil_r. reflexivity.
Qed.

(** *** The environment check *)
Lemma missingLoop_filter (w : World B) (l acc : list string) :
  SecretManager.missingLoop B l acc w
  = (Return (acc ++ List.filter (fun k => isEmpty (getenv w k)) l)%list, w, []).
Proof.
  revert acc. induction l as [|k l IH]; intros acc.
  - simpl. rewrite app_nil_r. reflexivity.
  - cbn [SecretManager.missingLoop List.filter]. unfold bind at 1. unfold Getenv at 1, ask at 1.
    rewrite IH. unfold getenv.
    destruct (isEmpty (default EmptyString (LookupEnv B w k))); cbn.
    + rewrite <- app_assoc. reflexivity.
    + reflexivity.
Qed.

(** [validateEnv] reads the environment and nothing else; a client secret
    file that is named but does not exist is reported before any missing
    variable. *)
Lemma validateEnv_run (w : World B) :
  SecretManager.validateEnv B w
  = (Return
       (if negb (isEmpty (getenv w "CLIENT_SECRET_FILE"))
           && NotExist B w (getenv w "CLIENT_SECRET_FILE")
        then Some (errorString ("CLIENT_SECRET_FILE does not exist at "
                                ++ getenv w "CLIENT_SECRET_FILE"))
        else match List.filter (fun k => isEmpty (getenv w k)) required with
             | [] => None
             | missing =>
                 Some (errorString ("missing required environment variables: "
                                    ++ Join missing ", "))
             end), w, []).
Proof.
  unfold SecretManager.validateEnv. unfold bind at 1. rewrite missingLoop_filter.
  cbn [app]. unfold bind, Getenv, ask. fold (getenv w "CLIENT_SECRET_FILE").
  fold required.
  destruct (negb (isEmpty (getenv w "CLIENT_SECRET_FILE"))
            && NotExist B w (getenv w "CLIENT_SECRET_FILE")); [reflexivity|].
  destruct (List.filter (fun k => isEmpty (getenv w k)) required); reflexivity.
Qed.

Lemma validateEnv_returns (w : World B) :
  exists res, SecretManager.validateEnv B w = (Return res, w, []).
Proof.
  unfold SecretManager.validateEnv, bind.
  assert (Hm : forall l acc, exists m, SecretManager.missingLoop B l acc w = (Return m, w, [])).
  { induction l as [|k l IH]; intros acc; [eexists; reflexivity|].
    cbn [SecretManager.missingLoop]. unfold bind, Getenv, ask.
    destruct (IH (if isEmpty (default EmptyString (LookupEnv B w k))
                  then (acc ++ [k])%list else acc)) as [m ->].
    eexists; reflexivity. }
  destruct (Hm ["TOKEN_ENDPOINT_URL"; "CLIENT_ID"; "CLIENT_SECRET_FILE"] []) as [m ->].
  unfold Getenv, ask, ret.
  destruct (negb _ && _); [eexists; reflexivity|].
  destruct (Nat.ltb 0 (length m)); eexists; reflexivity.
Qed.

(** X1.  [validateEnv] of the program with retries changes nothing and makes
    no call; it returns no error exactly when the three required variables
    are set to values that are not empty and the Stat of the client secret
    file does not report that the file does not exist. *)
Theorem validateEnv_accepts_exactly_complete_environments (w : World B) :
  exists res,
    SecretManager.validateEnv B w = (Return res, w, [])
    /\ (res = None
        <-> Forall (fun k => getenv w k <> EmptyString) required
            /\ NotExist B w (getenv w "CLIENT_SECRET_FILE") = false).
Proof.
  rewrite validateEnv_run. eexists. split; [reflexivity|].
  unfold required. cbn [List.filter].
  destruct (isEmpty (getenv w "CLIENT_SECRET_FILE")) eqn:Hf; cbn [negb andb].
  - (* the file variable is missing *)
    split.
    + intros H. destruct (isEmpty (getenv w "TOKEN_ENDPOINT_URL")),
        (isEmpty (getenv w "CLIENT_ID")); discriminate H.
    + intros [H _]. apply isEmpty_true in Hf.
      inversion H as [|? ? _ H1]; subst. inversion H1 as [|? ? _ H2]; subst.
      inversion H2 as [|? ? H3 _]; subst. contradiction.
  - destruct (NotExist B w (getenv w "CLIENT_SECRET_FILE")) eqn:Hn.
    + split; [discriminate | intros [_ H]; discriminate H].
    + destruct (isEmpty (getenv w "TOKEN_ENDPOINT_URL")) eqn:Hu.
      * split; [destruct (isEmpty (getenv w "CLIENT_ID")); discriminate|].
        intros [H _]. apply isEmpty_true in Hu. inversion H; subst. contradiction.
      * destruct (isEmpty (getenv w "CLIENT_ID")) eqn:Hi.
        -- split; [discriminate|]. intros [H _]. apply isEmpty_true in Hi.
           inversion H as [|? ? _ H1]; subst. inversion H1; subst. contradiction.
        -- split; [|reflexivity]. intros _. split; [|reflexivity].
           repeat constructor; apply isEmpty_ne; assumption.
Qed.

(** X2.  When [CLIENT_SECRET_FILE] names a file that does not exist,
    [validateEnv] reports that file and nothing else, also when other
    variables are missing.  Otherwise, when some required variable is unset
    or empty, its error lists the missing variables in the order
    TOKEN_ENDPOINT_URL, CLIENT_ID, CLIENT_SECRET_FILE, separated by a comma
    and a space. *)
Theorem validateEnv_reports_a_missing_file_first (w : World B) :
  let file := getenv w "CLIENT_SECRET_FILE" in
  let missing := List.filter (fun k => isEmpty (getenv w k)) required in
  (file <> EmptyString -> NotExist B w file = true ->
   outcome (SecretManager.validateEnv B w)
   = Return (Some (errorString ("CLIENT_SECRET_FILE does not exist at " ++ file))))
  /\ (file = EmptyString \/ NotExist B w file = false ->
      missing <> [] ->
      outcome (SecretManager.validateEnv B w)
      = Return (Some (errorString ("missing required environment variables: "
                                   ++ Join missing ", ")))).
Proof.
  intros file missing. rewrite validateEnv_run. fold file. fold missing.
  cbn [outcome fst]. split.
  - intros Hf Hn. apply isEmpty_ne in Hf. rewrite Hf, Hn. reflexivity.
  - intros Hc Hm.
    assert (negb (isEmpty file) && NotExist B w file = false) as ->.
    { destruct Hc as [-> | ->]; [reflexivity | apply andb_false_r]. }
    destruct missing; [contradiction | reflexivity].
Qed.

(** X3.  [validateEnv] of the single-namespace program, written with
    separate tests, and [validateEnv] of the program with retries, written
    with a loop, give the same result in every world. *)
Theorem validateEnv_agrees_across_programs (w : World B) :
  Simple.validateEnv B w = SecretManager.validateEnv B w.
Proof.
  rewrite validateEnv_run. unfold Simple.validateEnv, bind, Getenv, ask, ret.
  unfold required. cbn [List.filter]. unfold getenv.
  destruct (isEmpty (default EmptyString (LookupEnv B w "TOKEN_ENDPOINT_URL")));
    destruct (isEmpty (default EmptyString (LookupEnv B w "CLIENT_ID")));
    destruct (isEmpty (default EmptyString (LookupEnv B w "CLIENT_SECRET_FILE")));
    cbn [negb andb app length Nat.ltb Nat.leb];
    try reflexivity;
    destruct (NotExist B w (default EmptyString (LookupEnv B w "CLIENT_SECRET_FILE")));
    reflexivity.
Qed.

(** *** The requests of [getOIDCToken] *)
Lemma tokenLoop_values (n : nat) :
  forall (i : Z) values resp lastError (w : World B),
    Forall (fun e => isPost e = true -> exists u r, e = EvPost u values r)
      (events (SecretManager.tokenLoop B n i values resp lastError w)).
Proof.
  induction n as [|n IH]; intros i values resp lastError w; [constructor|].
  destruct (SecretManager.tokenLoop B (S n) i values resp lastError w) as [[o w'] t] eqn:HR.
  unfold events; simpl snd.
  rewrite tokenLoop_S in HR.
  unfold bind at 1 in HR; unfold Getenv at 1 in HR; unfold ask at 1 in HR.
  set (url := default EmptyString (LookupEnv B w "TOKEN_ENDPOINT_URL")) in HR.
  unfold bind at 1 in HR; unfold httpPost at 1 in HR.
  destruct (Post B w url values) as [r w1] eqn:HP.
  assert (Hpost : isPost (EvPost url values r) = true -> exists u r0, EvPost url values r = EvPost u values r0)
    by (intros _; eauto).
  assert (Hrec : forall resp' lastError' w2 o2 w3 t2,
             ((if Z.ltb i (SecretManager.maxRetries - 1)
               then sleep ((i + 1) * SecretManager.baseRetryDelay) else ret tt) ;;;
              SecretManager.tokenLoop B n (i + 1) values resp' lastError')%go w2 = (o2, w3, t2) ->
             Forall (fun e => isPost e = true -> exists u r, e = EvPost u values r) t2).
  { intros resp' lastError' w2 o2 w3 t2 H. unfold bind in H.
    destruct (Z.ltb i (SecretManager.maxRetries - 1)); unfold sleep, call, ret in H.
    - specialize (IH (i + 1) values resp' lastError'
                    (Sleep B w2 ((i + 1) * SecretManager.baseRetryDelay))).
      destruct (SecretManager.tokenLoop B n (i + 1) values resp' lastError' _) as [[o4 w4] t4].
      injection H as <- <- <-. constructor; [discriminate | exact IH].
    - specialize (IH (i + 1) values resp' lastError' w2).
      destruct (SecretManager.tokenLoop B n (i + 1) values resp' lastError' _) as [[o4 w4] t4].
      injection H as <- <- <-. exact IH. }
  destruct r as [err | rep]; [|destruct (Z.eqb (StatusCode rep) 200) eqn:E200].
  - destruct ((_ ;;; _)%go w1) as [[o2 w3] t2] eqn:H2 in HR. apply Hrec in H2.
    injection HR as <- <- <-. constructor; assumption.
  - unfold ret in HR. injection HR as <- <- <-. constructor; [assumption | constructor].
  - cbn [SecretManager.readResponseBody SecretManager.closed] in HR.
    destruct ((_ ;;; _)%go w1) as [[o2 w3] t2] eqn:H2 in HR. apply Hrec in H2.
    injection HR as <- <- <-. constructor; assumption.
Qed.

Lemma getOIDCToken_events (w : World B) (data : string) :
  ReadFile B w (getenv w "CLIENT_SECRET_FILE") = inr data ->
  events (SecretManager.getOIDCToken B w)
  = events (SecretManager.tokenLoop B 3 0
              (credentials (getenv w "CLIENT_ID") (TrimSpace data) (getenv w "SCOPE"))
              None None w).
Proof.
  intros HF. unfold getenv in HF.
  destruct (SecretManager.getOIDCToken B w) as [[o w'] t] eqn:HR.
  unfold SecretManager.getOIDCToken in HR.
  unfold bind at 1 in HR. unfold Getenv at 1, ask at 1 in HR.
  unfold bind at 1 in HR. unfold SecretManager.readFile at 1 in HR.
  unfold bind at 1, ask at 1 in HR. rewrite HF in HR.
  unfold ret at 1 in HR. cbn beta iota in HR.
  unfold bind at 1, Getenv at 1, ask at 1 in HR.
  unfold bind at 1, Getenv at 1, ask at 1 in HR.
  unfold bind at 1 in HR.
  change (Z.to_nat SecretManager.maxRetries) with 3%nat in HR.
  unfold credentials, getenv.
  match type of HR with
  | context [SecretManager.tokenLoop B 3 0 ?v None None w] =>
      assert (Hv : v = ([("client_id", default EmptyString (LookupEnv B w "CLIENT_ID"));
                         ("client_secret", TrimSpace data);
                         ("grant_type", "client_credentials")]
                        ++ (if isEmpty (default EmptyString (LookupEnv B w "SCOPE")) then []
                            else [("scope", default EmptyString (LookupEnv B w "SCOPE"))]))%list)
        by (destruct (isEmpty (default EmptyString (LookupEnv B w "SCOPE"))); reflexivity);
      rewrite Hv in HR; clear Hv
  end.
  match type of HR with
  | context [SecretManager.tokenLoop B 3 0 ?v None None w] =>
      destruct (SecretManager.tokenLoop B 3 0 v None None w) as [[o1 w1] t1]
  end.
  unfold events. cbn [snd].
  destruct o1 as [[[resp|] [lastError|]]|code]; cbn in HR;
    try (injection HR as <- <- <-; rewrite ?app_nil_r; reflexivity).
  destruct (negb (Z.eqb (StatusCode (SecretManager.reply resp)) 200)).
  - destruct (SecretManager.readResponseBody resp) as [[body e] r'].
    cbn in HR. injection HR as <- <- <-. rewrite ?app_nil_r; reflexivity.
  - destruct (SecretManager.Decode _ _) as [tokenResp [derr|]];
      [|destruct (isEmpty (SecretManager.AccessToken tokenResp))];
      cbn in HR; injection HR as <- <- <-; rewrite ?app_nil_r; reflexivity.
Qed.

Lemma getOIDCToken_events_kinds (w : World B) :
  Forall (fun e => isPost e = true \/ isSleep e = true)
    (events (SecretManager.getOIDCToken B w)).
Proof.
  destruct (getOIDCToken_spec B w) as [(err & _ & ->) | (data & init & p & _ & -> & Hinit & Hp & _)];
    [constructor|].
  apply schedule_Forall; [intros d; right; reflexivity|].
  apply Forall_fmap, Forall_app. split.
  - eapply Forall_impl; [exact Hinit|]. intros e He. cbn. constructor; [|constructor].
    left. destruct e as [? ? [|]| | | | | | |]; try discriminate He; reflexivity.
  - repeat constructor. exact Hp.
Qed.

(** [getOIDCToken] always returns: after the loop either the last error or
    the last response is set. *)
Lemma getOIDCToken_returns (w : World B) :
  exists res, outcome (SecretManager.getOIDCToken B w) = Return res.
Proof.
  destruct (getOIDCToken_spec B w) as [(err & _ & ->) | (data & init & p & _ & _ & _ & _ & _ & _ & ->)];
    eexists; reflexivity.
Qed.

(** X4.  [getOIDCToken] of the program with retries always returns (the
    response it reads after the loop is never nil); and when the client
    secret file cannot be read it returns at once the error of the read,
    wrapped twice, without any request and without a delay. *)
Theorem getOIDCToken_needs_the_client_secret (w : World B) :
  (exists res, outcome (SecretManager.getOIDCToken B w) = Return res)
  /\ (forall err,
         ReadFile B w (getenv w "CLIENT_SECRET_FILE") = inl err ->
         SecretManager.getOIDCToken B w
         = (Return (EmptyString,
                    Some (Errorf_w "failed to read client secret: "
                            (Errorf_w "failed to read file: " err))), w, [])
         /\ Error (Errorf_w "failed to read client secret: "
                     (Errorf_w "failed to read file: " err))
            = "failed to read client secret: failed to read file: " ++ Error err).
Proof.
  split; [apply getOIDCToken_returns|].
  intros err Hf. unfold getenv in Hf. split; [|reflexivity].
  destruct (getOIDCToken_spec B w) as [(err' & Hf' & Hrun) | (data & _ & _ & Hf' & _)].
  - rewrite Hf in Hf'. injection Hf' as <-. exact Hrun.
  - rewrite Hf in Hf'. discriminate Hf'.
Qed.

(** X5.  When the client secret file can be read, the first request of
    [getOIDCToken] goes to [TOKEN_ENDPOINT_URL], and every request of the
    run carries the same form: the client id, the contents of the secret
    file trimmed of white space, the grant type client_credentials, and
    the scope when [SCOPE] is not empty. *)
Theorem token_requests_carry_the_credentials (w : World B) (data : string) :
  ReadFile B w (getenv w "CLIENT_SECRET_FILE") = inr data ->
  (exists r rest,
      events (SecretManager.getOIDCToken B w)
      = EvPost (getenv w "TOKEN_ENDPOINT_URL")
          (credentials (getenv w "CLIENT_ID") (TrimSpace data) (getenv w "SCOPE")) r :: rest)
  /\ Forall (fun e => isPost e = true ->
                      exists u r,
                        e = EvPost u (credentials (getenv w "CLIENT_ID") (TrimSpace data)
                                        (getenv w "SCOPE")) r)
       (events (SecretManager.getOIDCToken B w)).
Proof.
  intros HF. rewrite (getOIDCToken_events w data HF).
  split.
  - set (v := credentials _ _ _).
    rewrite tokenLoop_S, bind_events. unfold Getenv, ask.
    cbn [events outcome final fst snd app]. fold (getenv w "TOKEN_ENDPOINT_URL").
    rewrite bind_events. unfold httpPost.
    destruct (Post B w (getenv w "TOKEN_ENDPOINT_URL") v) as [r w1].
    cbn [events outcome final fst snd app]. eauto.
  - apply tokenLoop_values.
Qed.

(** X6.  [readFile], in the program with retries and in the single-namespace
    program, returns the contents of the file without the ASCII white space
    (blanks, tabs, line feeds) before and after it. *)
Theorem readFile_strips_surrounding_white_space (w : World B) (path pre s post : string) :
  ReadFile B w path = inr (pre ++ s ++ post) ->
  allSpace pre = true -> allSpace post = true -> solid s = true ->
  SecretManager.readFile B path w = (Return (s, None), w, [])
  /\ Simple.readFile B path w = (Return s, w, []).
Proof.
  intros Hf Hpre Hpost Hs.
  unfold SecretManager.readFile, Simple.readFile, bind, ask. rewrite Hf.
  unfold ret. rewrite (TrimSpace_strips pre s post Hpre Hpost Hs). split; reflexivity.
Qed.

(** *** Reconciliation *)
(** X7.  When [manageNamespaceSecret] returns no error, either the Get
    returned a Secret whose [StringData] holds the token and nothing was
    written, or the Get reported that the Secret is not found and the Create
    of the Secret succeeded, or the Get returned a Secret with another token
    and the Update succeeded; the run made no other call. *)
Theorem manageNamespaceSecret_success_means_reconciled (w w' : World B)
    (token ns : string) (t : list Event) :
  SecretManager.manageNamespaceSecret B token ns w = (Return None, w', t) ->
  (exists existing,
      GetSecret B w ns SecretManager.secretName = (inr existing, w')
      /\ index (StringData existing) "token" = token
      /\ t = [EvGet ns SecretManager.secretName])
  \/ (exists err w1,
         GetSecret B w ns SecretManager.secretName = (inl err, w1)
         /\ IsNotFound err = true
         /\ CreateSecret B w1 ns (SecretManager.desiredSecret token) = (None, w')
         /\ t = [EvGet ns SecretManager.secretName;
                 EvCreate ns (SecretManager.desiredSecret token)])
  \/ (exists existing w1,
         GetSecret B w ns SecretManager.secretName = (inr existing, w1)
         /\ index (StringData existing) "token" <> token
         /\ UpdateSecret B w1 ns (SecretManager.desiredSecret token) = (None, w')
         /\ t = [EvGet ns SecretManager.secretName;
                 EvUpdate ns (SecretManager.desiredSecret token)]).
Proof.
  unfold SecretManager.manageNamespaceSecret, bind, secretsGet, call.
  destruct (GetSecret B w ns SecretManager.secretName) as [[err | existing] w1].
  - destruct (IsNotFound err) eqn:Hnf.
    + unfold secretsCreate, call.
      destruct (CreateSecret B w1 ns (SecretManager.desiredSecret token)) as [c w2] eqn:HC.
      intros H. injection H as -> <- <-. right; left. exists err, w1. repeat split; auto.
    + unfold ret. intros H. discriminate H.
  - destruct (String.eqb (index (StringData existing) "token") token) eqn:Heq.
    + unfold ret. intros H. injection H as <- <-. left. exists existing.
      apply String.eqb_eq in Heq. repeat split; auto.
    + unfold secretsUpdate, call.
      destruct (UpdateSecret B w1 ns (SecretManager.desiredSecret token)) as [u w2] eqn:HU.
      intros H. injection H as -> <- <-. right; right. exists existing, w1.
      apply String.eqb_neq in Heq. repeat split; auto.
Qed.

(** [withRetries] in full, from the runs of the function: the second run
    follows a run that returned an error and a delay of 2s, the third
    another such run and a delay of 4s; nothing follows the third. *)
Lemma withRetries_run (fn : M B (option error)) (w : World B) :
  let r1 := fn w in
  let r2 := fn (Sleep B (final r1) (2 * SecretManager.Second)) in
  let r3 := fn (Sleep B (final r2) (4 * SecretManager.Second)) in
  SecretManager.withRetries B fn w
  = if erred (outcome r1) then
      if erred (outcome r2) then
        (retryResult (outcome r3), final r3,
         (events r1 ++ EvSleep (2 * SecretManager.Second)
            :: events r2 ++ EvSleep (4 * SecretManager.Second) :: events r3)%list)
      else (outcome r2, final r2,
            (events r1 ++ EvSleep (2 * SecretManager.Second) :: events r2)%list)
    else r1.
Proof.
  cbv zeta. unfold SecretManager.withRetries.
  change (Z.to_nat SecretManager.maxRetries) with 3%nat.
  assert (Hfirst : forall i n lastError w0,
             SecretManager.retryLoop B (S n) i fn lastError w0
             = match fn w0 with
               | (Return None, w1, t1) => (Return None, w1, t1)
               | (Return (Some err), w1, t1) =>
                   let '(o, w2, t2) :=
                     ((if Z.ltb i (SecretManager.maxRetries - 1)
                       then sleep ((i + 1) * SecretManager.baseRetryDelay) else ret tt) ;;;
                      SecretManager.retryLoop B n (i + 1) fn (Some err))%go w1 in
                   (o, w2, (t1 ++ t2)%list)
               | (Exit code, w1, t1) => (Exit code, w1, t1)
               end).
  { intros i n lastError w0. rewrite retryLoop_S. unfold bind at 1.
    destruct (fn w0) as [[[[err|]|code] w1] t1]; try reflexivity.
    unfold ret. rewrite app_nil_r. reflexivity. }
  rewrite Hfirst. destruct (fn w) as [[[[e1|]|c1] w1] t1];
    cbv [final outcome events erred fst snd]; try reflexivity.
  unfold bind at 1.
  change (Z.ltb 0 (SecretManager.maxRetries - 1)) with true. cbv iota.
  unfold sleep at 1, call at 1. rewrite Hfirst.
  change ((0 + 1) * SecretManager.baseRetryDelay) with (2 * SecretManager.Second).
  destruct (fn (Sleep B w1 (2 * SecretManager.Second))) as [[[[e2|]|c2] w2] t2];
    try reflexivity.
  unfold bind at 1.
  change (Z.ltb (0 + 1) (SecretManager.maxRetries - 1)) with true. cbv iota.
  unfold sleep at 1, call at 1. rewrite Hfirst.
  change ((0 + 1 + 1) * SecretManager.baseRetryDelay) with (4 * SecretManager.Second).
  destruct (fn (Sleep B w2 (4 * SecretManager.Second))) as [[[[e3|]|c3] w3] t3];
    try reflexivity.
  unfold bind at 1.
  change (Z.ltb (0 + 1 + 1) (SecretManager.maxRetries - 1)) with false. cbv iota.
  unfold ret at 1. cbn [SecretManager.retryLoop].
  unfold ret. cbn [app retryResult]. rewrite !app_nil_r. reflexivity.
Qed.

(** X8.  [withRetries] returns at the first run of the function that
    returns no error, be it the first, the second or the third, in the world
    that run left.  When the three runs return an error it returns the error
    of the third, wrapped in the message failed after 3 attempts, in the
    world the third run left.  A delay of 2s follows a first run that
    failed, of 4s a second run that failed, and none the third. *)
Theorem withRetries_gives_up_after_the_third_failure (fn : M B (option error)) (w : World B) :
  let r1 := fn w in
  let r2 := fn (Sleep B (final r1) (2 * SecretManager.Second)) in
  let r3 := fn (Sleep B (final r2) (4 * SecretManager.Second)) in
  (outcome r1 = Return None ->
   SecretManager.withRetries B fn w = (Return None, final r1, events r1))
  /\ (failedRun r1 -> outcome r2 = Return None ->
      SecretManager.withRetries B fn w
      = (Return None, final r2, (events r1 ++ EvSleep (2 * SecretManager.Second) :: events r2)%list))
  /\ (failedRun r1 -> failedRun r2 -> outcome r3 = Return None ->
      SecretManager.withRetries B fn w
      = (Return None, final r3,
         (events r1 ++ EvSleep (2 * SecretManager.Second)
            :: events r2 ++ EvSleep (4 * SecretManager.Second) :: events r3)%list))
  /\ (failedRun r1 -> failedRun r2 ->
      forall err, outcome r3 = Return (Some err) ->
      SecretManager.withRetries B fn w
      = (Return (Some (Errorf_w "failed after 3 attempts: " err)), final r3,
         (events r1 ++ EvSleep (2 * SecretManager.Second)
            :: events r2 ++ EvSleep (4 * SecretManager.Second) :: events r3)%list)).
Proof.
  cbv zeta. pose proof (withRetries_run fn w) as Hrun. cbv zeta in Hrun. rewrite Hrun.
  unfold failedRun. split; [|split; [|split]].
  - intros H1. rewrite H1. cbn [erred]. rewrite <- H1.
    destruct (fn w) as [[o1 w1] t1]. reflexivity.
  - intros [e1 H1] H2. rewrite H1, H2. reflexivity.
  - intros [e1 H1] [e2 H2] H3. rewrite H1, H2, H3. reflexivity.
  - intros [e1 H1] [e2 H2] err H3. rewrite H1, H2, H3. reflexivity.
Qed.

Lemma withRetries_manage_events (token ns : string) (w : World B) :
  Forall (reconcileEvent token ns)
    (events (SecretManager.withRetries B (SecretManager.manageNamespaceSecret B token ns) w)).
Proof.
  destruct (withRetries_spec B (SecretManager.manageNamespaceSecret B token ns) w)
    as (runs & r & Hatt & _ & _ & Hev & _).
  rewrite Hev. apply schedule_Forall.
  - intros d. right; right; right. reflexivity.
  - apply Attempts_runs in Hatt. apply Forall_fmap.
    eapply Forall_impl; [exact Hatt|]. intros run [w' ->]. cbn.
    destruct (manageNamespaceSecret_spec B token ns w') as (res & w'' & rest & -> & Hrest).
    unfold events; cbn [snd]. constructor; [left; reflexivity|].
    destruct Hrest as [-> | [-> | ->]].
    + constructor.
    + constructor; [right; left; reflexivity | constructor].
    + constructor; [right; right; left; reflexivity | constructor].
Qed.

Lemma reconcileEach_events (token : string) (namespaces : list string) :
  forall w : World B,
    Forall (fun e => exists ns, In ns namespaces /\ reconcileEvent token ns e)
      (concat (map (fun nr => events (snd nr)) (reconcileEach token namespaces w))).
Proof.
  induction namespaces as [|ns rest IH]; intros w; [constructor|].
  cbn [reconcileEach map concat snd]. apply Forall_app. split.
  - eapply Forall_impl; [apply withRetries_manage_events|].
    intros e He. exists ns. split; [left; reflexivity | exact He].
  - eapply Forall_impl; [apply IH|].
    intros e (n & Hn & He). exists n. split; [right; exact Hn | exact He].
Qed.

(** [manageSecretsClusterWide], in full. *)
Lemma manageSecretsClusterWide_run (token : string) (w : World B) :
  SecretManager.manageSecretsClusterWide B token w
  = match outcome (SecretManager.getK8sConfig B w) with
    | Return (Some err) =>
        (Return (Some (Errorf_w "failed to get Kubernetes config: " err)), w, [])
    | Return None =>
        match NewForConfig B w with
        | Some err => (Return (Some (Errorf_w "failed to create Kubernetes client: " err)), w, [])
        | None =>
            match ListNamespaces B w with
            | (inl err, w1) =>
                (Return (Some (Errorf_w "failed to list namespaces: "
                                 (Errorf_w "failed to list namespaces: " err))), w1, [EvList])
            | (inr namespaces, w1) =>
                let runs := reconcileEach token namespaces w1 in
                let errorList := omap namespaceError runs in
                (Return match errorList with
                        | [] => None
                        | _ => Some (errorString
                                       ("completed with " ++ Itoa (Z.of_nat (length errorList))
                                        ++ " errors: " ++ fmtErrors errorList))
                        end,
                 fold_left (fun _ nr => final (snd nr)) runs w1,
                 (EvList :: concat (map (fun nr => events (snd nr)) runs)
                    ++ [EvLogCompleted (Z.of_nat (length (List.filter succeeded runs)))
                          (Z.of_nat (length errorList)) (Z.of_nat (length namespaces))])%list)
            end
        end
    | Exit code => (Exit code, w, [])
    end.
Proof.
  unfold SecretManager.manageSecretsClusterWide.
  unfold bind at 1.
  destruct (getK8sConfig_pure B w) as [o Ho]. rewrite Ho.
  unfold outcome; cbn [fst]. destruct o as [err|]; [reflexivity|].
  unfold bind at 1, ask at 1. destruct (NewForConfig B w) as [err|]; [reflexivity|].
  unfold bind at 1, SecretManager.listNamespaces at 1, bind at 1, namespacesList at 1, call at 1.
  destruct (ListNamespaces B w) as [[err | namespaces] w1]; [reflexivity|].
  unfold ret at 1. cbn beta iota.
  unfold bind at 1. rewrite namespaceLoop_spec.
  cbn beta iota zeta. unfold bind at 1, emit at 1.
  destruct (omap namespaceError (reconcileEach token namespaces w1)) as [|e l] eqn:He.
  - simpl. unfold ret. reflexivity.
  - replace (Z.ltb 0 (Z.of_nat (length ([] ++ e :: l)%list))) with true
      by (symmetry; apply Z.ltb_lt; simpl; lia).
    unfold ret. simpl app. reflexivity.
Qed.

Lemma reconcileEach_counts (token : string) (namespaces : list string) (w : World B) :
  (length (List.filter succeeded (reconcileEach token namespaces w))
   + length (omap namespaceError (reconcileEach token namespaces w)))%nat
  = length namespaces.
Proof.
  rewrite <- (reconcileEach_namespaces B token namespaces w) at 3. rewrite length_map.
  pose proof (reconcileEach_runs B token namespaces w) as Hruns.
  induction Hruns as [|[ns r] l (res & rest & Hout & _) _ IH]; [reflexivity|].
  cbn [omap list_omap List.filter]. unfold namespaceError at 1, succeeded at 1.
  cbn [fst snd] in Hout |- *. rewrite Hout.
  destruct res; cbn [length]; lia.
Qed.

Lemma reconcileEvent_not_log (token ns : string) (s e t : Z) :
  ~ reconcileEvent token ns (EvLogCompleted s e t).
Proof. intros [H | [H | [H | H]]]; discriminate H. Qed.

(** X9.  The completion log of [manageSecretsClusterWide] is the last event
    of its run, and its counts add up: the number of successes plus the
    number of errors is the number of namespaces that were listed.  The run
    returns no error exactly when the number of errors is zero. *)
Theorem completion_log_counts_add_up (w : World B) (token : string) (s e t : Z) :
  In (EvLogCompleted s e t) (events (SecretManager.manageSecretsClusterWide B token w)) ->
  s + e = t /\ 0 <= s /\ 0 <= e
  /\ (exists namespaces w1,
         ListNamespaces B w = (inr namespaces, w1) /\ t = Z.of_nat (length namespaces))
  /\ (e = 0 <-> outcome (SecretManager.manageSecretsClusterWide B token w) = Return None)
  /\ last (events (SecretManager.manageSecretsClusterWide B token w))
     = Some (EvLogCompleted s e t).
Proof.
  rewrite manageSecretsClusterWide_run.
  destruct (outcome (SecretManager.getK8sConfig B w)) as [[err|]|code];
    try (intros []).
  destruct (NewForConfig B w) as [err|]; [intros []|].
  destruct (ListNamespaces B w) as [[err | namespaces] w1].
  { intros [H | []]. discriminate H. }
  cbv zeta. unfold events, outcome. cbn [fst snd].
  intros [H | H]; [discriminate H|].
  apply in_app_or in H as [H | [H | []]].
  { exfalso. pose proof (reconcileEach_events token namespaces w1) as Hk.
    rewrite List.Forall_forall in Hk. destruct (Hk _ H) as (ns & _ & Hr).
    exact (reconcileEvent_not_log _ _ _ _ _ Hr). }
  injection H as <- <- <-.
  pose proof (reconcileEach_counts token namespaces w1) as Hc.
  split; [lia|]. split; [lia|]. split; [lia|].
  split; [exists namespaces, w1; split; reflexivity|].
  split.
  - destruct (omap namespaceError (reconcileEach token namespaces w1)) as [|x l];
      cbn [length]; split; intros H; try reflexivity; try discriminate H; lia.
  - rewrite app_comm_cons. apply last_snoc.
Qed.

Lemma run_after_validation (w : World B) :
  SecretManager.validateEnv B w = (Return None, w, []) ->
  SecretManager.run B w
  = match SecretManager.getOIDCToken B w with
    | (Return (_, Some err), w1, t1) =>
        (Return (Some (Errorf_w "failed to retrieve OIDC token: " err)), w1, t1)
    | (Return (token, None), w1, t1) =>
        match SecretManager.manageSecretsClusterWide B token w1 with
        | (Return (Some err), w2, t2) =>
            (Return (Some (Errorf_w "secret management failed: " err)), w2, (t1 ++ t2)%list)
        | (o, w2, t2) => (o, w2, (t1 ++ t2)%list)
        end
    | (Exit code, w1, t1) => (Exit code, w1, t1)
    end.
Proof.
  intros Hv. unfold SecretManager.run. unfold bind at 1. rewrite Hv. cbn [app].
  unfold bind at 1.
  destruct (SecretManager.getOIDCToken B w) as [[[[token [err|]]|code] w1] t1]; cbn;
    try reflexivity.
  - rewrite app_nil_r. reflexivity.
  - unfold bind.
    destruct (SecretManager.manageSecretsClusterWide B token w1) as [[[[err|]|code] w2] t2];
      cbn; rewrite ?app_nil_r; reflexivity.
Qed.

(** X10.  [run] asks nothing of the cluster unless the environment was found
    complete and [getOIDCToken] returned a token, which is then not empty:
    an event that is neither a token request nor a delay implies both.
    Every write of the run is a Create or an Update of the Secret that holds
    that token; the run sends no patch. *)
Theorem run_writes_only_a_fetched_token (w : World B) :
  (forall e, In e (events (SecretManager.run B w)) ->
             isPost e = false -> isSleep e = false ->
             SecretManager.validateEnv B w = (Return None, w, [])
             /\ exists token,
                 outcome (SecretManager.getOIDCToken B w) = Return (token, None)
                 /\ token <> EmptyString)
  /\ (forall e, In e (events (SecretManager.run B w)) -> isWrite e = true ->
         exists token ns,
           outcome (SecretManager.getOIDCToken B w) = Return (token, None)
           /\ (e = EvCreate ns (SecretManager.desiredSecret token)
               \/ e = EvUpdate ns (SecretManager.desiredSecret token))).
Proof.
  assert (Hposts : forall e, In e (events (SecretManager.getOIDCToken B w)) ->
                             isPost e = true \/ isSleep e = true).
  { apply List.Forall_forall, getOIDCToken_events_kinds. }
  assert (Hcases :
            forall e, In e (events (SecretManager.run B w)) ->
              (isPost e = true \/ isSleep e = true)
              \/ (SecretManager.validateEnv B w = (Return None, w, [])
                  /\ exists token,
                      outcome (SecretManager.getOIDCToken B w) = Return (token, None)
                      /\ token <> EmptyString
                      /\ In e (events (SecretManager.manageSecretsClusterWide B token
                                         (final (SecretManager.getOIDCToken B w)))))).
  { intros e. destruct (validateEnv_returns w) as [[err|] Hv].
    { unfold SecretManager.run, bind. rewrite Hv. intros []. }
    rewrite (run_after_validation w Hv).
    destruct (SecretManager.getOIDCToken B w) as [[o1 w1] t1] eqn:HT.
    unfold events in Hposts |- *. cbn [snd] in Hposts |- *.
    destruct o1 as [[token [err|]]|code]; cbn [snd]; try solve [intros Hin; left; auto].
    assert (Htok : token <> EmptyString).
    { pose proof (proj1 (getOIDCToken_token_iff B w token)) as H.
      rewrite HT in H. destruct (H eq_refl) as (? & ? & ? & ? & _ & _ & _ & Hne). exact Hne. }
    destruct (SecretManager.manageSecretsClusterWide B token w1) as [[o2 w2] t2] eqn:HM.
    assert (In e (t1 ++ t2)%list ->
            (isPost e = true \/ isSleep e = true)
            \/ (SecretManager.validateEnv B w = (Return None, w, [])
                /\ exists token0,
                    outcome (Return (token, @None error), w1, t1) = Return (token0, None)
                    /\ token0 <> EmptyString
                    /\ In e (events (SecretManager.manageSecretsClusterWide B token0
                                       (final (Return (token, @None error), w1, t1)))))) as Hgoal.
    { intros [H | H]%in_app_or; [left; auto|]. right. split; [exact Hv|].
      exists token. split; [reflexivity|]. split; [exact Htok|].
      unfold final; cbn [fst snd]. rewrite HM. exact H. }
    destruct o2 as [[err|]|code]; exact Hgoal. }
  split.
  - intros e He Hp Hs. destruct (Hcases e He) as [[H | H] | (Hv & token & Ht & Hne & _)].
    + rewrite H in Hp. discriminate Hp.
    + rewrite H in Hs. discriminate Hs.
    + split; [exact Hv|]. exists token. split; assumption.
  - intros e He Hw. destruct (Hcases e He) as [[H | H] | (Hv & token & Ht & Hne & Hin)].
    + destruct e; discriminate.
    + destruct e; discriminate.
    + exists token. rewrite manageSecretsClusterWide_run in Hin.
      set (w1 := final (SecretManager.getOIDCToken B w)) in Hin.
      destruct (outcome (SecretManager.getK8sConfig B w1)) as [[err|]|code];
        try (destruct Hin).
      destruct (NewForConfig B w1) as [err|]; [destruct Hin|].
      destruct (ListNamespaces B w1) as [[err | namespaces] w2].
      { destruct Hin as [<- | []]. discriminate Hw. }
      cbv zeta in Hin. unfold events in Hin. cbn [snd] in Hin.
      destruct Hin as [<- | Hin]; [discriminate Hw|].
      apply in_app_or in Hin as [Hin | [<- | []]]; [|discriminate Hw].
      pose proof (reconcileEach_events token namespaces w2) as Hk.
      rewrite List.Forall_forall in Hk.
      destruct (Hk _ Hin) as (ns & _ & [-> | [-> | [-> | Hs]]]).
      * discriminate Hw.
      * exists ns. split; [exact Ht | left; reflexivity].
      * exists ns. split; [exact Ht | right; reflexivity].
      * destruct e; discriminate.
Qed.

Lemma manageSecretsClusterWide_returns (token : string) (w : World B) :
  (exists err, outcome (SecretManager.manageSecretsClusterWide B token w) = Return (Some err))
  \/ (outcome (SecretManager.manageSecretsClusterWide B token w) = Return None
      /\ exists pre n,
          events (SecretManager.manageSecretsClusterWide B token w)
          = (pre ++ [EvLogCompleted n 0 n])%list).
Proof.
  rewrite manageSecretsClusterWide_run.
  destruct (getK8sConfig_pure B w) as [o ->]. unfold outcome at 1. cbn [fst].
  destruct o as [err|]; [left; eexists; reflexivity|].
  destruct (NewForConfig B w) as [err|]; [left; eexists; reflexivity|].
  destruct (ListNamespaces B w) as [[err | namespaces] w1]; [left; eexists; reflexivity|].
  cbv zeta. pose proof (reconcileEach_counts token namespaces w1) as Hc.
  destruct (omap namespaceError (reconcileEach token namespaces w1)) as [|x l];
    [|left; eexists; reflexivity].
  right. split; [reflexivity|]. unfold events; cbn [snd].
  cbn [length] in Hc. rewrite Nat.add_0_r in Hc. rewrite Hc.
  eexists (EvList :: _), _. cbn [length]. rewrite <- app_comm_cons. reflexivity.
Qed.

(** X11.  [main] of the program with retries ends with exit code 0 (it
    returns) or 1, never otherwise; with 1 exactly when [run] returned an
    error; and when it returns, the last event is a completion log that
    counts no error and as many successes as namespaces. *)
Theorem main_exit_code_reports_the_run (w : World B) :
  (outcome (SecretManager.main B w) = Return tt \/ outcome (SecretManager.main B w) = Exit 1)
  /\ (outcome (SecretManager.main B w) = Return tt ->
      exists pre n, events (SecretManager.main B w) = (pre ++ [EvLogCompleted n 0 n])%list)
  /\ (outcome (SecretManager.main B w) = Exit 1
      <-> exists err, outcome (SecretManager.run B w) = Return (Some err)).
Proof.
  assert (Hrun : (exists err, outcome (SecretManager.run B w) = Return (Some err))
                 \/ (outcome (SecretManager.run B w) = Return None
                     /\ exists pre n,
                         events (SecretManager.run B w) = (pre ++ [EvLogCompleted n 0 n])%list)).
  { destruct (validateEnv_returns w) as [[err|] Hv].
    { left. unfold SecretManager.run, bind. rewrite Hv. eexists; reflexivity. }
    rewrite (run_after_validation w Hv).
    destruct (getOIDCToken_returns w) as [[token oerr] Ho].
    destruct (SecretManager.getOIDCToken B w) as [[o1 w1] t1].
    unfold outcome in Ho; cbn [fst] in Ho. subst o1.
    destruct oerr as [err|]; [left; eexists; reflexivity|].
    destruct (manageSecretsClusterWide_returns token w1) as [[err He] | (He & pre & n & Hev)];
      destruct (SecretManager.manageSecretsClusterWide B token w1) as [[o2 w2] t2];
      unfold outcome, events in *; cbn [fst snd] in *; subst o2.
    - left; eexists; reflexivity.
    - right. split; [reflexivity|]. exists (t1 ++ pre)%list, n. cbn [snd]. rewrite Hev.
      apply app_assoc. }
  unfold SecretManager.main, bind.
  destruct (SecretManager.run B w) as [[o wr] tr].
  unfold outcome, events in *; cbn [fst snd] in *.
  destruct Hrun as [[err ->] | (-> & pre & n & ->)]; unfold ret, exit; cbn [fst snd];
    rewrite ?app_nil_r.
  - split; [right; reflexivity|]. split; [discriminate|].
    split; [intros _; exists err; reflexivity | reflexivity].
  - split; [left; reflexivity|]. split; [intros _; exists pre, n; reflexivity|].
    split; [discriminate | intros [err H]; discriminate H].
Qed.

End RetryingProgram.
(** ** Token responses *)

Section TokenResponses.

Import TokenJson.
Lemma storeInt_bad v old : notAnInteger v = true -> snd (storeInt v old) = true.
Proof.
  destruct v as [| | lit | | |]; cbn; try reflexivity; try discriminate.
  destruct (parseInt64 lit); [discriminate | reflexivity].
Qed.

Lemma Fetcher_fill_bad (m : list (string * JSON)) (v : JSON) :
  In ("expires_in", v) m -> notAnInteger v = true ->
  forall t, snd (Fetcher.fill m t) = true.
Proof.
  intros Hin Hv. induction m as [|[k x] m IH]; [destruct Hin|]. intros t.
  cbn [Fetcher.fill].
  destruct Hin as [Heq | Hin].
  - injection Heq as -> ->.
    change (matchesField "expires_in" "access_token") with false.
    change (matchesField "expires_in" "expires_in") with true. cbv iota.
    pose proof (storeInt_bad v (Fetcher.ExpiresIn t) Hv) as Hb.
    destruct (storeInt v (Fetcher.ExpiresIn t)) as [z bad]. cbn [snd] in Hb. subst bad.
    destruct (Fetcher.fill m _) as [t' bad']. reflexivity.
  - match goal with
    | |- snd (let '(t1, bad) := ?c in _) = true => destruct c as [t1 bad]
    end.
    specialize (IH Hin t1). destruct (Fetcher.fill m t1) as [t' bad']. cbn [snd] in IH |- *.
    subst bad'. apply orb_true_r.
Qed.

Lemma SecretManager_fill_other (m : list (string * JSON)) (t : SecretManager.TokenResponse) :
  Forall (fun kv => matchesField (fst kv) "access_token" = false) m ->
  SecretManager.fill m t = (t, false).
Proof.
  induction 1 as [|[k v] m Hk _ IH]; [reflexivity|].
  cbn [SecretManager.fill]. cbn [fst] in Hk. rewrite Hk. exact IH.
Qed.

(** X12.  The token response of the cron-job program declares [expires_in]
    as an integer: a body whose member expires_in is a string, a boolean,
    an array, an object, or a number that is not an integer of 64 bits,
    makes [Decode] return an error, also when access_token is present.  The
    program with retries declares access_token only and ignores every other
    member. *)
Theorem expires_in_must_be_an_integer :
  (forall body m v t,
      readValue body = Some (JObject m) ->
      In ("expires_in", v) m -> notAnInteger v = true ->
      snd (Fetcher.Decode body t) = Some UnmarshalTypeError)
  /\ (forall body tok rest,
         readValue body = Some (JObject (("access_token", JString tok) :: rest)) ->
         Forall (fun kv => matchesField (fst kv) "access_token" = false) rest ->
         SecretManager.Decode body (SecretManager.mkTokenResponse EmptyString)
         = (SecretManager.mkTokenResponse tok, None))
  /\ (let body := "{" ++ quoted "access_token" ++ ":" ++ quoted "abc" ++ ","
                  ++ quoted "expires_in" ++ ":" ++ quoted "300" ++ "}" in
      Fetcher.Decode body (Fetcher.mkOIDCTokenResponse EmptyString 0 EmptyString)
      = (Fetcher.mkOIDCTokenResponse "abc" 0 EmptyString, Some UnmarshalTypeError)
      /\ SecretManager.Decode body (SecretManager.mkTokenResponse EmptyString)
         = (SecretManager.mkTokenResponse "abc", None))
  /\ notAnInteger (JNumber "300") = false
  /\ notAnInteger (JNumber "300.5") = true
  /\ notAnInteger (JNumber "3e2") = true
  /\ notAnInteger (JNumber "9223372036854775808") = true.
Proof.
  split; [|split; [|split]].
  - intros body m v t Hr Hin Hv. unfold Fetcher.Decode. rewrite Hr.
    pose proof (Fetcher_fill_bad m v Hin Hv t) as Hb.
    destruct (Fetcher.fill m t) as [t' bad]. cbn [snd] in Hb |- *. subst bad. reflexivity.
  - intros body tok rest Hr Hrest. unfold SecretManager.Decode. rewrite Hr.
    cbn [SecretManager.fill]. change (matchesField "access_token" "access_token") with true.
    cbv iota. cbn [storeString]. rewrite (SecretManager_fill_other rest _ Hrest). reflexivity.
  - cbv zeta. split; vm_compute; reflexivity.
  - repeat split; vm_compute; reflexivity.
Qed.

End TokenResponses.
(** ** The cron-job program *)

Section CronJob.

Variable B : Backend.
Lemma getEnvOrDie_run (w : World B) (key : string) :
  Fetcher.getEnvOrDie B key w
  = if isEmpty (getenv w key) then (Exit 1, w, []) else (Return (getenv w key), w, []).
Proof.
  unfold Fetcher.getEnvOrDie, bind, Getenv, ask, getenv.
  destruct (isEmpty (default EmptyString (LookupEnv B w key))); reflexivity.
Qed.

(** X13.  When one of [OIDC_TOKEN_URL], [OIDC_CLIENT_ID] and
    [OIDC_CLIENT_SECRET] is unset or empty, [main] of the cron-job program
    ends the process with exit code 1 before any request: it makes no call
    and leaves the world as it is. *)
Theorem missing_required_variable_ends_the_process (w : World B) (key : string) :
  In key ["OIDC_TOKEN_URL"; "OIDC_CLIENT_ID"; "OIDC_CLIENT_SECRET"] ->
  getenv w key = EmptyString ->
  Fetcher.main B w = (Exit 1, w, []).
Proof.
  intros Hin Hkey. unfold Fetcher.main.
  assert (Hdie : forall k, Fetcher.getEnvOrDie B k w
                           = if isEmpty (getenv w k) then (Exit 1, w, [])
                             else (Return (getenv w k), w, [])).
  { intros k. unfold Fetcher.getEnvOrDie, bind, Getenv, ask, getenv.
    destruct (isEmpty (default EmptyString (LookupEnv B w k))); reflexivity. }
  assert (Hk : isEmpty (getenv w key) = true) by (rewrite Hkey; reflexivity).
  unfold bind at 1. rewrite Hdie.
  destruct (isEmpty (getenv w "OIDC_TOKEN_URL")) eqn:H1; [reflexivity|].
  unfold bind at 1. rewrite Hdie.
  destruct (isEmpty (getenv w "OIDC_CLIENT_ID")) eqn:H2; [reflexivity|].
  unfold bind at 1. rewrite Hdie.
  destruct (isEmpty (getenv w "OIDC_CLIENT_SECRET")) eqn:H3; [reflexivity|].
  exfalso. destruct Hin as [<- | [<- | [<- | []]]]; congruence.
Qed.

(** X14.  [fetchOIDCToken] makes one request and never retries.  An address
    that does not parse fails before any request; otherwise the run is the
    one request, to the given address, with the grant type, the client id,
    the client secret and the scope (also when the scope is empty).  A
    transport error, or a status other than 200, fails at once; the error
    of a status names the status code and not the body. *)
Theorem fetchOIDCToken_asks_once (w : World B) (tokenURL clientID clientSecret scopes : string) :
  let r := Fetcher.fetchOIDCToken B tokenURL clientID clientSecret scopes w in
  (forall err, NewRequest B w tokenURL = Some err ->
      r = (Return (EmptyString, Some (Errorf_w "failed to create request: " err)), w, []))
  /\ (NewRequest B w tokenURL = None ->
      events r = [EvPost tokenURL (tokenForm clientID clientSecret scopes)
                    (fst (Post B w tokenURL (tokenForm clientID clientSecret scopes)))]
      /\ final r = snd (Post B w tokenURL (tokenForm clientID clientSecret scopes)))
  /\ (forall rep w1,
         NewRequest B w tokenURL = None ->
         Post B w tokenURL (tokenForm clientID clientSecret scopes) = (inr rep, w1) ->
         StatusCode rep <> 200 ->
         outcome r
         = Return (EmptyString,
                   Some (errorString ("failed to fetch token, status code: "
                                      ++ Itoa (StatusCode rep)))))
  /\ (forall err w1,
         NewRequest B w tokenURL = None ->
         Post B w tokenURL (tokenForm clientID clientSecret scopes) = (inl err, w1) ->
         outcome r = Return (EmptyString, Some (Errorf_w "failed to send request: " err))).
Proof.
  cbv zeta. unfold Fetcher.fetchOIDCToken, bind, ask, httpPost.
  fold (tokenForm clientID clientSecret scopes).
  split; [intros err ->; reflexivity|].
  split; [|split].
  - intros ->. destruct (Post B w tokenURL (tokenForm clientID clientSecret scopes)) as [r w1].
    destruct r as [err | resp]; [split; reflexivity|].
    destruct (negb (Z.eqb (StatusCode resp) 200));
      [|destruct (Fetcher.Decode (Content resp) _) as [tr [derr|]];
        [|destruct (isEmpty (Fetcher.AccessToken tr))]];
      split; reflexivity.
  - intros rep w1 -> -> Hne. apply Z.eqb_neq in Hne. rewrite Hne. cbn [negb].
    destruct (CloseErr rep); reflexivity.
  - intros err w1 -> ->. reflexivity.
Qed.

(** What [fetchOIDCToken] returns once the request is answered: the
    deferred function puts an error of [Close] in the place of a nil error
    only. *)
Lemma fetchOIDCToken_answered (w w1 : World B) (tokenURL clientID clientSecret scopes : string)
    (rep : Reply) :
  NewRequest B w tokenURL = None ->
  Post B w tokenURL (tokenForm clientID clientSecret scopes) = (inr rep, w1) ->
  outcome (Fetcher.fetchOIDCToken B tokenURL clientID clientSecret scopes w)
  = Return
      (let res :=
         if negb (Z.eqb (StatusCode rep) 200) then
           (EmptyString,
            Some (errorString ("failed to fetch token, status code: " ++ Itoa (StatusCode rep))))
         else
           match Fetcher.Decode (Content rep)
                   (Fetcher.mkOIDCTokenResponse EmptyString 0 EmptyString) with
           | (_, Some err) =>
               (EmptyString, Some (Errorf_w "failed to decode token response: " err))
           | (tr, None) =>
               if isEmpty (Fetcher.AccessToken tr) then
                 (EmptyString, Some (errorString "access token not found in response"))
               else (Fetcher.AccessToken tr, None)
           end in
       match CloseErr rep, res with
       | Some closeErr, (tok, None) =>
           (tok, Some (Errorf_w "failed to close response body: " closeErr))
       | _, _ => res
       end).
Proof.
  intros HN HP. cbv zeta.
  unfold Fetcher.fetchOIDCToken, bind, ask, httpPost.
  fold (tokenForm clientID clientSecret scopes). rewrite HN, HP.
  destruct (negb (Z.eqb (StatusCode rep) 200)); [reflexivity|].
  destruct (Fetcher.Decode (Content rep) (Fetcher.mkOIDCTokenResponse EmptyString 0 EmptyString))
    as [tr [derr|]]; [reflexivity|].
  destruct (isEmpty (Fetcher.AccessToken tr)); reflexivity.
Qed.

(** X15.  [fetchOIDCToken] returns a token and no error exactly when the
    request was answered with status 200, the body decodes to an access
    token that is not empty, and closing the body succeeds.  When all holds
    but the close fails, it returns the token together with the error of
    the close.  An error of the close never replaces an earlier error:
    whatever the close returns, a status other than 200, a body that does
    not decode and an empty access token each give their own error and no
    token. *)
Theorem fetchOIDCToken_token_iff (w : World B) (tokenURL clientID clientSecret scopes tok : string) :
  let r := Fetcher.fetchOIDCToken B tokenURL clientID clientSecret scopes w in
  (outcome r = Return (tok, None)
   <-> NewRequest B w tokenURL = None
       /\ exists rep w1 tr,
           Post B w tokenURL (tokenForm clientID clientSecret scopes) = (inr rep, w1)
           /\ StatusCode rep = 200
           /\ Fetcher.Decode (Content rep) (Fetcher.mkOIDCTokenResponse EmptyString 0 EmptyString)
              = (tr, None)
           /\ Fetcher.AccessToken tr = tok
           /\ tok <> EmptyString
           /\ CloseErr rep = None)
  /\ (forall rep w1 tr closeErr,
         NewRequest B w tokenURL = None ->
         Post B w tokenURL (tokenForm clientID clientSecret scopes) = (inr rep, w1) ->
         StatusCode rep = 200 ->
         Fetcher.Decode (Content rep) (Fetcher.mkOIDCTokenResponse EmptyString 0 EmptyString)
         = (tr, None) ->
         Fetcher.AccessToken tr <> EmptyString ->
         CloseErr rep = Some closeErr ->
         outcome r
         = Return (Fetcher.AccessToken tr,
                   Some (Errorf_w "failed to close response body: " closeErr)))
  /\ (forall rep w1,
         NewRequest B w tokenURL = None ->
         Post B w tokenURL (tokenForm clientID clientSecret scopes) = (inr rep, w1) ->
         (StatusCode rep <> 200 ->
          outcome r
          = Return (EmptyString,
                    Some (errorString ("failed to fetch token, status code: "
                                       ++ Itoa (StatusCode rep)))))
         /\ (forall tr derr,
                StatusCode rep = 200 ->
                Fetcher.Decode (Content rep)
                  (Fetcher.mkOIDCTokenResponse EmptyString 0 EmptyString)
                = (tr, Some derr) ->
                outcome r
                = Return (EmptyString, Some (Errorf_w "failed to decode token response: " derr)))
         /\ (forall tr,
                StatusCode rep = 200 ->
                Fetcher.Decode (Content rep)
                  (Fetcher.mkOIDCTokenResponse EmptyString 0 EmptyString)
                = (tr, None) ->
                Fetcher.AccessToken tr = EmptyString ->
                outcome r
                = Return (EmptyString, Some (errorString "access token not found in response")))).
Proof.
  cbv zeta. split; [|split].
  - split.
    + intros Hout.
      destruct (NewRequest B w tokenURL) as [rqerr|] eqn:HN.
      { unfold Fetcher.fetchOIDCToken, bind, ask in Hout. rewrite HN in Hout. discriminate Hout. }
      split; [reflexivity|].
      destruct (Post B w tokenURL (tokenForm clientID clientSecret scopes)) as [[perr | rep] w1]
        eqn:HP.
      { unfold Fetcher.fetchOIDCToken, bind, ask, httpPost in Hout.
        fold (tokenForm clientID clientSecret scopes) in Hout.
        rewrite HN, HP in Hout. discriminate Hout. }
      rewrite (fetchOIDCToken_answered w w1 _ _ _ _ rep HN HP) in Hout. cbv zeta in Hout.
      exists rep, w1.
      destruct (Z.eqb (StatusCode rep) 200) eqn:E200; cbn [negb] in Hout;
        [|destruct (CloseErr rep); discriminate Hout].
      apply Z.eqb_eq in E200.
      destruct (Fetcher.Decode (Content rep)
                  (Fetcher.mkOIDCTokenResponse EmptyString 0 EmptyString)) as [tr [derr|]];
        [destruct (CloseErr rep); discriminate Hout|].
      destruct (isEmpty (Fetcher.AccessToken tr)) eqn:HE;
        [destruct (CloseErr rep); discriminate Hout|].
      destruct (CloseErr rep); [discriminate Hout|]. injection Hout as <-.
      exists tr. repeat split; auto. intros H. rewrite H in HE. discriminate HE.
    + intros (HN & rep & w1 & tr & HP & H200 & HD & Htok & Hne & HC).
      rewrite (fetchOIDCToken_answered w w1 _ _ _ _ rep HN HP). cbv zeta.
      rewrite H200, HD, HC, Htok. cbn [Z.eqb negb]. change (Z.eqb 200 200) with true. cbn [negb].
      rewrite (isEmpty_false tok Hne). reflexivity.
  - intros rep w1 tr closeErr HN HP H200 HD Hne HC.
    rewrite (fetchOIDCToken_answered w w1 _ _ _ _ rep HN HP). cbv zeta.
    rewrite H200, HD, HC. change (Z.eqb 200 200) with true. cbn [negb].
    rewrite (isEmpty_false _ Hne). reflexivity.
  - intros rep w1 HN HP.
    rewrite (fetchOIDCToken_answered w w1 _ _ _ _ rep HN HP). cbv zeta.
    split; [|split].
    + intros H200. apply Z.eqb_neq in H200. rewrite H200. destruct (CloseErr rep); reflexivity.
    + intros tr derr H200 HD. rewrite H200, HD. destruct (CloseErr rep); reflexivity.
    + intros tr H200 HD He. rewrite H200, HD, He. destruct (CloseErr rep); reflexivity.
Qed.

(** X16.  [createOrUpdateSecret] of the cron-job program takes an error of
    the Get for an absent Secret when its text holds the words not found,
    whatever its kind: it then creates the Secret, and wraps the error of a
    Create that fails.  Any other error of the Get is returned, wrapped,
    and nothing is written. *)
Theorem not_found_is_recognised_by_its_text (w w1 : World B)
    (ns name key token : string) (err : error) :
  GetSecret B w ns name = (inl err, w1) ->
  let r := Fetcher.createOrUpdateSecret B ns name key token w in
  ((exists a b, Error err = a ++ "not found" ++ b) ->
   events r = [EvGet ns name; EvCreate ns (Fetcher.newSecret ns name key token)]
   /\ final r = snd (CreateSecret B w1 ns (Fetcher.newSecret ns name key token))
   /\ outcome r
      = Return match fst (CreateSecret B w1 ns (Fetcher.newSecret ns name key token)) with
               | Some createErr =>
                   Some (Errorf_w ("failed to create secret '" ++ name ++ "' in namespace '"
                                   ++ ns ++ "': ") createErr)
               | None => None
               end)
  /\ (Contains (Error err) "not found" = false ->
      r = (Return (Some (Errorf_w ("failed to get secret '" ++ name ++ "' in namespace '"
                                   ++ ns ++ "': ") err)), w1, [EvGet ns name])).
Proof.
  intros Hget. cbv zeta. unfold Fetcher.createOrUpdateSecret, bind, secretsGet, call.
  rewrite Hget. split.
  - intros (a & b & Herr). rewrite Herr, Contains_app. unfold secretsCreate, call.
    destruct (CreateSecret B w1 ns (Fetcher.newSecret ns name key token)) as [[ce|] w2];
      repeat split; reflexivity.
  - intros ->. reflexivity.
Qed.

Lemma createOrUpdateSecret_success (ns name key token : string) (w w' : World B)
    (t : list Event) :
  Fetcher.createOrUpdateSecret B ns name key token w = (Return None, w', t) ->
  exists e, t = [EvGet ns name; e] /\ isWrite e = true /\ eventNamespace e = Some ns.
Proof.
  unfold Fetcher.createOrUpdateSecret, bind, secretsGet, call.
  destruct (GetSecret B w ns name) as [[err | existing] w1].
  - destruct (Contains (Error err) "not found"); [|discriminate].
    unfold secretsCreate, call.
    destruct (CreateSecret B w1 ns _) as [[ce|] w2]; [discriminate|].
    intros H. injection H as _ <-. eexists. repeat split; reflexivity.
  - unfold secretsPatch, call.
    destruct (PatchSecret B w1 ns name _) as [[pe|] w2]; [discriminate|].
    intros H. injection H as _ <-. eexists. repeat split; reflexivity.
Qed.

(** X17.  When [processSecretsInNamespaces] returns no error, its run is, for
    each namespace of the list in order (a namespace listed twice is
    processed twice), a Get followed by one write in that namespace. *)
Theorem processed_namespaces_get_one_write_each (l : list string) (name key token : string) :
  forall (w w' : World B) (t : list Event),
    Fetcher.processSecretsInNamespaces B l name key token w = (Return None, w', t) ->
    map eventNamespace (List.filter isWrite t) = map Some l
    /\ map eventNamespace t = flat_map (fun ns => [Some ns; Some ns]) l
    /\ length (List.filter isWrite t) = length l.
Proof.
  induction l as [|ns rest IH]; intros w w' t.
  - cbn. intros H. injection H as _ <-. repeat split; reflexivity.
  - rewrite process_cons. unfold bind at 1, ask at 1.
    destruct (ContextErr B w); [discriminate|].
    unfold bind at 1.
    destruct (Fetcher.createOrUpdateSecret B ns name key token w) as [[o1 w1] t1] eqn:HC.
    destruct o1 as [[err|]|code].
    + unfold bind, ask. destruct (OpContextErr B w1) as [[|]|];
        try discriminate; destruct (ContextErr B w1) as [[|]|]; discriminate.
    + destruct (createOrUpdateSecret_success _ _ _ _ _ _ _ HC) as (e & -> & He & Hn).
      destruct (Fetcher.processSecretsInNamespaces B rest name key token w1)
        as [[o2 w2] t2] eqn:HP.
      intros H. injection H as -> <- <-.
      destruct (IH _ _ _ HP) as (H1 & H2 & H3).
      cbn [app List.filter isWrite map eventNamespace flat_map]. rewrite He.
      cbn [map length]. rewrite H1, H2, H3, Hn. repeat split; reflexivity.
    + discriminate.
Qed.

Lemma main_after_setup (w w1 : World B)
    (tokenURL clientID clientSecret accessToken : string) (t1 : list Event) :
  LookupEnv B w "OIDC_TOKEN_URL" = Some tokenURL -> tokenURL <> EmptyString ->
  LookupEnv B w "OIDC_CLIENT_ID" = Some clientID -> clientID <> EmptyString ->
  LookupEnv B w "OIDC_CLIENT_SECRET" = Some clientSecret -> clientSecret <> EmptyString ->
  Fetcher.fetchOIDCToken B tokenURL clientID clientSecret
    (default Fetcher.defaultScopes (LookupEnv B w "OIDC_SCOPES")) w
  = (Return (accessToken, None), w1, t1) ->
  InClusterConfig B w1 = None ->
  NewForConfig B w1 = None ->
  Fetcher.main B w
  = match Fetcher.resolveNamespaces B w1 with
    | (Return (Some namespacesToProcess), w2, t2) =>
        let p := Fetcher.processSecretsInNamespaces B namespacesToProcess
                   (default Fetcher.defaultSecretName (LookupEnv B w "K8S_SECRET_NAME"))
                   (default Fetcher.defaultSecretKey (LookupEnv B w "K8S_SECRET_KEY"))
                   accessToken w2 in
        (match outcome p with Return _ => Return tt | Exit code => Exit code end,
         final p, (t1 ++ t2 ++ events p)%list)
    | (Return None, w2, t2) => (Return tt, w2, (t1 ++ t2)%list)
    | (Exit code, w2, t2) => (Exit code, w2, (t1 ++ t2)%list)
    end.
Proof.
  intros Hurl Hurl' Hid Hid' Hsec Hsec' Hfetch Hcfg Hnew.
  unfold Fetcher.main.
  unfold bind at 1. rewrite (getEnvOrDie_set B w _ _ Hurl Hurl').
  unfold bind at 1. rewrite (getEnvOrDie_set B w _ _ Hid Hid').
  unfold bind at 1. rewrite (getEnvOrDie_set B w _ _ Hsec Hsec').
  unfold bind at 1. rewrite getEnv_pure.
  unfold bind at 1. rewrite getEnv_pure.
  unfold bind at 1. rewrite getEnv_pure.
  unfold bind at 1. rewrite Hfetch.
  unfold bind at 1.
  assert (Hk : Fetcher.getKubeClient B w1 = (Return None, w1, [])).
  { unfold Fetcher.getKubeClient, bind, ask. rewrite Hcfg, Hnew. reflexivity. }
  rewrite Hk.
  unfold bind at 1.
  destruct (Fetcher.resolveNamespaces B w1) as [[[[l|]|code] w2] t2]; cbn [app].
  - destruct l as [|ns rest].
    + cbn. rewrite !app_nil_r. reflexivity.
    + cbn [length Nat.eqb]. unfold bind.
      destruct (Fetcher.processSecretsInNamespaces B (ns :: rest) _ _ accessToken w2)
        as [[[o|code] w3] t3]; cbn; rewrite ?app_nil_r; reflexivity.
  - cbn. rewrite ?app_nil_r. reflexivity.
  - cbn. reflexivity.
Qed.

(** X18.  When [TARGET_NAMESPACES] is unset or empty, [main] lists the
    namespaces of the cluster once and processes the namespaces listed, in
    that order, with the Secret name and key of the environment or their
    defaults; [main] returns normally whatever [processSecretsInNamespaces]
    returns, and ends with the exit code of a fatal error inside it.  When
    the listing fails, no Secret is touched: the process ends with code 1,
    unless the deadline was not exceeded and the shutdown signal came, in
    which case [main] returns. *)
Theorem unset_targets_process_the_listed_namespaces (w w1 : World B)
    (tokenURL clientID clientSecret accessToken : string) (t1 : list Event) :
  LookupEnv B w "OIDC_TOKEN_URL" = Some tokenURL -> tokenURL <> EmptyString ->
  LookupEnv B w "OIDC_CLIENT_ID" = Some clientID -> clientID <> EmptyString ->
  LookupEnv B w "OIDC_CLIENT_SECRET" = Some clientSecret -> clientSecret <> EmptyString ->
  Fetcher.fetchOIDCToken B tokenURL clientID clientSecret
    (default Fetcher.defaultScopes (LookupEnv B w "OIDC_SCOPES")) w
  = (Return (accessToken, None), w1, t1) ->
  InClusterConfig B w1 = None ->
  NewForConfig B w1 = None ->
  getenv w1 Fetcher.TargetNamespacesEnvVar = EmptyString ->
  (forall names w2,
      ListNamespaces B w1 = (inr names, w2) ->
      let p := Fetcher.processSecretsInNamespaces B names
                 (default Fetcher.defaultSecretName (LookupEnv B w "K8S_SECRET_NAME"))
                 (default Fetcher.defaultSecretKey (LookupEnv B w "K8S_SECRET_KEY"))
                 accessToken w2 in
      Fetcher.main B w
      = (match outcome p with Return _ => Return tt | Exit code => Exit code end,
         final p, (t1 ++ EvList :: events p)%list))
  /\ (forall err w2,
         ListNamespaces B w1 = (inl err, w2) ->
         events (Fetcher.main B w) = (t1 ++ [EvList])%list
         /\ final (Fetcher.main B w) = w2
         /\ outcome (Fetcher.main B w)
            = match OpContextErr B w2, ContextErr B w2 with
              | Some DeadlineExceeded, _ => Exit 1
              | _, Some Canceled => Return tt
              | _, _ => Exit 1
              end).
Proof.
  intros Hurl Hurl' Hid Hid' Hsec Hsec' Hfetch Hcfg Hnew Htarget.
  rewrite (main_after_setup w w1 tokenURL clientID clientSecret accessToken t1)
    by assumption.
  unfold getenv in Htarget.
  split.
  - intros names w2 Hlist.
    assert (Hr : Fetcher.resolveNamespaces B w1 = (Return (Some names), w2, [EvList])).
    { unfold Fetcher.resolveNamespaces, bind, Getenv, ask. rewrite Htarget. cbn [isEmpty negb].
      unfold Fetcher.listNamespaces, bind, namespacesList, call. rewrite Hlist. reflexivity. }
    rewrite Hr. reflexivity.
  - intros err w2 Hlist.
    assert (Hr : Fetcher.resolveNamespaces B w1
                 = (match OpContextErr B w2, ContextErr B w2 with
                    | Some DeadlineExceeded, _ => Exit 1
                    | _, Some Canceled => Return None
                    | _, _ => Exit 1
                    end, w2, [EvList])).
    { unfold Fetcher.resolveNamespaces, bind, Getenv, ask. rewrite Htarget. cbn [isEmpty negb].
      unfold Fetcher.listNamespaces, bind, namespacesList, call. rewrite Hlist.
      unfold ret, Fetcher.Fatalf, exit.
      destruct (OpContextErr B w2) as [[|]|]; try reflexivity;
        destruct (ContextErr B w2) as [[|]|]; reflexivity. }
    rewrite Hr.
    destruct (OpContextErr B w2) as [[|]|]; try (repeat split; reflexivity);
      destruct (ContextErr B w2) as [[|]|]; repeat split; reflexivity.
Qed.

Lemma process_events_kinds (l : list string) (name key token : string) :
  forall w : World B,
    Forall (fun e => exists ns, In ns l /\ patchEvent name key token ns e)
      (events (Fetcher.processSecretsInNamespaces B l name key token w)).
Proof.
  induction l as [|ns rest IH]; intros w; [constructor|].
  destruct (Fetcher.processSecretsInNamespaces B (ns :: rest) name key token w)
    as [[o w'] t] eqn:HR.
  unfold events; cbn [snd]. rewrite process_cons in HR.
  unfold bind at 1, ask at 1 in HR.
  destruct (ContextErr B w); [injection HR as <- <- <-; constructor|].
  unfold bind at 1 in HR.
  destruct (createOrUpdateSecret_spec B ns name key token w) as (res & w1 & t1 & Hc & Ht).
  rewrite Hc in HR.
  assert (Hhere : Forall (fun e => exists n, In n (ns :: rest) /\ patchEvent name key token n e)
                    (EvGet ns name :: t1)).
  { constructor; [exists ns; split; [left; reflexivity | left; reflexivity]|].
    destruct Ht as [-> | [-> | ->]]; [constructor| |];
      (constructor; [|constructor]); exists ns; (split; [left; reflexivity|]).
    - right; left; reflexivity.
    - right; right; reflexivity. }
  destruct res as [err|].
  - assert (t = (EvGet ns name :: t1)%list) as ->; [|exact Hhere].
    unfold bind, ask in HR. destruct (OpContextErr B w1) as [[|]|];
      try (injection HR as <- <- <-; cbn; rewrite ?app_nil_r; reflexivity);
      destruct (ContextErr B w1) as [[|]|];
      injection HR as <- <- <-; cbn; rewrite ?app_nil_r; reflexivity.
  - specialize (IH w1).
    destruct (Fetcher.processSecretsInNamespaces B rest name key token w1) as [[o2 w2] t2].
    injection HR as <- <- <-. unfold events in IH; cbn [snd] in IH.
    change (Forall (fun e => exists n, In n (ns :: rest) /\ patchEvent name key token n e)
              ((EvGet ns name :: t1) ++ t2)).
    apply Forall_app. split; [exact Hhere|].
    eapply Forall_impl; [exact IH|]. intros e (n & Hn & He). exists n. split; [right; exact Hn | exact He].
Qed.

Lemma fetchOIDCToken_returns (tokenURL clientID clientSecret scopes : string) (w : World B) :
  exists tok oerr w1 t1,
    Fetcher.fetchOIDCToken B tokenURL clientID clientSecret scopes w = (Return (tok, oerr), w1, t1)
    /\ Forall (fun e => isPost e = true) t1
    /\ (oerr = None -> tok <> EmptyString).
Proof.
  unfold Fetcher.fetchOIDCToken, bind, ask, httpPost.
  destruct (NewRequest B w tokenURL);
    [eexists _, _, _, _; split; [reflexivity | split; [constructor | discriminate]]|].
  match goal with |- context [Post B w ?u ?v] => destruct (Post B w u v) as [[err | resp] w2] end;
    [eexists _, _, _, _; split; [reflexivity | split; [repeat constructor | discriminate]]|].
  destruct (negb (Z.eqb (StatusCode resp) 200));
    [|destruct (Fetcher.Decode (Content resp) _) as [tr [derr|]];
      [|destruct (isEmpty (Fetcher.AccessToken tr)) eqn:HE]];
    destruct (CloseErr resp); unfold ret; cbn [app];
    eexists _, _, _, _; (split; [reflexivity | split; [repeat constructor | try discriminate]]).
  intros _ H. rewrite H in HE. discriminate HE.
Qed.

Lemma getKubeClient_run (w : World B) :
  exists res, Fetcher.getKubeClient B w = (Return res, w, [])
              /\ (res = None -> InClusterConfig B w = None /\ NewForConfig B w = None).
Proof.
  unfold Fetcher.getKubeClient, bind, ask.
  destruct (InClusterConfig B w); [eexists; split; [reflexivity | discriminate]|].
  destruct (NewForConfig B w); eexists; (split; [reflexivity|]); [discriminate | auto].
Qed.

Lemma resolveNamespaces_events (w : World B) :
  events (Fetcher.resolveNamespaces B w) = []
  \/ events (Fetcher.resolveNamespaces B w) = [EvList].
Proof.
  unfold Fetcher.resolveNamespaces, bind, Getenv, ask.
  destruct (negb (isEmpty _)); [left; reflexivity|].
  unfold Fetcher.listNamespaces, bind, namespacesList, call.
  destruct (ListNamespaces B w) as [[err | names] w1]; [|right; reflexivity].
  unfold ret, Fetcher.Fatalf, exit. cbn [app].
  destruct (OpContextErr B w1) as [[|]|]; try (right; reflexivity);
    destruct (ContextErr B w1) as [[|]|]; right; reflexivity.
Qed.

(** X19.  [main] of the cron-job program asks nothing of the cluster unless
    [fetchOIDCToken] returned a token and no error, the token being then not
    empty, and the in-cluster configuration was found.  Every event that is
    not the token request is the listing of the namespaces, or a Get, a
    Create or a merge patch of the Secret named by the environment, with
    that token. *)
Theorem fetcher_writes_only_a_fetched_token (w : World B) :
  let name := default Fetcher.defaultSecretName (LookupEnv B w "K8S_SECRET_NAME") in
  let key := default Fetcher.defaultSecretKey (LookupEnv B w "K8S_SECRET_KEY") in
  let fetch :=
    Fetcher.fetchOIDCToken B (getenv w "OIDC_TOKEN_URL") (getenv w "OIDC_CLIENT_ID")
      (getenv w "OIDC_CLIENT_SECRET")
      (default Fetcher.defaultScopes (LookupEnv B w "OIDC_SCOPES")) w in
  forall e, In e (events (Fetcher.main B w)) -> isPost e = false ->
    exists token,
      outcome fetch = Return (token, None)
      /\ token <> EmptyString
      /\ InClusterConfig B (final fetch) = None
      /\ (e = EvList \/ exists ns, patchEvent name key token ns e).
Proof.
  intros name key fetch e.
  destruct (Fetcher.main B w) as [[o wf] t] eqn:HR. unfold events; cbn [snd].
  unfold Fetcher.main in HR.
  unfold bind at 1 in HR. rewrite getEnvOrDie_run in HR.
  destruct (isEmpty (getenv w "OIDC_TOKEN_URL")); [injection HR as <- <- <-; intros []|].
  unfold bind at 1 in HR. rewrite getEnvOrDie_run in HR.
  destruct (isEmpty (getenv w "OIDC_CLIENT_ID")); [injection HR as <- <- <-; intros []|].
  unfold bind at 1 in HR. rewrite getEnvOrDie_run in HR.
  destruct (isEmpty (getenv w "OIDC_CLIENT_SECRET")); [injection HR as <- <- <-; intros []|].
  unfold bind at 1 in HR. rewrite getEnv_pure in HR.
  unfold bind at 1 in HR. rewrite getEnv_pure in HR.
  unfold bind at 1 in HR. rewrite getEnv_pure in HR.
  fold name key in HR.
  unfold bind at 1 in HR. fold fetch in HR.
  destruct (fetchOIDCToken_returns (getenv w "OIDC_TOKEN_URL") (getenv w "OIDC_CLIENT_ID")
              (getenv w "OIDC_CLIENT_SECRET")
              (default Fetcher.defaultScopes (LookupEnv B w "OIDC_SCOPES")) w)
    as (tok & oerr & w1 & t1 & Hfetch & Hposts & Htok).
  fold fetch in Hfetch. rewrite Hfetch in HR |- *.
  unfold outcome, final; cbn [fst snd].
  rewrite List.Forall_forall in Hposts.
  destruct oerr as [ferr|].
  { cbn in HR. injection HR as <- <- <-. rewrite app_nil_r.
    intros Hin Hp. rewrite (Hposts _ Hin) in Hp. discriminate Hp. }
  specialize (Htok eq_refl).
  unfold bind at 1 in HR.
  destruct (getKubeClient_run w1) as (kres & Hk & Hcfg). rewrite Hk in HR.
  destruct kres as [kerr|].
  { cbn in HR. injection HR as <- <- <-. rewrite app_nil_r.
    intros Hin Hp. rewrite (Hposts _ Hin) in Hp. discriminate Hp. }
  destruct (Hcfg eq_refl) as [Hin_cluster _].
  unfold bind at 1 in HR.
  pose proof (resolveNamespaces_events w1) as Hres.
  destruct (Fetcher.resolveNamespaces B w1) as [[ro w2] t2].
  unfold events in Hres; cbn [snd] in Hres.
  assert (Hlist : forall x, In x t2 -> x = EvList).
  { intros x Hx. destruct Hres as [-> | ->]; [destruct Hx | destruct Hx as [<- | []]; reflexivity]. }
  assert (Hgoal : forall t3,
             Forall (fun x => exists ns, patchEvent name key tok ns x) t3 ->
             In e (t1 ++ [] ++ t2 ++ t3)%list -> isPost e = false ->
             exists token,
               Return (tok, @None error) = Return (token, None)
               /\ token <> EmptyString
               /\ InClusterConfig B w1 = None
               /\ (e = EvList \/ exists ns, patchEvent name key token ns e)).
  { intros t3 H3 Hin Hp. exists tok. split; [reflexivity|]. split; [exact Htok|].
    split; [exact Hin_cluster|].
    apply in_app_or in Hin as [Hin | Hin].
    { rewrite (Hposts _ Hin) in Hp. discriminate Hp. }
    cbn [app] in Hin. apply in_app_or in Hin as [Hin | Hin]; [left; apply Hlist; exact Hin|].
    right. rewrite List.Forall_forall in H3. exact (H3 _ Hin). }
  destruct ro as [[l|]|code].
  - destruct (Nat.eqb (length l) 0).
    + cbn in HR. injection HR as <- <- <-. rewrite app_nil_r.
      intros Hin. apply (Hgoal []); [constructor|]. rewrite app_nil_r. exact Hin.
    + unfold bind in HR.
      pose proof (process_events_kinds l name key tok w2) as Hk3.
      destruct (Fetcher.processSecretsInNamespaces B l name key tok w2) as [[[po|pcode] w3] t3];
        unfold events in Hk3; cbn [snd] in Hk3; cbn in HR; injection HR as <- <- <-;
        rewrite ?app_nil_r; intros Hin; apply (Hgoal t3); try exact Hin;
        (eapply Forall_impl; [exact Hk3|]; intros x (n & _ & Hx); exists n; exact Hx).
  - cbn in HR. injection HR as <- <- <-. rewrite app_nil_r.
    intros Hin. apply (Hgoal []); [constructor|]. rewrite app_nil_r. exact Hin.
  - cbn in HR. injection HR as <- <- <-.
    intros Hin. apply (Hgoal []); [constructor|]. rewrite app_nil_r. exact Hin.
Qed.

(** X20.  When the shutdown signal has come by the time
    [processSecretsInNamespaces] reaches a namespace, it returns the error
    of the context at once: neither that namespace nor a later one is
    touched. *)
Theorem shutdown_signal_stops_before_the_next_namespace
    (pre : list string) (ns : string) (post : list string) (name key token : string)
    (w w1 : World B) (t1 : list Event) (c : CtxErr) :
  Fetcher.processSecretsInNamespaces B pre name key token w = (Return None, w1, t1) ->
  ContextErr B w1 = Some c ->
  Fetcher.processSecretsInNamespaces B (pre ++ ns :: post) name key token w
  = (Return (Some (contextError c)), w1, t1)
  /\ Forall (fun e => exists n, eventNamespace e = Some n /\ In n pre) t1.
Proof.
  intros Hpre Hctx. split.
  - rewrite (process_app B pre (ns :: post) name key token w w1 t1 Hpre).
    rewrite process_cons. unfold bind, ask, ret. rewrite Hctx.
    unfold outcome, final, events. cbn [fst snd]. rewrite app_nil_r. reflexivity.
  - pose proof (process_events B pre name key token w) as H. rewrite Hpre in H. exact H.
Qed.

End CronJob.
(** ** Base64 and the stored Secret *)
Lemma In_bytes256 (x : N) : (x < 256)%N -> In x bytes256.
Proof.
  intros H. unfold bytes256. rewrite <- (N2Nat.id x). apply List.in_map.
  apply in_seq. lia.
Qed.

Lemma In_sextets (x : N) : (x < 64)%N -> In x sextets.
Proof.
  intros H. unfold sextets. rewrite <- (N2Nat.id x). apply List.in_map.
  apply in_seq. lia.
Qed.

Lemma byte_lt (a : ascii) : (byte a < 256)%N.
Proof. apply N_ascii_bounded. Qed.

Lemma dec_enc_all : forallb okDec sextets = true.
Proof. vm_compute. reflexivity. Qed.

Lemma dec_enc (n : N) : (n < 64)%N -> Base64.dec (Base64.enc n) = Some n.
Proof.
  intros H. pose proof dec_enc_all as Hall. rewrite forallb_forall in Hall.
  specialize (Hall n (In_sextets n H)). unfold okDec in Hall.
  destruct (Base64.dec (Base64.enc n)) as [m|]; [|discriminate].
  apply N.eqb_eq in Hall. subst m. reflexivity.
Qed.

Lemma ok1_all : forallb (fun x => forallb (ok1 x) bytes256) bytes256 = true.
Proof. vm_compute. reflexivity. Qed.

Lemma ok2_all :
  forallb (fun p => forallb (fun y => forallb (ok2 p y) bytes256) bytes256) [0; 1; 2; 3]%N = true.
Proof. vm_compute. reflexivity. Qed.

Lemma ok3_all : forallb (fun y => forallb (ok3 y) bytes256) bytes256 = true.
Proof. vm_compute. reflexivity. Qed.

Lemma okLow_all : forallb okLow bytes256 = true.
Proof. vm_compute. reflexivity. Qed.

Lemma group_first (x y : N) :
  (x < 256)%N -> (y < 256)%N ->
  (s1 x < 64)%N /\ (s2 x y < 64)%N
  /\ N.land (N.lor (N.shiftl (s1 x) 2) (N.shiftr (s2 x y) 4)) 255 = x.
Proof.
  intros Hx Hy. pose proof ok1_all as H. rewrite forallb_forall in H.
  specialize (H x (In_bytes256 x Hx)). rewrite forallb_forall in H.
  specialize (H y (In_bytes256 y Hy)). unfold ok1 in H.
  apply andb_prop in H as [[H1 H2]%andb_prop H3].
  apply N.ltb_lt in H1, H2. apply N.eqb_eq in H3. auto.
Qed.

Lemma group_second (x y z : N) :
  (x < 256)%N -> (y < 256)%N -> (z < 256)%N ->
  (s3 y z < 64)%N
  /\ N.land (N.lor (N.shiftl (s2 x y) 4) (N.shiftr (s3 y z) 2)) 255 = y.
Proof.
  intros Hx Hy Hz.
  pose proof okLow_all as HL. rewrite forallb_forall in HL.
  specialize (HL x (In_bytes256 x Hx)). unfold okLow in HL.
  apply andb_prop in HL as [HL1 HL2]. apply N.ltb_lt in HL1. apply N.eqb_eq in HL2.
  unfold s2 at 1. rewrite HL2.
  assert (Hp : In (N.land x 3) [0; 1; 2; 3]%N).
  { destruct (N.land x 3) as [|[[|[]|]|[|[]|]|]]; cbn; auto; lia. }
  pose proof ok2_all as H. rewrite forallb_forall in H.
  specialize (H _ Hp). rewrite forallb_forall in H.
  specialize (H y (In_bytes256 y Hy)). rewrite forallb_forall in H.
  specialize (H z (In_bytes256 z Hz)). unfold ok2 in H.
  apply andb_prop in H as [H1 H2]. apply N.ltb_lt in H1. apply N.eqb_eq in H2. auto.
Qed.

Lemma group_third (y z : N) :
  (y < 256)%N -> (z < 256)%N ->
  (s4 z < 64)%N /\ N.land (N.lor (N.shiftl (s3 y z) 6) (s4 z)) 255 = z.
Proof.
  intros Hy Hz. pose proof ok3_all as H. rewrite forallb_forall in H.
  specialize (H y (In_bytes256 y Hy)). rewrite forallb_forall in H.
  specialize (H z (In_bytes256 z Hz)). unfold ok3 in H.
  apply andb_prop in H as [H1 H2]. apply N.ltb_lt in H1. apply N.eqb_eq in H2. auto.
Qed.

Lemma chr_byte (n : N) (a : ascii) : N.land n 255 = byte a -> Base64.chr n = a.
Proof. intros H. unfold Base64.chr. rewrite H. apply ascii_N_embedding. Qed.

Lemma dec_pad : Base64.dec "="%char = None.
Proof. reflexivity. Qed.

Lemma Base64_round_trip_bounded (n : nat) :
  forall s, (String.length s <= n)%nat -> Base64.DecodeString (Base64.EncodeToString s) = Some s.
Proof.
  induction n as [|n IH]; intros s Hlen.
  { destruct s; [reflexivity | cbn in Hlen; lia]. }
  destruct s as [|a [|b [|c r]]]; [reflexivity| | |].
  - (* one byte *)
    cbn [Base64.EncodeToString].
    destruct (group_first (byte a) 0 (byte_lt a) ltac:(lia)) as (H1 & H2 & H3).
    unfold s2 in H2, H3. change (N.shiftr 0 4) with 0%N in H2, H3. rewrite N.lor_0_r in H2, H3.
    unfold s1 in H1, H3.
    cbn [Base64.DecodeString]. rewrite (dec_enc _ H1), (dec_enc _ H2), dec_pad.
    cbn [Ascii.eqb Bool.eqb andb isEmpty]. rewrite (chr_byte _ a H3). reflexivity.
  - (* two bytes *)
    cbn [Base64.EncodeToString].
    destruct (group_first (byte a) (byte b) (byte_lt a) (byte_lt b)) as (H1 & H2 & H3).
    destruct (group_second (byte a) (byte b) 0 (byte_lt a) (byte_lt b) ltac:(lia)) as (H4 & H5).
    unfold s3 in H4, H5. change (N.shiftr 0 6) with 0%N in H4, H5. rewrite N.lor_0_r in H4, H5.
    unfold s1, s2 in *.
    cbn [Base64.DecodeString]. rewrite (dec_enc _ H1), (dec_enc _ H2), (dec_enc _ H4), dec_pad.
    cbn [Ascii.eqb Bool.eqb andb isEmpty]. rewrite (chr_byte _ a H3), (chr_byte _ b H5).
    reflexivity.
  - (* a full group *)
    cbn [Base64.EncodeToString].
    destruct (group_first (byte a) (byte b) (byte_lt a) (byte_lt b)) as (H1 & H2 & H3).
    destruct (group_second (byte a) (byte b) (byte c) (byte_lt a) (byte_lt b) (byte_lt c))
      as (H4 & H5).
    destruct (group_third (byte b) (byte c) (byte_lt b) (byte_lt c)) as (H6 & H7).
    unfold s1, s2, s3, s4 in *.
    cbn [Base64.DecodeString].
    rewrite (dec_enc _ H1), (dec_enc _ H2), (dec_enc _ H4), (dec_enc _ H6).
    rewrite IH by (cbn in Hlen; lia).
    rewrite (chr_byte _ a H3), (chr_byte _ b H5), (chr_byte _ c H7). reflexivity.
Qed.

(** Decoding the base64 text of a byte string gives the byte string back. *)
Lemma DecodeString_EncodeToString (s : string) :
  Base64.DecodeString (Base64.EncodeToString s) = Some s.
Proof. apply (Base64_round_trip_bounded (String.length s)). lia. Qed.

(** X21.  The base64 text that [createOrUpdateSecret] puts in its patch
    decodes to the token: [DecodeString] gives back every byte string that
    [EncodeToString] has encoded, so that two tokens with the same encoding
    are the same token. *)
Theorem base64_text_decodes_to_the_token :
  (forall s, Base64.DecodeString (Base64.EncodeToString s) = Some s)
  /\ (forall s t, Base64.EncodeToString s = Base64.EncodeToString t -> s = t)
  /\ (forall key token,
         exists v,
           Fetcher.patchPayload key token = JObject [("data", JObject [(key, JString v)])]
           /\ Base64.DecodeString v = Some token).
Proof.
  split; [exact DecodeString_EncodeToString|]. split.
  - intros s t H. apply (f_equal Base64.DecodeString) in H.
    rewrite !DecodeString_EncodeToString in H. injection H as ->. reflexivity.
  - intros key token. exists (Base64.EncodeToString token).
    split; [reflexivity | apply DecodeString_EncodeToString].
Qed.

Lemma getSecret_keeps (w : Mem.World) (ns name : string) :
  Mem.faults (snd (Mem.getSecret w ns name)) = Mem.faults w
  /\ Mem.namespaces (snd (Mem.getSecret w ns name)) = Mem.namespaces w
  /\ Mem.writeOnlyStringData (snd (Mem.getSecret w ns name)) = Mem.writeOnlyStringData w
  /\ Mem.secrets (snd (Mem.getSecret w ns name)) = Mem.secrets w.
Proof.
  unfold Mem.getSecret. destruct (Mem.faults w !! ns); [repeat split; reflexivity|].
  destruct (Mem.secrets w !! (ns, name)) as [d|]; [|repeat split; reflexivity].
  destruct (Mem.ofJSON d); repeat split; reflexivity.
Qed.

(** The world after [createOrUpdateSecret] has created the Secret. *)
Lemma create_path_world (w w1 : Mem.World) (ns name key token : string) :
  Fetcher.createOrUpdateSecret Mem.backend ns name key token w
  = (Return None, w1, [EvGet ns name; EvCreate ns (Fetcher.newSecret ns name key token)]) ->
  Mem.faults w1 !! ns = None
  /\ Mem.secrets w1
     = <[(ns, name) := Mem.stored w ns (Fetcher.newSecret ns name key token)]> (Mem.secrets w).
Proof.
  intros Hfirst.
  unfold Fetcher.createOrUpdateSecret, bind, secretsGet, call in Hfirst.
  cbn [GetSecret Mem.backend] in Hfirst.
  pose proof (getSecret_keeps w ns name) as (Hf & _ & Hmode & Hsec).
  destruct (Mem.getSecret w ns name) as [[err | ex] wa] eqn:Hg; cbn [snd] in *.
  - destruct (Contains (Error err) "not found"); [|discriminate Hfirst].
    unfold secretsCreate, call in Hfirst. cbn [CreateSecret Mem.backend] in Hfirst.
    destruct (Mem.createSecret wa ns (Fetcher.newSecret ns name key token)) as [[ce|] wb] eqn:Hc;
      [discriminate Hfirst|].
    unfold ret in Hfirst. injection Hfirst as <-.
    unfold Mem.createSecret in Hc.
    destruct (Mem.faults wa !! ns) eqn:Hfa; [discriminate Hc|].
    destruct (negb (bool_decide (ns ∈ Mem.namespaces wa))); [discriminate Hc|].
    destruct (negb (isEmpty (Namespace (Fetcher.newSecret ns name key token)))
              && negb (String.eqb (Namespace (Fetcher.newSecret ns name key token)) ns));
      [discriminate Hc|].
    destruct (Mem.secrets wa !! (ns, Name (Fetcher.newSecret ns name key token)));
      [discriminate Hc|].
    injection Hc as <-. cbn [Mem.secrets Mem.faults Mem.setCluster Name Fetcher.newSecret].
    split; [exact Hfa|]. rewrite Hsec. f_equal. unfold Mem.stored. rewrite Hmode. reflexivity.
  - unfold secretsPatch, call in Hfirst. cbn [PatchSecret Mem.backend] in Hfirst.
    destruct (Mem.patchSecret wa ns name (Fetcher.patchPayload key token)) as [[pe|] wb];
      discriminate Hfirst.
Qed.

Lemma ofJSON_created (ns name key token : string) :
  Mem.ofJSON
    (JObject [("metadata", JObject (omitEmpty "name" name ++ omitEmpty "namespace" ns));
              ("data", JObject [(key, JString (Base64.EncodeToString token))]);
              ("type", JString "Opaque")])
  = Some (Fetcher.newSecret ns name key token).
Proof.
  unfold Mem.ofJSON, field.
  cbn [members getMember String.eqb Ascii.eqb Bool.eqb default id].
  set (meta := (omitEmpty "name" name ++ omitEmpty "namespace" ns)%list).
  unfold Mem.strings at 1. cbn [default id members omap list_omap snd fst].
  cbn [mapM fst snd]. rewrite DecodeString_EncodeToString.
  cbn [option_map mbind option_bind mret option_ret].
  assert (Hname : Mem.str (getMember "name" meta) = name).
  { subst meta. destruct name, ns; reflexivity. }
  assert (Hns : Mem.str (getMember "namespace" meta) = ns).
  { subst meta. destruct name, ns; reflexivity. }
  assert (Hlabels : Mem.strings (getMember "labels" meta) = []).
  { subst meta. destruct name, ns; reflexivity. }
  rewrite Hname, Hns, Hlabels.
  reflexivity.
Qed.

(** X22.  On the in-memory cluster, after [createOrUpdateSecret] has created
    the Secret, a Get of it succeeds and returns the Secret as it was
    written: its data holds the token at the secret key. *)
Theorem created_secret_reads_back_the_token (w w1 : Mem.World) (ns name key token : string) :
  Fetcher.createOrUpdateSecret Mem.backend ns name key token w
  = (Return None, w1, [EvGet ns name; EvCreate ns (Fetcher.newSecret ns name key token)]) ->
  exists w2,
    Mem.getSecret w1 ns name = (inr (Fetcher.newSecret ns name key token), w2)
    /\ index (Data (Fetcher.newSecret ns name key token)) key = token.
Proof.
  intros Hfirst. destruct (create_path_world w w1 ns name key token Hfirst) as [Hf Hs].
  unfold Mem.getSecret. rewrite Hf, Hs, lookup_insert_eq, stored_newSecret, ofJSON_created.
  eexists. split; [reflexivity|].
  cbn [Data Fetcher.newSecret]. unfold index. rewrite lookup_singleton_eq. reflexivity.
Qed.

Lemma removeMember_idem k m : removeMember k (removeMember k m) = removeMember k m.
Proof.
  induction m as [|[k' v'] m IH]; [reflexivity|]. cbn [removeMember].
  destruct (String.eqb k k') eqn:E; [exact IH|].
  cbn [removeMember]. rewrite E, IH. reflexivity.
Qed.

Lemma setMember_setMember k v1 v2 m :
  setMember k v2 (setMember k v1 m) = setMember k v2 m.
Proof.
  induction m as [|[k' v'] m IH]; cbn [setMember].
  - rewrite String.eqb_refl. reflexivity.
  - destruct (String.eqb k k') eqn:E; cbn [setMember].
    + rewrite String.eqb_refl, removeMember_idem. reflexivity.
    + rewrite E, IH. reflexivity.
Qed.

(** Of two successive merge patches of [createOrUpdateSecret] on a
    document, the second alone gives the same document. *)
Lemma MergePatch_later_patch (doc : JSON) (key token1 token2 : string) :
  MergePatch (MergePatch doc (Fetcher.patchPayload key token1)) (Fetcher.patchPayload key token2)
  = MergePatch doc (Fetcher.patchPayload key token2)
  /\ MergePatch (MergePatch doc (Fetcher.patchPayload key token1)) (Fetcher.patchPayload key token1)
     = MergePatch doc (Fetcher.patchPayload key token1).
Proof.
  assert (H : forall t1 t2,
             MergePatch (MergePatch doc (Fetcher.patchPayload key t1)) (Fetcher.patchPayload key t2)
             = MergePatch doc (Fetcher.patchPayload key t2)).
  { intros t1 t2. rewrite !MergePatch_patchPayload. cbn [members].
    rewrite getMember_setMember_eq. cbn [default id members].
    rewrite !setMember_setMember. reflexivity. }
  split; apply H.
Qed.

Lemma Forall_removeMember (Q : string * JSON -> Prop) k m :
  Forall Q m -> Forall Q (removeMember k m).
Proof.
  induction 1 as [|[k' v'] m Hx _ IH]; [constructor|]. cbn [removeMember].
  destruct (String.eqb k k'); [exact IH | constructor; assumption].
Qed.

Lemma Forall_setMember (Q : string * JSON -> Prop) k v m :
  Q (k, v) -> Forall Q m -> Forall Q (setMember k v m).
Proof.
  intros Hkv. induction 1 as [|[k' v'] m Hx Hm IH]; cbn [setMember].
  - repeat constructor. exact Hkv.
  - destruct (String.eqb k k').
    + constructor; [exact Hkv | apply Forall_removeMember; exact Hm].
    + constructor; assumption.
Qed.

(** A stored document that the client can decode can still be decoded after
    the merge patch of [createOrUpdateSecret]. *)
Lemma ofJSON_patched (doc : JSON) (key token : string) (s : Secret) :
  Mem.ofJSON doc = Some s ->
  exists s', Mem.ofJSON (MergePatch doc (Fetcher.patchPayload key token)) = Some s'.
Proof.
  intros Hs. rewrite MergePatch_patchPayload.
  set (f := fun kv : string * string =>
              option_map (pair (fst kv)) (Base64.DecodeString (snd kv))).
  set (g := fun kv : string * JSON =>
              match snd kv with JString x => Some (fst kv, x) | _ => None end).
  set (dm := members (default JNull (getMember "data" (members doc)))).
  assert (Hold : is_Some (mapM f (omap g dm))).
  { unfold Mem.ofJSON in Hs. fold f in Hs. unfold Mem.strings at 1 in Hs. fold g in Hs.
    unfold field in Hs. fold dm in Hs.
    destruct (mapM f (omap g dm)); [eexists; reflexivity | discriminate Hs]. }
  assert (Hnew : is_Some (mapM f (omap g (setMember key (JString (Base64.EncodeToString token)) dm)))).
  { apply mapM_is_Some in Hold. apply mapM_is_Some.
    set (Q := fun kv : string * JSON => forall y, g kv = Some y -> is_Some (f y)).
    assert (HQ : Forall Q dm).
    { clear -Hold. induction dm as [|x l IH]; [constructor|].
      cbn [omap list_omap] in Hold. constructor.
      - intros y Hy. rewrite Hy in Hold. inversion Hold; assumption.
      - apply IH. destruct (g x); [inversion Hold; assumption | exact Hold]. }
    assert (HQ' : Forall Q (setMember key (JString (Base64.EncodeToString token)) dm)).
    { apply Forall_setMember; [|exact HQ]. intros y Hy. injection Hy as <-.
      unfold f. cbn [fst snd]. rewrite DecodeString_EncodeToString. eexists; reflexivity. }
    clear -HQ'. induction HQ' as [|x l Hx _ IH]; [constructor|].
    cbn [omap list_omap]. destruct (g x) as [y|] eqn:Hg; [|exact IH].
    constructor; [exact (Hx y Hg) | exact IH]. }
  unfold Mem.ofJSON. fold f.
  assert (Hd : forall x m, field "data" (JObject (setMember "data" x m)) = Some x).
  { intros x m. unfold field. cbn [members]. apply getMember_setMember_eq. }
  rewrite Hd. unfold Mem.strings at 1. cbn [default id members]. fold g.
  destruct Hnew as [decoded ->]. eexists; reflexivity.
Qed.

Lemma getSecret_found (w : Mem.World) (ns name : string) (existing : Secret) (wg : Mem.World) :
  Mem.getSecret w ns name = (inr existing, wg) ->
  Mem.faults w !! ns = None
  /\ exists doc, Mem.secrets w !! (ns, name) = Some doc /\ Mem.ofJSON doc = Some existing.
Proof.
  unfold Mem.getSecret. destruct (Mem.faults w !! ns); [discriminate|].
  destruct (Mem.secrets w !! (ns, name)) as [doc|]; [|discriminate].
  destruct (Mem.ofJSON doc) as [s|] eqn:Ho; [|discriminate].
  intros H. injection H as -> _. split; [reflexivity|]. exists doc. split; [reflexivity | exact Ho].
Qed.

(** X23.  On the in-memory cluster, when the Secret exists, two successive
    runs of [createOrUpdateSecret] both succeed, each by one merge patch,
    and leave the stored Secrets as one run with the second token does; with
    the same token twice, the second run leaves them as the first did. *)
Theorem patching_twice_equals_patching_once (w wg : Mem.World)
    (ns name key token1 token2 : string) (existing : Secret) :
  Mem.getSecret w ns name = (inr existing, wg) ->
  let r1 := Fetcher.createOrUpdateSecret Mem.backend ns name key token1 w in
  let r2 := Fetcher.createOrUpdateSecret Mem.backend ns name key token2 (final r1) in
  let r := Fetcher.createOrUpdateSecret Mem.backend ns name key token2 w in
  outcome r1 = Return None
  /\ outcome r2 = Return None
  /\ events r2 = [EvGet ns name; EvPatch ns name (Fetcher.patchPayload key token2)]
  /\ Mem.secrets (final r2) = Mem.secrets (final r)
  /\ (token1 = token2 -> Mem.secrets (final r2) = Mem.secrets (final r1)).
Proof.
  intros Hget. destruct (getSecret_found w ns name existing wg Hget) as (Hf & doc & Hdoc & Ho).
  assert (Hrun : forall token,
             Fetcher.createOrUpdateSecret Mem.backend ns name key token w
             = (Return None,
                Mem.setCluster w
                  (<[(ns, name) := MergePatch doc (Fetcher.patchPayload key token)]> (Mem.secrets w))
                  None,
                [EvGet ns name; EvPatch ns name (Fetcher.patchPayload key token)])).
  { intros token. exact (createOrUpdateSecret_patches w ns name key token doc existing wg Hget Hdoc). }
  destruct (ofJSON_patched doc key token1 existing Ho) as [s1 Ho1].
  set (w1 := Mem.setCluster w
               (<[(ns, name) := MergePatch doc (Fetcher.patchPayload key token1)]> (Mem.secrets w))
               None).
  assert (Hdoc1 : Mem.secrets w1 !! (ns, name)
                  = Some (MergePatch doc (Fetcher.patchPayload key token1))).
  { subst w1. cbn [Mem.secrets Mem.setCluster]. apply lookup_insert_eq. }
  assert (Hget1 : Mem.getSecret w1 ns name = (inr s1, Mem.setCluster w1 (Mem.secrets w1) None)).
  { unfold Mem.getSecret. rewrite Hdoc1, Ho1.
    replace (Mem.faults w1 !! ns) with (@None Mem.Fault) by (subst w1; symmetry; exact Hf).
    reflexivity. }
  pose proof (createOrUpdateSecret_patches w1 ns name key token2 _ s1 _ Hget1 Hdoc1) as Hrun2.
  destruct (MergePatch_later_patch doc key token1 token2) as [H12 _].
  rewrite H12 in Hrun2.
  cbv zeta. rewrite (Hrun token1), (Hrun token2). unfold final, outcome, events.
  cbn [fst snd]. fold w1. rewrite Hrun2.
  cbn [fst snd Mem.secrets Mem.setCluster].
  split; [reflexivity|]. split; [reflexivity|]. split; [reflexivity|].
  subst w1. cbn [Mem.secrets Mem.setCluster]. rewrite insert_insert_eq.
  split; [reflexivity|]. intros ->. reflexivity.
Qed.

(** ** The single-namespace program *)

Section SingleNamespace.

Variable B : Backend.
Lemma Simple_validateEnv_returns (w : World B) :
  exists res, Simple.validateEnv B w = (Return res, w, []).
Proof.
  unfold Simple.validateEnv, bind, Getenv, ask, ret.
  destruct (isEmpty (default EmptyString (LookupEnv B w "TOKEN_ENDPOINT_URL")));
    destruct (isEmpty (default EmptyString (LookupEnv B w "CLIENT_ID")));
    destruct (isEmpty (default EmptyString (LookupEnv B w "CLIENT_SECRET_FILE")));
    cbn [app length Nat.ltb Nat.leb];
    try (eexists; reflexivity);
    destruct (NotExist B w (default EmptyString (LookupEnv B w "CLIENT_SECRET_FILE")));
    eexists; reflexivity.
Qed.

(** [getCurrentNamespace] never fails: it gives the contents of the
    namespace file as they are, else [POD_NAMESPACE], else default. *)
Lemma getCurrentNamespace_pure (w : World B) :
  exists ns,
    Simple.getCurrentNamespace B w = (Return (ns, None), w, [])
    /\ (forall data, ReadFile B w namespaceFile = inr data -> ns = data)
    /\ (forall err, ReadFile B w namespaceFile = inl err ->
        ns <> EmptyString
        /\ (getenv w "POD_NAMESPACE" <> EmptyString -> ns = getenv w "POD_NAMESPACE")
        /\ (getenv w "POD_NAMESPACE" = EmptyString -> ns = "default")).
Proof.
  unfold Simple.getCurrentNamespace, bind, Getenv, ask. fold namespaceFile.
  destruct (ReadFile B w namespaceFile) as [err | data].
  - fold (getenv w "POD_NAMESPACE").
    destruct (getenv w "POD_NAMESPACE") as [|c s] eqn:E; cbn [isEmpty negb].
    + exists "default". split; [reflexivity|]. split; [discriminate|].
      intros _ _. split; [discriminate|]. split; [contradiction | reflexivity].
    + exists (String c s). split; [reflexivity|]. split; [discriminate|].
      intros _ _. split; [discriminate|]. split; [reflexivity | discriminate].
  - exists data. split; [reflexivity|]. split; [|discriminate].
    intros d H. injection H as <-. reflexivity.
Qed.

(** X24.  [getOIDCToken] of the single-namespace program makes exactly one
    request, whatever the environment: its [readFile] gives the empty text
    for a client secret file that cannot be read, so that the request is
    then sent with an empty client secret. *)
Theorem unreadable_secret_is_sent_empty (w : World B) :
  let secret :=
    match ReadFile B w (getenv w "CLIENT_SECRET_FILE") with
    | inr data => TrimSpace data
    | inl _ => EmptyString
    end in
  let form := credentials (getenv w "CLIENT_ID") secret (getenv w "SCOPE") in
  events (Simple.getOIDCToken B w)
  = [EvPost (getenv w "TOKEN_ENDPOINT_URL") form
       (fst (Post B w (getenv w "TOKEN_ENDPOINT_URL") form))]
  /\ final (Simple.getOIDCToken B w) = snd (Post B w (getenv w "TOKEN_ENDPOINT_URL") form).
Proof.
  cbv zeta. unfold getenv, credentials.
  unfold Simple.getOIDCToken, Simple.readFile, bind, Getenv, ask, httpPost, ret.
  destruct (ReadFile B w (default EmptyString (LookupEnv B w "CLIENT_SECRET_FILE")))
    as [err | data];
    destruct (isEmpty (default EmptyString (LookupEnv B w "SCOPE"))); cbn [app];
    match goal with
    | |- context [Post B w ?u ?v] => destruct (Post B w u v) as [[perr | resp] w1]
    end;
    try (split; reflexivity);
    (destruct (negb (Z.eqb (StatusCode resp) 200)); [split; reflexivity|]);
    (destruct (Simple.Decode (Content resp) _) as [tr [derr|]]; [split; reflexivity|]);
    destruct (isEmpty (Simple.AccessToken tr)); split; reflexivity.
Qed.

Lemma Simple_getK8sConfig_pure (w : World B) :
  exists o, Simple.getK8sConfig B w = (Return o, w, []).
Proof.
  unfold Simple.getK8sConfig, bind, Getenv, ask.
  destruct (InClusterConfig B w); eexists; reflexivity.
Qed.

(** One run of [createOrUpdateSecret]: without a client nothing is asked of
    the cluster; with one, a Get, then nothing, a Create or an Update. *)
Lemma Simple_createOrUpdateSecret_spec (token ns : string) (w : World B) :
  exists res w' t,
    Simple.createOrUpdateSecret B token ns w = (Return res, w', t)
    /\ (t = [] /\ res <> None
        \/ t = [EvGet ns "oidc-jwt"] /\ res <> None
        \/ t = [EvGet ns "oidc-jwt"; EvCreate ns (Simple.tokenSecret token)]
        \/ t = [EvGet ns "oidc-jwt"; EvUpdate ns (Simple.tokenSecret token)]).
Proof.
  unfold Simple.createOrUpdateSecret. unfold bind at 1.
  destruct (Simple_getK8sConfig_pure w) as [o ->].
  destruct o as [err|]; [eexists _, _, _; split; [reflexivity | left; split; [reflexivity | discriminate]]|].
  unfold bind at 1, ask at 1.
  destruct (NewForConfig B w) as [err|];
    [eexists _, _, _; split; [reflexivity | left; split; [reflexivity | discriminate]]|].
  cbv zeta. unfold bind at 1, secretsGet at 1, call at 1.
  destruct (GetSecret B w ns "oidc-jwt") as [[err | existing] w1].
  - destruct (IsNotFound err).
    + unfold bind, secretsCreate, call.
      destruct (CreateSecret B w1 ns (Simple.tokenSecret token)) as [[ce|] w2];
        eexists _, _, _; (split; [reflexivity | right; right; left; reflexivity]).
    + eexists _, _, _. split; [reflexivity|]. right; left. split; [reflexivity | discriminate].
  - unfold bind, secretsUpdate, call.
    destruct (UpdateSecret B w1 ns (Simple.tokenSecret token)) as [[ue|] w2];
      eexists _, _, _; (split; [reflexivity | right; right; right; reflexivity]).
Qed.

(** X25.  [main] of the single-namespace program ends with exit code 0 or 1
    and makes at most three calls: the token request, the Get of the Secret
    oidc-jwt in one namespace, and one write, a Create or an Update of the
    Secret that holds the token, in that namespace.  It returns normally
    only after the three. *)
Theorem simple_main_makes_at_most_three_calls (w : World B) :
  (outcome (Simple.main B w) = Return tt \/ outcome (Simple.main B w) = Exit 1)
  /\ (events (Simple.main B w) = []
      \/ exists u v r,
          events (Simple.main B w) = [EvPost u v r]
          \/ exists ns,
              events (Simple.main B w) = [EvPost u v r; EvGet ns "oidc-jwt"]
              \/ exists token,
                  outcome (Simple.getOIDCToken B w) = Return (token, None)
                  /\ token <> EmptyString
                  /\ (events (Simple.main B w)
                      = [EvPost u v r; EvGet ns "oidc-jwt";
                         EvCreate ns (Simple.tokenSecret token)]
                      \/ events (Simple.main B w)
                         = [EvPost u v r; EvGet ns "oidc-jwt";
                            EvUpdate ns (Simple.tokenSecret token)]))
  /\ (outcome (Simple.main B w) = Return tt ->
      exists u v r ns e,
        events (Simple.main B w) = [EvPost u v r; EvGet ns "oidc-jwt"; e]
        /\ isWrite e = true).
Proof.
  destruct (Simple.main B w) as [[o wf] t] eqn:HR.
  unfold outcome, events. cbn [fst snd].
  unfold Simple.main in HR. unfold bind at 1 in HR.
  destruct (Simple_validateEnv_returns w) as [[verr|] Hv]; rewrite Hv in HR.
  { cbn in HR. injection HR as <- <- <-.
    split; [right; reflexivity|]. split; [left; reflexivity | discriminate]. }
  simpl app in HR. unfold bind at 1 in HR.
  destruct (Simple_getOIDCToken_spec B w) as (u & v & r & Hev & Hout).
  pose proof (Simple_getOIDCToken_token_iff B w) as Hiff.
  destruct (Simple.getOIDCToken B w) as [[o1 w1] t1].
  unfold events, outcome in Hev, Hout, Hiff |- *. cbn [fst snd] in Hev, Hout, Hiff |- *. subst t1.
  destruct o1 as [[token [terr|]]|code].
  3: discriminate Hout.
  1: cbn in HR; injection HR as <- <- <-; split; [right; reflexivity|];
     (split; [right; exists u, v, r; left; reflexivity | discriminate]).
  assert (Htok : token <> EmptyString).
  { destruct (proj1 (Hiff token) eq_refl) as (? & ? & ? & _ & _ & _ & H). exact H. }
  destruct (getCurrentNamespace_pure w1) as (ns & Hns & _).
  unfold bind at 1 in HR. rewrite Hns in HR. simpl app in HR.
  destruct (Simple_createOrUpdateSecret_spec token ns w1) as (res & w2 & t2 & Hc & Ht).
  unfold bind at 1 in HR. rewrite Hc in HR.
  destruct Ht as [[-> Hres] | [[-> Hres] | [-> | ->]]];
    destruct res as [e|]; try contradiction; cbn in HR; injection HR as <- <- <-.
  - split; [right; reflexivity|]. split; [right; exists u, v, r; left; reflexivity | discriminate].
  - split; [right; reflexivity|]. split; [|discriminate].
    right; exists u, v, r; right; exists ns; left; reflexivity.
  - split; [right; reflexivity|]. split; [|discriminate].
    right; exists u, v, r; right; exists ns; right; exists token.
    split; [reflexivity|]. split; [exact Htok | left; reflexivity].
  - split; [left; reflexivity|]. split.
    + right; exists u, v, r; right; exists ns; right; exists token.
      split; [reflexivity|]. split; [exact Htok | left; reflexivity].
    + intros _. exists u, v, r, ns. eexists. split; reflexivity.
  - split; [right; reflexivity|]. split; [|discriminate].
    right; exists u, v, r; right; exists ns; right; exists token.
    split; [reflexivity|]. split; [exact Htok | right; reflexivity].
  - split; [left; reflexivity|]. split.
    + right; exists u, v, r; right; exists ns; right; exists token.
      split; [reflexivity|]. split; [exact Htok | right; reflexivity].
    + intros _. exists u, v, r, ns. eexists. split; reflexivity.
Qed.

End SingleNamespace.
(** ** The kubeconfig file *)
Lemma Split_cons (c sep : ascii) (r : string) :
  Split (String c r) sep
  = if Ascii.eqb c sep then EmptyString :: Split r sep
    else match Split r sep with
         | [] => [String c EmptyString]
         | p :: ps => String c p :: ps
         end.
Proof. reflexivity. Qed.

Lemma Split_plain (e : string) (rest : string) :
  hasByte "/" e = false ->
  Split (e ++ String "/" rest) "/" = e :: Split rest "/".
Proof.
  induction e as [|c e IH]; intros H.
  - reflexivity.
  - cbn [hasByte] in H. apply orb_false_elim in H as [Hc He].
    rewrite append_cons, Split_cons, Hc, (IH He). reflexivity.
Qed.

Lemma plain_parts (e : string) :
  plain e = true ->
  hasByte "/" e = false
  /\ isEmpty e || String.eqb e "." = false
  /\ String.eqb e ".." = false.
Proof.
  unfold plain. intros [[[H1 H2]%andb_prop H3]%andb_prop H4]%andb_prop.
  apply negb_true_iff in H1, H2, H3, H4. rewrite H1, H3. auto.
Qed.

Lemma Split_elements (rest : list string) (tail : string) :
  forall e,
    hasByte "/" e = false -> forallb plain rest = true ->
    Split (e ++ absolute rest ++ String "/" tail) "/" = e :: (rest ++ Split tail "/")%list.
Proof.
  induction rest as [|e2 rest IH]; intros e He Hrest.
  - apply Split_plain. exact He.
  - cbn [forallb] in Hrest. apply andb_prop in Hrest as [He2 Hrest].
    destruct (plain_parts e2 He2) as (Hs2 & _ & _).
    cbn [absolute]. rewrite (append_assoc "/").
    change ("/" ++ (e2 ++ absolute rest) ++ String "/" tail)
      with (String "/" ((e2 ++ absolute rest) ++ String "/" tail)).
    rewrite (Split_plain e _ He), append_assoc, (IH e2 Hs2 Hrest). reflexivity.
Qed.

Lemma Split_absolute (elems : list string) (tail : string) :
  forallb plain elems = true ->
  Split (absolute elems ++ String "/" tail) "/" = EmptyString :: (elems ++ Split tail "/")%list.
Proof.
  destruct elems as [|e rest]; intros H; [reflexivity|].
  cbn [forallb] in H. apply andb_prop in H as [He Hrest].
  destruct (plain_parts e He) as (Hs & _ & _).
  cbn [absolute]. rewrite (append_assoc "/").
  change ("/" ++ (e ++ absolute rest) ++ String "/" tail)
    with (String "/" ((e ++ absolute rest) ++ String "/" tail)).
  rewrite Split_cons. cbn [Ascii.eqb Bool.eqb].
  rewrite append_assoc, (Split_elements rest tail e Hs Hrest). reflexivity.
Qed.

Lemma cleanLoop_plain (rooted : bool) (elems rest : list string) (up : nat) (out : list string) :
  forallb plain elems = true ->
  GoPath.cleanLoop rooted (elems ++ rest) up out
  = GoPath.cleanLoop rooted rest up (List.rev elems ++ out).
Proof.
  revert out. induction elems as [|e elems IH]; intros out H; [reflexivity|].
  cbn [forallb] in H. apply andb_prop in H as [He Hrest].
  destruct (plain_parts e He) as (_ & H1 & H2).
  cbn [app GoPath.cleanLoop]. rewrite H1, H2, (IH _ Hrest).
  cbn [List.rev]. rewrite <- app_assoc. reflexivity.
Qed.

Lemma Join_absolute (elems : list string) :
  elems <> [] -> "/" ++ Join elems "/" = absolute elems.
Proof.
  induction elems as [|e rest IH]; intros H; [contradiction|].
  destruct rest as [|e2 rest].
  - cbn [Join absolute]. rewrite append_empty_r. reflexivity.
  - specialize (IH ltac:(discriminate)).
    change (Join (e :: e2 :: rest) "/") with (e ++ "/" ++ Join (e2 :: rest) "/").
    rewrite IH. reflexivity.
Qed.

Lemma absolute_app (l1 l2 : list string) : absolute (l1 ++ l2) = absolute l1 ++ absolute l2.
Proof.
  induction l1 as [|e l1 IH]; [reflexivity|].
  cbn [app absolute]. rewrite IH, !append_assoc. reflexivity.
Qed.

Lemma absolute_rooted (elems : list string) (tail : string) :
  elems <> [] ->
  isEmpty (absolute elems ++ tail) = false /\ HasPrefix (absolute elems ++ tail) "/" = true.
Proof.
  destruct elems as [|e rest]; [contradiction|]. intros _. split; [reflexivity|].
  cbn [absolute]. rewrite !(append_assoc "/").
  change ("/" ++ (e ++ absolute rest) ++ tail) with (String "/" ((e ++ absolute rest) ++ tail)).
  cbn [HasPrefix]. rewrite Ascii.eqb_refl. destruct ((e ++ absolute rest) ++ tail); reflexivity.
Qed.

(** For a home directory given as an absolute path of plain elements,
    [filepath.Join] appends the two elements of the kubeconfig file. *)
Lemma Join_plain_home (elems : list string) :
  elems <> [] -> forallb plain elems = true ->
  GoPath.Join [absolute elems; ".kube"; "config"] = absolute elems ++ "/.kube/config".
Proof.
  intros Hne Hplain. unfold GoPath.Join. cbn [GoPath.skipEmpty].
  destruct (absolute_rooted elems EmptyString Hne) as [Hnonempty _].
  rewrite append_empty_r in Hnonempty. rewrite Hnonempty.
  change (Join [absolute elems; ".kube"; "config"] "/")
    with (absolute elems ++ String "/" ".kube/config").
  unfold GoPath.Clean.
  destruct (absolute_rooted elems (String "/" ".kube/config") Hne) as [-> ->].
  rewrite (Split_absolute elems ".kube/config" Hplain).
  change (Split ".kube/config" "/") with [".kube"; "config"].
  cbn [GoPath.cleanLoop isEmpty orb String.eqb].
  assert (Hall : forallb plain (elems ++ [".kube"; "config"]) = true).
  { rewrite forallb_app, Hplain. reflexivity. }
  rewrite <- (app_nil_r (elems ++ [".kube"; "config"])).
  rewrite (cleanLoop_plain true _ [] 0 [] Hall). cbn [GoPath.cleanLoop repeat app].
  rewrite app_nil_r, rev_involutive.
  rewrite Join_absolute by (destruct elems; discriminate).
  rewrite absolute_app. reflexivity.
Qed.

Section Kubeconfig.

Variable B : Backend.
(** X26.  [getK8sConfig] is the same function in the single-namespace
    program and in the program with retries.  It uses the in-cluster
    configuration when there is one, and then does not look at [HOME].
    Otherwise it loads the file config of the directory .kube under [HOME],
    joined as [filepath.Join] does: the relative path .kube/config when
    [HOME] is unset or empty; the path of [HOME] followed by /.kube/config
    when [HOME] is an absolute path of plain elements; and for /root/, which
    ends with a separator, /root/.kube/config with no doubled separator. *)
Theorem kubeconfig_is_looked_up_under_home (w : World B) :
  SecretManager.getK8sConfig B w = Simple.getK8sConfig B w
  /\ (InClusterConfig B w = None ->
      SecretManager.getK8sConfig B w = (Return None, w, []))
  /\ (InClusterConfig B w <> None -> getenv w "HOME" = EmptyString ->
      SecretManager.getK8sConfig B w
      = (Return (BuildConfigFromFlags B w ".kube/config"), w, []))
  /\ (forall elems,
         InClusterConfig B w <> None ->
         elems <> [] -> forallb plain elems = true ->
         getenv w "HOME" = absolute elems ->
         SecretManager.getK8sConfig B w
         = (Return (BuildConfigFromFlags B w (absolute elems ++ "/.kube/config")), w, []))
  /\ (InClusterConfig B w <> None -> getenv w "HOME" = "/root/" ->
      SecretManager.getK8sConfig B w
      = (Return (BuildConfigFromFlags B w "/root/.kube/config"), w, [])).
Proof.
  split; [reflexivity|].
  unfold SecretManager.getK8sConfig, bind, Getenv, ask, getenv.
  split; [|split; [|split]].
  - intros ->. reflexivity.
  - intros Hc Hh. destruct (InClusterConfig B w); [|contradiction]. rewrite Hh. reflexivity.
  - intros elems Hc Hne Hplain Hh. destruct (InClusterConfig B w); [|contradiction].
    rewrite Hh, (Join_plain_home elems Hne Hplain). reflexivity.
  - intros Hc Hh. destruct (InClusterConfig B w); [|contradiction]. rewrite Hh. reflexivity.
Qed.

End Kubeconfig.

(** ** The properties at work *)

Lemma token_requests_carry_the_credentials_witness :
  ReadFile Mem.backend Example.mounted (getenv (B := Mem.backend) Example.mounted "CLIENT_SECRET_FILE")
  = inr ("  hunter2" ++ Example.newline)
  /\ exists r rest,
      events (SecretManager.getOIDCToken Mem.backend Example.mounted)
      = EvPost "https://idp.example/token"
          [("client_id", "fetcher"); ("client_secret", "hunter2");
           ("grant_type", "client_credentials"); ("scope", "openid")] r :: rest.
Proof.
  assert (H : ReadFile Mem.backend Example.mounted (getenv (B := Mem.backend) Example.mounted "CLIENT_SECRET_FILE")
              = inr ("  hunter2" ++ Example.newline)) by (vm_compute; reflexivity).
  split; [exact H|].
  destruct (token_requests_carry_the_credentials Mem.backend Example.mounted _ H)
    as [(r & rest & He) _].
  exists r, rest. rewrite He. vm_compute. reflexivity.
Defined.

Lemma readFile_strips_surrounding_white_space_witness :
  ReadFile Mem.backend Example.mounted "/etc/oidc/secret"
  = inr ("  " ++ "hunter2" ++ Example.newline)
  /\ SecretManager.readFile Mem.backend "/etc/oidc/secret" Example.mounted
     = (Return ("hunter2", None), Example.mounted, [])
  /\ Simple.readFile Mem.backend "/etc/oidc/secret" Example.mounted
     = (Return "hunter2", Example.mounted, []).
Proof.
  assert (H : ReadFile Mem.backend Example.mounted "/etc/oidc/secret"
              = inr ("  " ++ "hunter2" ++ Example.newline)) by (vm_compute; reflexivity).
  split; [exact H|].
  apply (readFile_strips_surrounding_white_space Mem.backend Example.mounted
           "/etc/oidc/secret" "  " "hunter2" Example.newline H); vm_compute; reflexivity.
Defined.

Lemma manageNamespaceSecret_success_means_reconciled_witness :
  SecretManager.manageNamespaceSecret Mem.backend "t" "a" Example.abc
  = (Return None, final Example.servedOnce,
     [EvGet "a" SecretManager.secretName; EvCreate "a" (SecretManager.desiredSecret "t")])
  /\ exists err w1,
      GetSecret Mem.backend Example.abc "a" SecretManager.secretName = (inl err, w1)
      /\ IsNotFound err = true
      /\ CreateSecret Mem.backend w1 "a" (SecretManager.desiredSecret "t")
         = (None, final Example.servedOnce).
Proof.
  assert (H : SecretManager.manageNamespaceSecret Mem.backend "t" "a" Example.abc
              = (Return None, final Example.servedOnce,
                 [EvGet "a" SecretManager.secretName;
                  EvCreate "a" (SecretManager.desiredSecret "t")]))
    by (vm_compute; reflexivity).
  split; [exact H|].
  destruct (manageNamespaceSecret_success_means_reconciled Mem.backend _ _ _ _ _ H)
    as [(existing & _ & _ & Ht) | [(err & w1 & Hg & Hn & Hc & _) | (existing & w1 & _ & _ & _ & Ht)]].
  - discriminate Ht.
  - exists err, w1. repeat split; assumption.
  - discriminate Ht.
Defined.

Lemma completion_log_counts_add_up_witness :
  In (EvLogCompleted 2 1 3)
    (events (SecretManager.manageSecretsClusterWide Mem.backend "t" Example.abc))
  /\ last (events (SecretManager.manageSecretsClusterWide Mem.backend "t" Example.abc))
     = Some (EvLogCompleted 2 1 3)
  /\ outcome (SecretManager.manageSecretsClusterWide Mem.backend "t" Example.abc)
     <> Return None.
Proof.
  assert (H : In (EvLogCompleted 2 1 3)
                (events (SecretManager.manageSecretsClusterWide Mem.backend "t" Example.abc))).
  { vm_compute. repeat (first [left; reflexivity | right]). }
  split; [exact H|].
  destruct (completion_log_counts_add_up Mem.backend _ _ _ _ _ H)
    as (_ & _ & _ & _ & Hiff & Hlast).
  split; [exact Hlast|].
  intros Hout. apply Hiff in Hout. discriminate Hout.
Defined.

Lemma missing_required_variable_ends_the_process_witness :
  getenv (B := Mem.backend) (Example.setEnv Example.abc "OIDC_CLIENT_ID" EmptyString) "OIDC_CLIENT_ID" = EmptyString
  /\ Fetcher.main Mem.backend (Example.setEnv Example.abc "OIDC_CLIENT_ID" EmptyString)
     = (Exit 1, Example.setEnv Example.abc "OIDC_CLIENT_ID" EmptyString, []).
Proof.
  assert (H : getenv (B := Mem.backend) (Example.setEnv Example.abc "OIDC_CLIENT_ID" EmptyString) "OIDC_CLIENT_ID"
              = EmptyString) by (vm_compute; reflexivity).
  split; [exact H|].
  apply (missing_required_variable_ends_the_process Mem.backend _ "OIDC_CLIENT_ID");
    [right; left; reflexivity | exact H].
Defined.

Lemma not_found_is_recognised_by_its_text_witness :
  GetSecret Mem.backend Example.abc "a" "oidc-token-secret"
  = (inl (Mem.notFound "secrets" "oidc-token-secret"),
     snd (GetSecret Mem.backend Example.abc "a" "oidc-token-secret"))
  /\ events Example.firstRun
     = [EvGet "a" "oidc-token-secret";
        EvCreate "a" (Fetcher.newSecret "a" "oidc-token-secret" "token" "t")].
Proof.
  assert (H : GetSecret Mem.backend Example.abc "a" "oidc-token-secret"
              = (inl (Mem.notFound "secrets" "oidc-token-secret"),
                 snd (GetSecret Mem.backend Example.abc "a" "oidc-token-secret")))
    by (vm_compute; reflexivity).
  split; [exact H|].
  apply (not_found_is_recognised_by_its_text Mem.backend _ _ "a" "oidc-token-secret" "token" "t"
           _ H).
  exists ("secrets " ++ quoted "oidc-token-secret" ++ " "), EmptyString.
  vm_compute. reflexivity.
Defined.

Lemma processed_namespaces_get_one_write_each_witness :
  Example.bothAC = (Return None, final Example.bothAC, events Example.bothAC)
  /\ map eventNamespace (List.filter isWrite (events Example.bothAC)) = [Some "a"; Some "c"]
  /\ length (events Example.bothAC) = 4%nat.
Proof.
  assert (H : Fetcher.processSecretsInNamespaces Mem.backend ["a"; "c"] Fetcher.defaultSecretName
                Fetcher.defaultSecretKey "t" Example.abc
              = (Return None, final Example.bothAC, events Example.bothAC))
    by (vm_compute; reflexivity).
  split; [exact H|].
  destruct (processed_namespaces_get_one_write_each Mem.backend _ _ _ _ _ _ _ H)
    as (Hw & Hn & _).
  split; [exact Hw|].
  rewrite <- (length_map eventNamespace), Hn. reflexivity.
Defined.

Lemma unset_targets_process_the_listed_namespaces_witness :
  Example.fetched = (Return ("abc", None), final Example.fetched, events Example.fetched)
  /\ getenv (B := Mem.backend) (final Example.fetched) Fetcher.TargetNamespacesEnvVar = EmptyString
  /\ events (Fetcher.main Mem.backend Example.issuing)
     = (events Example.fetched
          ++ EvList
          :: events (Fetcher.processSecretsInNamespaces Mem.backend ["a"; "b"; "c"]
                       "oidc-token-secret" "token" "abc"
                       (snd (ListNamespaces Mem.backend (final Example.fetched)))))%list.
Proof.
  assert (H : Fetcher.fetchOIDCToken Mem.backend "https://idp.example/token" "fetcher" "hunter2"
                (default Fetcher.defaultScopes (LookupEnv Mem.backend Example.issuing "OIDC_SCOPES"))
                Example.issuing
              = (Return ("abc", None), final Example.fetched, events Example.fetched))
    by (vm_compute; reflexivity).
  assert (Ht : getenv (B := Mem.backend) (final Example.fetched) Fetcher.TargetNamespacesEnvVar = EmptyString)
    by (vm_compute; reflexivity).
  split; [exact H|]. split; [exact Ht|].
  assert (Hl : ListNamespaces Mem.backend (final Example.fetched)
               = (inr ["a"; "b"; "c"], snd (ListNamespaces Mem.backend (final Example.fetched))))
    by (vm_compute; reflexivity).
  rewrite (proj1 (unset_targets_process_the_listed_namespaces Mem.backend Example.issuing
                    (final Example.fetched) "https://idp.example/token" "fetcher" "hunter2"
                    "abc" (events Example.fetched)
                    ltac:(vm_compute; reflexivity) ltac:(discriminate)
                    ltac:(vm_compute; reflexivity) ltac:(discriminate)
                    ltac:(vm_compute; reflexivity) ltac:(discriminate)
                    H ltac:(vm_compute; reflexivity) ltac:(vm_compute; reflexivity) Ht)
             _ _ Hl).
  reflexivity.
Defined.

Lemma created_secret_reads_back_the_token_witness :
  Example.firstRun
  = (Return None, final Example.firstRun,
     [EvGet "a" "oidc-token-secret";
      EvCreate "a" (Fetcher.newSecret "a" "oidc-token-secret" "token" "t")])
  /\ fst (Mem.getSecret (final Example.firstRun) "a" "oidc-token-secret")
     = inr (Fetcher.newSecret "a" "oidc-token-secret" "token" "t").
Proof.
  assert (H : Fetcher.createOrUpdateSecret Mem.backend "a" "oidc-token-secret" "token" "t"
                Example.abc
              = (Return None, final Example.firstRun,
                 [EvGet "a" "oidc-token-secret";
                  EvCreate "a" (Fetcher.newSecret "a" "oidc-token-secret" "token" "t")]))
    by (vm_compute; reflexivity).
  split; [exact H|].
  destruct (created_secret_reads_back_the_token _ _ _ _ _ _ H) as (w2 & Hg & _).
  rewrite Hg. reflexivity.
Defined.

Lemma patching_twice_equals_patching_once_witness :
  (exists existing wg,
      Mem.getSecret Example.labelled "a" "oidc-token-secret" = (inr existing, wg))
  /\ Mem.secrets
       (final (Fetcher.createOrUpdateSecret Mem.backend "a" "oidc-token-secret" "token" "new"
                 (final (Fetcher.createOrUpdateSecret Mem.backend "a" "oidc-token-secret"
                           "token" "t" Example.labelled))))
     = Mem.secrets
         (final (Fetcher.createOrUpdateSecret Mem.backend "a" "oidc-token-secret" "token" "new"
                   Example.labelled)).
Proof.
  destruct (Mem.getSecret Example.labelled "a" "oidc-token-secret")
    as [[err | existing] wg] eqn:H; [vm_compute in H; discriminate H|].
  split; [exists existing, wg; reflexivity|].
  exact (proj1 (proj2 (proj2 (proj2
           (patching_twice_equals_patching_once Example.labelled wg "a" "oidc-token-secret"
              "token" "t" "new" existing H))))).
Defined.

Lemma fetcher_writes_only_a_fetched_token_witness :
  In EvList (events (Fetcher.main Mem.backend Example.issuing))
  /\ exists token,
      outcome Example.fetched = Return (token, None) /\ token <> EmptyString.
Proof.
  assert (H : In EvList (events (Fetcher.main Mem.backend Example.issuing))).
  { vm_compute. repeat (first [left; reflexivity | right]). }
  split; [exact H|].
  destruct (fetcher_writes_only_a_fetched_token Mem.backend Example.issuing EvList H eq_refl)
    as (token & Ho & Hne & _).
  exists token. split; [exact Ho | exact Hne].
Defined.

Lemma shutdown_signal_stops_before_the_next_namespace_witness :
  ContextErr Mem.backend Example.interrupted = Some Canceled
  /\ Fetcher.processSecretsInNamespaces Mem.backend ["a"; "b"; "c"] "oidc-token-secret" "token"
       "t" Example.interrupted
     = (Return (Some (contextError Canceled)), Example.interrupted, []).
Proof.
  assert (H : ContextErr Mem.backend Example.interrupted = Some Canceled)
    by (vm_compute; reflexivity).
  split; [exact H|].
  exact (proj1 (shutdown_signal_stops_before_the_next_namespace Mem.backend [] "a" ["b"; "c"]
                  "oidc-token-secret" "token" "t" Example.interrupted Example.interrupted []
                  Canceled eq_refl H)).
Defined.

(** * The programs from what their calls answer *)

(** ** The token request, from the answers of the endpoint *)

Section TokenRuns.

Variable B : Backend.

(** One iteration of the loop of [getOIDCToken]: the request, and what
    follows an answer that is not accepted. *)
Lemma tokenLoop_step (n : nat) (i : Z) values resp lastError (w : World B) :
  SecretManager.tokenLoop B (S n) i values resp lastError w
  = let u := getenv w "TOKEN_ENDPOINT_URL" in
    let a := Post B w u values in
    if accepted (fst a) then (Return (afterPost (EvPost u values (fst a))), snd a, [EvPost u values (fst a)])
    else
      let '(o, w', t) :=
        ((if Z.ltb i (SecretManager.maxRetries - 1)
          then sleep ((i + 1) * SecretManager.baseRetryDelay) else ret tt) ;;;
         SecretManager.tokenLoop B n (i + 1) values (fst (afterPost (EvPost u values (fst a))))
           (snd (afterPost (EvPost u values (fst a)))))%go (snd a) in
      (o, w', EvPost u values (fst a) :: t).
Proof.
  rewrite tokenLoop_S. cbv zeta. unfold bind at 1, Getenv at 1, ask at 1, getenv.
  unfold bind at 1, httpPost at 1.
  destruct (Post B w (default EmptyString (LookupEnv B w "TOKEN_ENDPOINT_URL")) values)
    as [[err | rep] w1]; cbn [fst snd accepted afterPost].
  - destruct ((_ ;;; _)%go w1) as [[o w'] t]. reflexivity.
  - destruct (Z.eqb (StatusCode rep) 200); cbn [negb]; [reflexivity|].
    unfold SecretManager.readResponseBody. cbn [SecretManager.closed]. cbv iota. cbn beta iota.
    cbn [SecretManager.reply].
    destruct ((_ ;;; _)%go w1) as [[o w'] t]. reflexivity.
Qed.

(** The loop of [getOIDCToken], unrolled: the second request follows an
    answer that is not accepted and a delay of 2s, the third another such
    answer and a delay of 4s; nothing follows the third. *)
Lemma tokenLoop_run values (w : World B) :
  let u1 := getenv w "TOKEN_ENDPOINT_URL" in
  let a1 := Post B w u1 values in
  let w2 := Sleep B (snd a1) (2 * SecretManager.Second) in
  let u2 := getenv w2 "TOKEN_ENDPOINT_URL" in
  let a2 := Post B w2 u2 values in
  let w3 := Sleep B (snd a2) (4 * SecretManager.Second) in
  let u3 := getenv w3 "TOKEN_ENDPOINT_URL" in
  let a3 := Post B w3 u3 values in
  let e1 := EvPost u1 values (fst a1) in
  let e2 := EvPost u2 values (fst a2) in
  let e3 := EvPost u3 values (fst a3) in
  SecretManager.tokenLoop B 3 0 values None None w
  = if accepted (fst a1) then (Return (afterPost e1), snd a1, [e1])
    else if accepted (fst a2) then
      (Return (afterPost e2), snd a2, [e1; EvSleep (2 * SecretManager.Second); e2])
    else (Return (afterPost e3), snd a3,
          [e1; EvSleep (2 * SecretManager.Second); e2; EvSleep (4 * SecretManager.Second); e3]).
Proof.
  cbv zeta. rewrite tokenLoop_step. cbv zeta.
  destruct (accepted (fst (Post B w (getenv w "TOKEN_ENDPOINT_URL") values))); [reflexivity|].
  unfold bind at 1.
  change (Z.ltb 0 (SecretManager.maxRetries - 1)) with true. cbv iota.
  unfold sleep at 1, call at 1.
  change ((0 + 1) * SecretManager.baseRetryDelay) with (2 * SecretManager.Second).
  rewrite tokenLoop_step. cbv zeta.
  set (w2 := Sleep B (snd (Post B w (getenv w "TOKEN_ENDPOINT_URL") values))
               (2 * SecretManager.Second)).
  destruct (accepted (fst (Post B w2 (getenv w2 "TOKEN_ENDPOINT_URL") values))); [reflexivity|].
  unfold bind at 1.
  change (Z.ltb (0 + 1) (SecretManager.maxRetries - 1)) with true. cbv iota.
  unfold sleep at 1, call at 1.
  change ((0 + 1 + 1) * SecretManager.baseRetryDelay) with (4 * SecretManager.Second).
  rewrite tokenLoop_step. cbv zeta.
  set (w3 := Sleep B (snd (Post B w2 (getenv w2 "TOKEN_ENDPOINT_URL") values))
               (4 * SecretManager.Second)).
  destruct (accepted (fst (Post B w3 (getenv w3 "TOKEN_ENDPOINT_URL") values))); [reflexivity|].
  unfold bind at 1.
  change (Z.ltb (0 + 1 + 1) (SecretManager.maxRetries - 1)) with false. cbv iota.
  unfold ret at 1. cbn [SecretManager.tokenLoop]. unfold ret.
  destruct (afterPost _) as [x y]. reflexivity.
Qed.

(** What [getOIDCToken] makes of the variables that the loop leaves. *)
Lemma tokenResult_afterPost (u : string) (v : list (string * string)) (r : error + Reply)
    (w : World B) :
  (match afterPost (EvPost u v r) with
   | (_, Some lastError) =>
       ret (EmptyString,
            Some (Errorf_w ("token request failed after " ++ Itoa SecretManager.maxRetries
                            ++ " attempts: ") lastError))
   | (None, None) => exit 2
   | (Some resp, None) =>
       if negb (Z.eqb (StatusCode (SecretManager.reply resp)) 200) then
         let '((body, _), _) := SecretManager.readResponseBody resp in
         ret (EmptyString,
              Some (errorString ("token endpoint returned "
                                 ++ Itoa (StatusCode (SecretManager.reply resp))
                                 ++ ": " ++ body)))
       else
         let '(tokenResp, derr) :=
           SecretManager.Decode (Content (SecretManager.reply resp))
             (SecretManager.mkTokenResponse EmptyString) in
         match derr with
         | Some err =>
             ret (EmptyString, Some (Errorf_w "failed to decode token response: " err))
         | None =>
             if isEmpty (SecretManager.AccessToken tokenResp) then
               ret (EmptyString, Some (errorString "empty access token in response"))
             else ret (SecretManager.AccessToken tokenResp, None)
         end
   end) w
  = (Return (tokenResult (EvPost u v r)), w, []).
Proof.
  destruct r as [err | rep]; cbn [afterPost tokenResult SecretManager.reply]; [reflexivity|].
  destruct (Z.eqb (StatusCode rep) 200); cbn [negb]; cbv iota.
  - destruct (SecretManager.Decode (Content rep) (SecretManager.mkTokenResponse EmptyString))
      as [tokenResp [derr|]]; [reflexivity|].
    destruct (isEmpty (SecretManager.AccessToken tokenResp)); reflexivity.
  - reflexivity.
Qed.

(** [getOIDCToken] in full, from what the token endpoint answers. *)
Lemma getOIDCToken_run (w : World B) (data : string) :
  ReadFile B w (getenv w "CLIENT_SECRET_FILE") = inr data ->
  let form := credentials (getenv w "CLIENT_ID") (TrimSpace data) (getenv w "SCOPE") in
  let u1 := getenv w "TOKEN_ENDPOINT_URL" in
  let a1 := Post B w u1 form in
  let w2 := Sleep B (snd a1) (2 * SecretManager.Second) in
  let u2 := getenv w2 "TOKEN_ENDPOINT_URL" in
  let a2 := Post B w2 u2 form in
  let w3 := Sleep B (snd a2) (4 * SecretManager.Second) in
  let u3 := getenv w3 "TOKEN_ENDPOINT_URL" in
  let a3 := Post B w3 u3 form in
  let e1 := EvPost u1 form (fst a1) in
  let e2 := EvPost u2 form (fst a2) in
  let e3 := EvPost u3 form (fst a3) in
  SecretManager.getOIDCToken B w
  = if accepted (fst a1) then (Return (tokenResult e1), snd a1, [e1])
    else if accepted (fst a2) then
      (Return (tokenResult e2), snd a2, [e1; EvSleep (2 * SecretManager.Second); e2])
    else (Return (tokenResult e3), snd a3,
          [e1; EvSleep (2 * SecretManager.Second); e2; EvSleep (4 * SecretManager.Second); e3]).
Proof.
  intros HF. cbv zeta.
  unfold SecretManager.getOIDCToken.
  unfold bind at 1, Getenv at 1, ask at 1.
  unfold bind at 1, SecretManager.readFile at 1, bind at 1, ask at 1.
  unfold getenv in HF. rewrite HF. unfold ret at 1. cbn beta iota.
  unfold bind at 1, Getenv at 1, ask at 1.
  unfold bind at 1, Getenv at 1, ask at 1.
  fold (getenv w "CLIENT_ID"). fold (getenv w "SCOPE").
  assert (Hform : (if isEmpty (getenv w "SCOPE")
                   then [("client_id", getenv w "CLIENT_ID"); ("client_secret", TrimSpace data);
                         ("grant_type", "client_credentials")]
                   else ([("client_id", getenv w "CLIENT_ID"); ("client_secret", TrimSpace data);
                          ("grant_type", "client_credentials")]
                           ++ [("scope", getenv w "SCOPE")])%list)
                  = credentials (getenv w "CLIENT_ID") (TrimSpace data) (getenv w "SCOPE")).
  { unfold credentials. destruct (isEmpty (getenv w "SCOPE")); [rewrite app_nil_r|]; reflexivity. }
  cbv zeta. rewrite Hform. clear Hform.
  set (form := credentials (getenv w "CLIENT_ID") (TrimSpace data) (getenv w "SCOPE")).
  unfold bind at 1. change (Z.to_nat SecretManager.maxRetries) with 3%nat.
  pose proof (tokenLoop_run form w) as Hloop. cbv zeta in Hloop. rewrite Hloop. clear Hloop.
  destruct (accepted (fst (Post B w (getenv w "TOKEN_ENDPOINT_URL") form))).
  { rewrite tokenResult_afterPost. cbn [app]. reflexivity. }
  set (w2 := Sleep B (snd (Post B w (getenv w "TOKEN_ENDPOINT_URL") form))
               (2 * SecretManager.Second)).
  destruct (accepted (fst (Post B w2 (getenv w2 "TOKEN_ENDPOINT_URL") form))).
  { rewrite tokenResult_afterPost. cbn [app]. reflexivity. }
  rewrite tokenResult_afterPost. cbn [app]. reflexivity.
Qed.

(** [getOIDCToken] of the single-namespace program in full, from what the
    token endpoint answers. *)
Lemma Simple_getOIDCToken_run (w : World B) :
  let secret :=
    match ReadFile B w (getenv w "CLIENT_SECRET_FILE") with
    | inr data => TrimSpace data
    | inl _ => EmptyString
    end in
  let form := credentials (getenv w "CLIENT_ID") secret (getenv w "SCOPE") in
  let a := Post B w (getenv w "TOKEN_ENDPOINT_URL") form in
  Simple.getOIDCToken B w
  = (Return match fst a with
            | inl err => (EmptyString, Some (Errorf_w "token request failed: " err))
            | inr resp =>
                if negb (Z.eqb (StatusCode resp) 200) then
                  (EmptyString,
                   Some (errorString ("token endpoint returned " ++ Itoa (StatusCode resp)
                                      ++ ": " ++ Content resp)))
                else
                  match Simple.Decode (Content resp) (Simple.mkTokenResponse EmptyString) with
                  | (_, Some err) =>
                      (EmptyString, Some (Errorf_w "failed to decode token response: " err))
                  | (tokenResp, None) =>
                      if isEmpty (Simple.AccessToken tokenResp) then
                        (EmptyString, Some (errorString "empty access token in response"))
                      else (Simple.AccessToken tokenResp, None)
                  end
            end, snd a, [EvPost (getenv w "TOKEN_ENDPOINT_URL") form (fst a)]).
Proof.
  cbv zeta. unfold getenv, credentials.
  unfold Simple.getOIDCToken, Simple.readFile, bind, Getenv, ask, httpPost, ret.
  destruct (ReadFile B w (default EmptyString (LookupEnv B w "CLIENT_SECRET_FILE")))
    as [err | data];
    destruct (isEmpty (default EmptyString (LookupEnv B w "SCOPE"))); cbn [app];
    match goal with
    | |- context [Post B w ?u ?v] => destruct (Post B w u v) as [[perr | resp] w1]
    end;
    cbn [fst snd];
    try reflexivity;
    (destruct (negb (Z.eqb (StatusCode resp) 200)); [reflexivity|]);
    (destruct (Simple.Decode (Content resp) _) as [tr [derr|]]; [reflexivity|]);
    destruct (isEmpty (Simple.AccessToken tr)); reflexivity.
Qed.

(** [tokenResult] of an answer is a token exactly for a response with
    status 200 whose body decodes to an access token that is not empty. *)
Lemma tokenResult_answer (u : string) (v : list (string * string)) (r : error + Reply)
    (tok : string) :
  tokenResult (EvPost u v r) = (tok, None)
  <-> exists rep,
       r = inr rep
       /\ StatusCode rep = 200
       /\ SecretManager.Decode (Content rep) (SecretManager.mkTokenResponse EmptyString)
          = (SecretManager.mkTokenResponse tok, None)
       /\ tok <> EmptyString.
Proof.
  rewrite (tokenResult_token (EvPost u v r) tok eq_refl). split.
  - intros (u' & v' & rep & H & Hrest). injection H as _ _ ->. exists rep. auto.
  - intros (rep & -> & Hrest). exists u, v, rep. auto.
Qed.

(** C5.  [getOIDCToken] returns a token and no error exactly when the
    answer of the token endpoint that ends its requests is a response with
    status 200 whose body decodes without error to an access token that is
    not empty; the token returned is that one.  In the program with retries
    that answer is the first of at most three answers that has status 200,
    or else the third; in the single-namespace program it is the answer to
    the one request.  In particular a first answer with status 200 whose
    body is the object with the one member access_token, of value abc, makes
    both return abc and no error; a response with status 200 whose
    access_token is empty or missing decodes to the empty token and makes
    both return an error and no token; and so does a client secret file
    that cannot be read, in the program with retries. *)
Theorem token_only_from_success_with_access_token :
  (forall (w : World B) (data : string),
      ReadFile B w (getenv w "CLIENT_SECRET_FILE") = inr data ->
      let form := credentials (getenv w "CLIENT_ID") (TrimSpace data) (getenv w "SCOPE") in
      let a1 := Post B w (getenv w "TOKEN_ENDPOINT_URL") form in
      let w2 := Sleep B (snd a1) (2 * SecretManager.Second) in
      let a2 := Post B w2 (getenv w2 "TOKEN_ENDPOINT_URL") form in
      let w3 := Sleep B (snd a2) (4 * SecretManager.Second) in
      let a3 := Post B w3 (getenv w3 "TOKEN_ENDPOINT_URL") form in
      let answer :=
        if accepted (fst a1) then fst a1 else if accepted (fst a2) then fst a2 else fst a3 in
      (forall tok,
          outcome (SecretManager.getOIDCToken B w) = Return (tok, None)
          <-> exists rep,
               answer = inr rep
               /\ StatusCode rep = 200
               /\ SecretManager.Decode (Content rep) (SecretManager.mkTokenResponse EmptyString)
                  = (SecretManager.mkTokenResponse tok, None)
               /\ tok <> EmptyString)
      /\ (forall ce,
             fst a1 = inr (mkReply 200 (Example.object1 "access_token" "abc") ce) ->
             outcome (SecretManager.getOIDCToken B w) = Return ("abc", None))
      /\ (forall rep tokenResp,
             answer = inr rep ->
             StatusCode rep = 200 ->
             SecretManager.Decode (Content rep) (SecretManager.mkTokenResponse EmptyString)
             = (tokenResp, None) ->
             SecretManager.AccessToken tokenResp = EmptyString ->
             outcome (SecretManager.getOIDCToken B w)
             = Return (EmptyString, Some (errorString "empty access token in response"))))
  /\ (forall (w : World B) (err : error),
         ReadFile B w (getenv w "CLIENT_SECRET_FILE") = inl err ->
         exists e, outcome (SecretManager.getOIDCToken B w) = Return (EmptyString, Some e))
  /\ (forall w : World B,
         let secret :=
           match ReadFile B w (getenv w "CLIENT_SECRET_FILE") with
           | inr data => TrimSpace data
           | inl _ => EmptyString
           end in
         let form := credentials (getenv w "CLIENT_ID") secret (getenv w "SCOPE") in
         let answer := fst (Post B w (getenv w "TOKEN_ENDPOINT_URL") form) in
         (forall tok,
             outcome (Simple.getOIDCToken B w) = Return (tok, None)
             <-> exists rep,
                  answer = inr rep
                  /\ StatusCode rep = 200
                  /\ Simple.Decode (Content rep) (Simple.mkTokenResponse EmptyString)
                     = (Simple.mkTokenResponse tok, None)
                  /\ tok <> EmptyString)
         /\ (forall ce,
                answer = inr (mkReply 200 (Example.object1 "access_token" "abc") ce) ->
                outcome (Simple.getOIDCToken B w) = Return ("abc", None))
         /\ (forall rep tokenResp,
                answer = inr rep ->
                StatusCode rep = 200 ->
                Simple.Decode (Content rep) (Simple.mkTokenResponse EmptyString)
                = (tokenResp, None) ->
                Simple.AccessToken tokenResp = EmptyString ->
                outcome (Simple.getOIDCToken B w)
                = Return (EmptyString, Some (errorString "empty access token in response"))))
  /\ SecretManager.Decode (Example.object1 "access_token" EmptyString)
       (SecretManager.mkTokenResponse EmptyString)
     = (SecretManager.mkTokenResponse EmptyString, None)
  /\ SecretManager.Decode (Example.object1 "token_type" "Bearer")
       (SecretManager.mkTokenResponse EmptyString)
     = (SecretManager.mkTokenResponse EmptyString, None).
Proof.
  split; [|split; [|split; [|split; reflexivity]]].
  - intros w data HF. cbv zeta.
    pose proof (getOIDCToken_run w data HF) as Hrun. cbv zeta in Hrun.
    set (form := credentials (getenv w "CLIENT_ID") (TrimSpace data) (getenv w "SCOPE")) in *.
    set (a1 := Post B w (getenv w "TOKEN_ENDPOINT_URL") form) in *.
    set (w2 := Sleep B (snd a1) (2 * SecretManager.Second)) in *.
    set (a2 := Post B w2 (getenv w2 "TOKEN_ENDPOINT_URL") form) in *.
    set (w3 := Sleep B (snd a2) (4 * SecretManager.Second)) in *.
    set (a3 := Post B w3 (getenv w3 "TOKEN_ENDPOINT_URL") form) in *.
    assert (Hout : exists u,
               outcome (SecretManager.getOIDCToken B w)
               = Return (tokenResult
                           (EvPost u form
                              (if accepted (fst a1) then fst a1
                               else if accepted (fst a2) then fst a2 else fst a3)))).
    { rewrite Hrun.
      destruct (accepted (fst a1)); [exists (getenv w "TOKEN_ENDPOINT_URL"); reflexivity|].
      destruct (accepted (fst a2));
        [exists (getenv w2 "TOKEN_ENDPOINT_URL") | exists (getenv w3 "TOKEN_ENDPOINT_URL")];
        reflexivity. }
    destruct Hout as [u Hout]. rewrite Hout. split; [|split].
    + intros tok. rewrite <- (tokenResult_answer u form). split; [intros H; injection H; auto | intros ->; reflexivity].
    + intros ce Ha. rewrite Ha. reflexivity.
    + intros rep tokenResp -> H200 HD He. cbn [tokenResult]. rewrite H200. cbn [Z.eqb negb].
      change (Z.eqb 200 200) with true. cbn [negb]. rewrite HD, He. reflexivity.
  - intros w err HF. unfold getenv in HF.
    destruct (getOIDCToken_spec B w) as [(err' & _ & Hrun) | (data & _ & _ & HF' & _)].
    + rewrite Hrun. eexists. reflexivity.
    + rewrite HF in HF'. discriminate HF'.
  - intros w. cbv zeta. pose proof (Simple_getOIDCToken_run w) as Hrun. cbv zeta in Hrun.
    rewrite Hrun. cbn [outcome fst].
    match goal with |- context [fst (Post B w ?u ?v)] => destruct (fst (Post B w u v)) as [perr | resp] end.
    { split; [|split].
      - intros tok. split; [discriminate | intros (rep & H & _); discriminate H].
      - intros ce H; discriminate H.
      - intros rep tr H; discriminate H. }
    destruct (Z.eqb (StatusCode resp) 200) eqn:E200; cbn [negb].
    2:{ apply Z.eqb_neq in E200. split; [|split].
        - intros tok. split; [discriminate|]. intros (rep & H & H2 & _). injection H as <-. contradiction.
        - intros ce H. injection H as ->. contradiction E200. reflexivity.
        - intros rep tr H H2. injection H as <-. contradiction. }
    apply Z.eqb_eq in E200. split; [|split].
    + intros tok.
      destruct (Simple.Decode (Content resp) (Simple.mkTokenResponse EmptyString))
        as [[t] [derr|]] eqn:HD.
      * split; [discriminate|]. intros (rep & H & _ & H3 & _). injection H as <-.
        rewrite HD in H3. discriminate H3.
      * cbn [Simple.AccessToken]. destruct (isEmpty t) eqn:Et.
        -- apply isEmpty_true in Et. subst t. split; [discriminate|].
           intros (rep & H & _ & H3 & H4). injection H as <-. rewrite HD in H3.
           injection H3 as <-. contradiction.
        -- split.
           ++ intros H. injection H as <-. exists resp. repeat split; auto.
              intros ->. discriminate Et.
           ++ intros (rep & H & _ & H3 & _). injection H as <-. rewrite HD in H3.
              injection H3 as <-. reflexivity.
    + intros ce H. injection H as ->. reflexivity.
    + intros rep tr H _ HD He. injection H as <-. rewrite HD, He. reflexivity.
Qed.

(** C8.  The delays of the retried operations, from what the attempts
    answer.  In [getOIDCToken] a request whose answer is a transport error
    or a status other than 200 is followed, when it is the first, by a
    delay of 2s and the second request, and when it is the second, by a
    delay of 4s and the third request; nothing follows the third request,
    nor a request answered with status 200.  In [withRetries] a run of the
    function that returns an error is followed in the same way by 2s and the
    second run, then by 4s and the third run; nothing follows the third run,
    nor a run that returns no error.  The delay after attempt number i is i
    times the base delay of 2s. *)
Theorem retry_delays_are_linear :
  (forall (w : World B) (data : string),
      ReadFile B w (getenv w "CLIENT_SECRET_FILE") = inr data ->
      let form := credentials (getenv w "CLIENT_ID") (TrimSpace data) (getenv w "SCOPE") in
      let u1 := getenv w "TOKEN_ENDPOINT_URL" in
      let a1 := Post B w u1 form in
      let w2 := Sleep B (snd a1) (1 * SecretManager.baseRetryDelay) in
      let u2 := getenv w2 "TOKEN_ENDPOINT_URL" in
      let a2 := Post B w2 u2 form in
      let w3 := Sleep B (snd a2) (2 * SecretManager.baseRetryDelay) in
      let u3 := getenv w3 "TOKEN_ENDPOINT_URL" in
      let a3 := Post B w3 u3 form in
      events (SecretManager.getOIDCToken B w)
      = if accepted (fst a1) then [EvPost u1 form (fst a1)]
        else if accepted (fst a2) then
          [EvPost u1 form (fst a1); EvSleep (1 * SecretManager.baseRetryDelay);
           EvPost u2 form (fst a2)]
        else
          [EvPost u1 form (fst a1); EvSleep (1 * SecretManager.baseRetryDelay);
           EvPost u2 form (fst a2); EvSleep (2 * SecretManager.baseRetryDelay);
           EvPost u3 form (fst a3)])
  /\ (forall (fn : M B (option error)) (w : World B),
         let r1 := fn w in
         let r2 := fn (Sleep B (final r1) (1 * SecretManager.baseRetryDelay)) in
         let r3 := fn (Sleep B (final r2) (2 * SecretManager.baseRetryDelay)) in
         events (SecretManager.withRetries B fn w)
         = if erred (outcome r1) then
             if erred (outcome r2) then
               (events r1 ++ EvSleep (1 * SecretManager.baseRetryDelay)
                  :: events r2 ++ EvSleep (2 * SecretManager.baseRetryDelay) :: events r3)%list
             else (events r1 ++ EvSleep (1 * SecretManager.baseRetryDelay) :: events r2)%list
           else events r1)
  /\ SecretManager.baseRetryDelay = 2 * SecretManager.Second
  /\ EvSleep (1 * SecretManager.baseRetryDelay) = EvSleep 2000000000
  /\ EvSleep (2 * SecretManager.baseRetryDelay) = EvSleep 4000000000.
Proof.
  split; [|split; [|repeat split]].
  - intros w data HF. cbv zeta.
    change (1 * SecretManager.baseRetryDelay) with (2 * SecretManager.Second).
    change (2 * SecretManager.baseRetryDelay) with (4 * SecretManager.Second).
    pose proof (getOIDCToken_run w data HF) as Hrun. cbv zeta in Hrun. rewrite Hrun.
    destruct (accepted _); [reflexivity|]. destruct (accepted _); reflexivity.
  - intros fn w. cbv zeta.
    change (1 * SecretManager.baseRetryDelay) with (2 * SecretManager.Second).
    change (2 * SecretManager.baseRetryDelay) with (4 * SecretManager.Second).
    pose proof (withRetries_run B fn w) as Hrun. cbv zeta in Hrun. rewrite Hrun.
    destruct (erred _); [|reflexivity]. destruct (erred _); reflexivity.
Qed.

End TokenRuns.

Lemma token_only_from_success_with_access_token_witness :
  ReadFile Mem.backend Example.issuing (getenv (B := Mem.backend) Example.issuing "CLIENT_SECRET_FILE")
  = inr "hunter2"
  /\ fst (Post Mem.backend Example.issuing "https://idp.example/token" Example.form)
     = inr (mkReply 200 (Example.object1 "access_token" "abc") None)
  /\ outcome (SecretManager.getOIDCToken Mem.backend Example.issuing) = Return ("abc", None)
  /\ outcome (Simple.getOIDCToken Mem.backend Example.issuing) = Return ("abc", None).
Proof.
  assert (HF : ReadFile Mem.backend Example.issuing
                 (getenv (B := Mem.backend) Example.issuing "CLIENT_SECRET_FILE")
               = inr "hunter2") by (vm_compute; reflexivity).
  split; [exact HF|]. split; [vm_compute; reflexivity|].
  destruct (token_only_from_success_with_access_token Mem.backend) as (Hretry & _ & Hsimple & _).
  split.
  - exact (proj1 (proj2 (Hretry Example.issuing "hunter2" HF)) None ltac:(vm_compute; reflexivity)).
  - exact (proj1 (proj2 (Hsimple Example.issuing)) None ltac:(vm_compute; reflexivity)).
Defined.

Lemma retry_delays_are_linear_witness :
  ReadFile Mem.backend Example.abc (getenv (B := Mem.backend) Example.abc "CLIENT_SECRET_FILE")
  = inr "hunter2"
  /\ accepted (fst (Post Mem.backend Example.abc "https://idp.example/token" Example.form)) = false
  /\ events (SecretManager.getOIDCToken Mem.backend Example.abc)
     = [EvPost "https://idp.example/token" Example.form Example.status500;
        EvSleep 2000000000;
        EvPost "https://idp.example/token" Example.form Example.status500;
        EvSleep 4000000000;
        EvPost "https://idp.example/token" Example.form Example.status500]
  /\ events (SecretManager.withRetries Mem.backend
               (SecretManager.manageNamespaceSecret Mem.backend "t" "b") Example.abc)
     = [EvGet "b" "oidc-jwt"; EvSleep 2000000000; EvGet "b" "oidc-jwt"; EvSleep 4000000000;
        EvGet "b" "oidc-jwt"].
Proof.
  assert (HF : ReadFile Mem.backend Example.abc
                 (getenv (B := Mem.backend) Example.abc "CLIENT_SECRET_FILE")
               = inr "hunter2") by (vm_compute; reflexivity).
  split; [exact HF|]. split; [vm_compute; reflexivity|].
  destruct (retry_delays_are_linear Mem.backend) as (Htoken & Hretry & _).
  split.
  - rewrite (Htoken Example.abc "hunter2" HF). vm_compute. reflexivity.
  - rewrite (Hretry (SecretManager.manageNamespaceSecret Mem.backend "t" "b") Example.abc).
    vm_compute. reflexivity.
Defined.

(** ** The same token twice *)



Section Rewritten.

Variable B : Backend.


End Rewritten.



